(** * DRAGONWIND: orchestration core

    A shallow embedding of the simulation engine
    ([src/core/simulation_engine.py]), of the by-name sibling lookup of
    [GridIntegration.initialize]
    ([src/modules/grid_integration/curtailment_analysis.py]) and of the
    Monte Carlo runner ([src/core/monte_carlo.py]), with the properties the
    specification states about them; then of the sibling lookups of
    [FinancialModeling] and [BESSDeployment] and of the yearly steps of the
    capacity, grid and storage components, with further properties of the
    code.

    Conventions.  A Python call that may raise is a function into
    [result A = exn + A]; [inl e] is "raised [e]".  Only subclasses of
    [Exception] are modelled (process-control signals such as
    [KeyboardInterrupt] are outside the model).  Floating point numbers are
    carried as rationals; the only arithmetic done on them is that of the
    component steps at the end, where rounding is outside the model. *)

From Stdlib Require Import ZArith QArith Qabs Ascii String List Lia Sorted Permutation.
From stdpp Require Import base option list gmap strings.

#[local] Open Scope Z_scope.
#[local] Open Scope string_scope.
#[local] Open Scope list_scope.
#[local] Set Warnings "-register-all,-clear-no-such-hyp".

(** ** Python exceptions and results *)

Inductive exn : Type :=
| KeyError (key : string)
| IndexError
| TypeError
| ValueError (msg : string)
| AttributeError (attr : string)
| RuntimeError (msg : string)
| RecursionError
| OtherError (msg : string).

(** [KeyError] and [IndexError] are the two subclasses of [LookupError]. *)
Definition is_lookup_error (e : exn) : bool :=
  match e with
  | KeyError _ | IndexError => true
  | _ => false
  end.

Definition result (A : Type) : Type := (exn + A)%type.

Definition raise {A : Type} (e : exn) : result A := inl e.
Definition ok {A : Type} (a : A) : result A := inr a.

Definition rbind {A B : Type} (r : result A) (k : A -> result B) : result B :=
  match r with
  | inl e => inl e
  | inr a => k a
  end.

Definition raised {A : Type} (r : result A) : bool :=
  match r with
  | inl _ => true
  | inr _ => false
  end.

Declare Scope result_scope.
Delimit Scope result_scope with result.
Notation "'try!' x <- r ; k" := (rbind r (fun x => k))
  (at level 10, x name, r at level 100, k at level 200)
  : result_scope.
#[local] Open Scope result_scope.

(** ** State and exceptions

    [SE S A]: a computation on a state [S] that returns an [A] or raises; the
    state it leaves is kept in both cases, as Python keeps every mutation made
    before an exception. *)

Definition SE (S A : Type) : Type := S -> S * result A.

Definition ret {S A : Type} (a : A) : SE S A := fun s => (s, ok a).

Definition throw {S A : Type} (e : exn) : SE S A := fun s => (s, raise e).

Definition bind {S A B : Type} (m : SE S A) (k : A -> SE S B) : SE S B :=
  fun s =>
    match m s with
    | (s', inr a) => k a s'
    | (s', inl e) => (s', inl e)
    end.

(** [try: body  except Exception as e: handler(e)] *)
Definition try_except {S A : Type} (body : SE S A) (handler : exn -> SE S A)
  : SE S A :=
  fun s =>
    match body s with
    | (s', inr a) => (s', inr a)
    | (s', inl e) => handler e s'
    end.

(** [try: body  finally: cleanup] with a cleanup that does not raise. *)
Definition try_finally {S A : Type} (body : SE S A) (cleanup : S -> S)
  : SE S A :=
  fun s => let '(s', r) := body s in (cleanup s', r).

(** A state change that cannot raise. *)
Definition modify {S : Type} (f : S -> S) : SE S unit := fun s => (f s, ok tt).

Definition gets {S A : Type} (f : S -> A) : SE S A := fun s => (s, ok (f s)).

(** A pure call that may raise. *)
Definition lift {S A : Type} (r : result A) : SE S A := fun s => (s, r).

(** [for x in xs: body(x)] *)
Fixpoint for_each {S A : Type} (xs : list A) (body : A -> SE S unit) : SE S unit :=
  match xs with
  | [] => ret tt
  | x :: rest => bind (body x) (fun _ => for_each rest body)
  end.

Declare Scope se_scope.
Delimit Scope se_scope with se.
Notation "'do!' x <- m ; k" := (bind m (fun x => k))
  (at level 10, x name, m at level 100, k at level 200) : se_scope.
Notation "'run!' m ; k" := (bind m (fun _ => k))
  (at level 10, m at level 100, k at level 200) : se_scope.
#[local] Open Scope se_scope.

(** [range(lo, hi)] *)
Definition range (lo hi : Z) : list Z :=
  map (fun i => lo + Z.of_nat i) (seq 0 (Z.to_nat (hi - lo))).

(** ** Configuration values

    [ConfigDict = Dict[str, Any]]: nested mappings with string keys whose
    leaves are scalars; lists occur too (they are never indexed by a path
    key, subscripting one with a string is a [TypeError]). *)

Inductive scalar : Type :=
| SInt (z : Z)
| SFloat (q : Q)
| SStr (s : string)
| SBool (b : bool)
| SNone.

Inductive value : Type :=
| VScalar (s : scalar)
| VList (l : list value)
| VDict (m : gmap string value).

Definition ParameterPath : Type := list string.

(** The functions of this module act on a configuration in which no
    dictionary is held twice: a tree, as [load_config()] returns it.  An
    assignment is then seen at its path only, and the updated tree is
    returned.  The runner of [MonteCarlo] below computes with it.  The same
    functions on dictionaries held by reference, shared or cyclic, where an
    assignment is made in place, are in [Store]; what the specification
    claims about paths and deep copies is stated there. *)

Module Config.

(** [_get_nested_param]:
    {[
      result = config
      for key in path:
          result = result[key]
      return result
    ]} *)
Fixpoint get_nested_param (config : value) (path : ParameterPath) : result value :=
  match path with
  | [] => ok config
  | key :: rest =>
      match config with
      | VDict m =>
          match m !! key with
          | Some child => get_nested_param child rest
          | None => raise (KeyError key)
          end
      | VScalar _ | VList _ => raise TypeError
      end
  end.

(** [target[key] = value] on the object [target]. *)
Definition setitem (target : value) (key : string) (v : value) : result value :=
  match target with
  | VDict m => ok (VDict (<[key := v]> m))
  | VScalar _ | VList _ => raise TypeError
  end.

(** [_set_nested_param]:
    {[
      target = config
      for key in path[:-1]:
          target = target[key]
      target[path[-1]] = value
    ]}
    The configuration is updated in place; here the updated configuration is
    returned.  On the empty path [path[-1]] raises [IndexError]. *)
Fixpoint set_nested_param (config : value) (path : ParameterPath) (v : value)
  : result value :=
  match path with
  | [] => raise IndexError
  | key :: rest =>
      match rest with
      | [] => setitem config key v
      | _ :: _ =>
          match config with
          | VDict m =>
              match m !! key with
              | Some child =>
                  try! child' <- set_nested_param child rest v;
                  ok (VDict (<[key := child']> m))
              | None => raise (KeyError key)
              end
          | VScalar _ | VList _ => raise TypeError
          end
      end
  end.

End Config.

(** ** The simulation engine

    Components are Python objects with state of their own, and they share the
    engine's [state] map; [W] stands for all of that mutable state.  A method
    is a function [W -> W * result unit]: the state it leaves behind, also when
    it raises.  The engine's own calls of [initialize], [step] and [finalize]
    are recorded in a call log, in the order in which they are made. *)

Inductive call : Type :=
| Initialize (component : string)
| Step (component : string) (year : Z)
| Finalize (component : string).

Module Engine.
Section Engine.
Context {W : Type}.

(** A method body: new state and normal return or exception. *)
Definition method : Type := W -> W * result unit.

(** [SimulationComponent]: [initialize] reaches the engine through
    [self.simulation_engine]; what it can see there is the registry, given
    here as the names of [engine.components] in order. *)
Record SimulationComponent : Type := {
  name : string;
  initialize : list string -> method;
  step : Z -> method;
  finalize : method
}.

Record SimulationEngine : Type := {
  start_year : Z;
  end_year : Z;
  components : list SimulationComponent
}.

(** [SimulationEngine(start_year, end_year)] *)
Definition new (start_year end_year : Z) : SimulationEngine :=
  {| start_year := start_year; end_year := end_year; components := [] |}.

(** [add_component]: [self.components.append(component)] *)
Definition add_component (e : SimulationEngine) (c : SimulationComponent)
  : SimulationEngine :=
  {| start_year := start_year e;
     end_year := end_year e;
     components := components e ++ [c] |}.

Definition registry (e : SimulationEngine) : list string :=
  map name (components e).

(** State of a run: the components' world and the call log. *)
Definition M (A : Type) : Type := SE (W * list call) A.

(** The engine calls a method of a component. *)
Definition invoke (c : call) (body : method) : M unit :=
  fun '(w, log) =>
    let '(w', r) := body w in ((w', log ++ [c]), r).

(** A step that cannot raise (its exceptions are caught where it is made). *)
Definition quiet (f : W -> W) : M unit :=
  modify (fun '(w, log) => (f w, log)).

(** [_initialize_components] *)
Definition _initialize_components (e : SimulationEngine) : M unit :=
  for_each (components e)
    (fun component =>
       invoke (Initialize (name component)) (initialize component (registry e))).

(** [_run_simulation_loop]; [progress.update] is wrapped in
    [try ... except Exception], so a reporter only acts on the state. *)
Definition _run_simulation_loop (e : SimulationEngine)
  (progress : option (Z -> W -> W)) : M unit :=
  for_each (range (start_year e) (end_year e + 1))
    (fun year =>
       bind (for_each (components e)
               (fun component =>
                  invoke (Step (name component) year) (step component year)))
         (fun _ =>
            match progress with
            | Some update => quiet (update year)
            | None => ret tt
            end)).

(** [_finalize_components]; the KPI collection that follows the loop is
    wrapped in [try ... except Exception] and calls no lifecycle method. *)
Definition _finalize_components (analytics : W -> W) (e : SimulationEngine)
  : M unit :=
  bind (for_each (components e)
          (fun component =>
             invoke (Finalize (name component)) (finalize component)))
    (fun _ => quiet analytics).

(** [run] *)
Definition run (analytics : W -> W) (e : SimulationEngine)
  (progress : option (Z -> W -> W)) : M unit :=
  bind (_initialize_components e)
    (fun _ =>
       bind (_run_simulation_loop e progress)
         (fun _ => _finalize_components analytics e)).

(** The call sequence of the specification: all [initialize], then year by
    year all [step], then all [finalize], each in registration order. *)
Definition lifecycle_calls (e : SimulationEngine) : list call :=
  map Initialize (registry e)
  ++ flat_map (fun year => map (fun n => Step n year) (registry e))
       (range (start_year e) (end_year e + 1))
  ++ map Finalize (registry e).

End Engine.
Arguments SimulationComponent : clear implicits.
Arguments SimulationEngine : clear implicits.
Arguments method : clear implicits.
End Engine.

(** ** [GridIntegration.initialize]: the by-name sibling lookup *)

Module GridIntegration.
Section GridIntegration.
Context {W : Type}.

Definition default_name : string := "Grid Integration".
Definition dependency : string := "Renewable Capacity Expansion".

(** [next(comp for comp in self.simulation_engine.components
          if comp.name == "Renewable Capacity Expansion")]:
    position and name of the first match, [None] for [StopIteration]. *)
Definition find_dependency (registry : list string) : option (nat * string) :=
  list_find (String.eqb dependency) registry.

(** [initialize].  [setup] is what follows the lookup once the reference is
    cached (history, [load_config()], the two grid parameters); it is given
    the position of the component that was found.  When nothing is found the
    handler evaluates [RuntimeError("...", flush=True)]; that constructor
    takes no keyword argument, so what is raised is a [TypeError]. *)
Definition initialize (setup : nat -> Engine.method W) (registry : list string)
  : Engine.method W :=
  fun w =>
    match find_dependency registry with
    | Some (i, _) => setup i w
    | None => (w, raise TypeError)
    end.

Definition component (name : string) (setup : nat -> Engine.method W)
  (step : Z -> Engine.method W) (finalize : Engine.method W)
  : Engine.SimulationComponent W :=
  {| Engine.name := name;
     Engine.initialize := initialize setup;
     Engine.step := step;
     Engine.finalize := finalize |}.

End GridIntegration.
End GridIntegration.

(** ** Python dictionaries that keep insertion order

    [SampledParams], the metric tables and the result mappings are built key
    by key and later iterated; a key assigned twice keeps its first
    position. *)

Module PyDict.
Section PyDict.
Context {K V : Type} `{EqDecision K}.

Definition t : Type := list (K * V).

Fixpoint get (d : t) (key : K) : option V :=
  match d with
  | [] => None
  | (k, v) :: rest => if decide (k = key) then Some v else get rest key
  end.

(** [d[key] = v] *)
Fixpoint set (d : t) (key : K) (v : V) : t :=
  match d with
  | [] => [(key, v)]
  | (k, v0) :: rest =>
      if decide (k = key) then (k, v) :: rest else (k, v0) :: set rest key v
  end.

Definition keys (d : t) : list K := map fst d.

Definition values (d : t) : list V := map snd d.

(** [key in d] *)
Definition contains (d : t) (key : K) : bool :=
  match get d key with Some _ => true | None => false end.

(** [dict(items)] *)
Definition of_items (items : list (K * V)) : t :=
  fold_left (fun d kv => set d (fst kv) (snd kv)) items [].

End PyDict.
Arguments t : clear implicits.
End PyDict.

(** ** [ParameterDistribution] *)

(** What [numpy.random] is asked for.  Each draw reads and advances the
    generator state [G]; a draw raises when numpy rejects its arguments.
    [normal], [uniform] and [triangular] stand for the call wrapped in
    [float(...)]. *)
Record numpy_random (G : Type) : Type := {
  normal : value -> value -> SE G Q;
  uniform : value -> value -> SE G Q;
  triangular : value -> value -> value -> SE G Q;
  choice : value -> value -> SE G scalar
}.
Arguments normal {G}.
Arguments uniform {G}.
Arguments triangular {G}.
Arguments choice {G}.

Record ParameterDistribution : Type := {
  param_path : ParameterPath;
  distribution : string;
  params : gmap string value
}.

(** Python truth value, as [not values] tests it. *)
Definition truthy (v : value) : bool :=
  match v with
  | VScalar (SInt z) => negb (z =? 0)%Z
  | VScalar (SFloat q) => negb (Qeq_bool q 0)
  | VScalar (SStr s) => negb (String.eqb s "")
  | VScalar (SBool b) => b
  | VScalar SNone => false
  | VList l => negb (Nat.eqb (length l) 0)
  | VDict m => negb (Nat.eqb (size m) 0)
  end.

Module Distribution.
Section Distribution.
Context {G : Type} (np : numpy_random G).

(** [self.params.get(key, default)] *)
Definition param (d : ParameterDistribution) (key : string) (default : value)
  : value :=
  match params d !! key with
  | Some v => v
  | None => default
  end.

Definition int (z : Z) : value := VScalar (SInt z).
Definition half : value := VScalar (SFloat (1 # 2)).

(** [sample] *)
Definition sample (d : ParameterDistribution) : SE G scalar :=
  if String.eqb (distribution d) "normal" then
    do! x <- normal np (param d "mean" (int 0)) (param d "std" (int 1));
    ret (SFloat x)
  else if String.eqb (distribution d) "uniform" then
    do! x <- uniform np (param d "low" (int 0)) (param d "high" (int 1));
    ret (SFloat x)
  else if String.eqb (distribution d) "triangular" then
    do! x <- triangular np (param d "low" (int 0)) (param d "mode" half)
               (param d "high" (int 1));
    ret (SFloat x)
  else if String.eqb (distribution d) "discrete" then
    let values := param d "values" (VList []) in
    let probs := param d "probabilities" (VScalar SNone) in
    if negb (truthy values) then
      throw (ValueError "Discrete distribution must specify 'values'")
    else choice np values probs
  else
    throw (ValueError ("Unknown distribution: " ++ distribution d)%string).

End Distribution.
End Distribution.

(** ** The Monte Carlo runner *)

Definition SampledParams : Type := PyDict.t string scalar.

(** A result table: column names and rows, one row per simulated year. *)
Record DataFrame : Type := {
  df_columns : list string;
  df_rows : list (list scalar)
}.

(** [Dict[str, pd.DataFrame]]; an entry may be [None]. *)
Definition ResultsDict : Type := PyDict.t string (option DataFrame).

(** [SimulationResult] *)
Record SimulationResult : Type := {
  iteration : nat;
  parameters : SampledParams;
  results : ResultsDict
}.

(** [df.empty] *)
Definition df_empty (df : DataFrame) : bool :=
  Nat.eqb (length (df_columns df)) 0 || Nat.eqb (length (df_rows df)) 0.

(** [df.iloc[-1].to_dict()] of a table that is not empty *)
Definition final_values (df : DataFrame) : PyDict.t string scalar :=
  match last (df_rows df) with
  | Some row => PyDict.of_items (combine (df_columns df) row)
  | None => []
  end.

(** [isinstance(value, (int, float))]; [bool] is a subclass of [int]. *)
Definition is_numeric (s : scalar) : bool :=
  match s with
  | SInt _ | SFloat _ | SBool _ => true
  | SStr _ | SNone => false
  end.

(** ["."join(path)] *)
Definition join_path (path : ParameterPath) : string := String.concat "." path.

(** One row of a sensitivity table. *)
Record correlation_row : Type := {
  correlation : Q;
  p_value : Q;
  abs_correlation : Q
}.

Definition sensitivity_table : Type := PyDict.t string correlation_row.

Module MonteCarlo.
Section MonteCarlo.
(** [G]: state of numpy's generator; [X]: the world outside the runner, that
    is whatever the engine factory and the engines it returns can read and
    change, the file system included; [Stats]: the row of statistics numpy
    computes from the values of one metric. *)
Context {G X Stats : Type}.
Context (np : numpy_random G).
(** The eleven statistics of one metric ([np.mean], ..., [np.percentile],
    [len]) from its collected values; numpy raises on values it cannot
    average or order. *)
Context (describe : list scalar -> result Stats).
(** [scipy.stats.pearsonr]: coefficient and p-value, or an exception; a
    missing entry of the first series ([NaN] after [reindex]) is [None]. *)
Context (pearsonr : list (option scalar) -> list scalar -> result (Q * Q)).

(** What the runner needs of an engine: [run()] and [get_all_results()]. *)
Record engine : Type := {
  engine_run : SE X unit;
  engine_get_all_results : SE X ResultsDict
}.

(** [EngineFactory = Callable[[ConfigDict], SimulationEngine]] *)
Definition EngineFactory : Type := value -> SE X engine.

(** The constructor's arguments. *)
Record MonteCarloSimulation : Type := {
  base_config : value;
  parameter_distributions : list ParameterDistribution;
  n_iterations : Z;
  save_all_runs : bool
}.

Inductive log_record : Type :=
| Error_in_iteration (i : nat) (e : exn)
| Info_completed (successful_runs : nat)
| Warning_no_results
| Warning_no_sensitivity_data
| Info_saved_summary
| Info_saved_samples
| Info_saved_all_runs
| Info_saved_sensitivity.

(** Files and directories under [output_dir]. *)
Inductive artifact : Type :=
| summary_statistics_csv (rows : list (string * Stats))
| parameter_samples_csv (rows : list SampledParams)
| all_runs_directory
| run_directory (run : nat)
| run_parameters_csv (run : nat) (row : SampledParams)
| run_module_csv (run : nat) (module_name : string) (df : DataFrame)
| sensitivity_csv (safe_name : string) (table : sensitivity_table).

(** [to_csv] and [os.makedirs]: the file or directory is made, or the call
    raises (a name that is no file name, a full disk, a missing
    permission). *)
Context (write_file : artifact -> SE X unit).

(** The runner's two result lists and the world around it. *)
Record state : Type := {
  self_results : list SimulationResult;
  self_parameter_samples : list SampledParams;
  rng : G;
  ext : X;
  logged : list log_record;
  saved : list artifact;
  progress_updates : nat;
  progress_closed : bool
}.

Definition with_results (f : list SimulationResult -> list SimulationResult)
  (s : state) : state :=
  {| self_results := f (self_results s);
     self_parameter_samples := self_parameter_samples s;
     rng := rng s; ext := ext s; logged := logged s; saved := saved s;
     progress_updates := progress_updates s;
     progress_closed := progress_closed s |}.

Definition with_parameter_samples (f : list SampledParams -> list SampledParams)
  (s : state) : state :=
  {| self_results := self_results s;
     self_parameter_samples := f (self_parameter_samples s);
     rng := rng s; ext := ext s; logged := logged s; saved := saved s;
     progress_updates := progress_updates s;
     progress_closed := progress_closed s |}.

Definition with_rng (g : G) (s : state) : state :=
  {| self_results := self_results s;
     self_parameter_samples := self_parameter_samples s;
     rng := g; ext := ext s; logged := logged s; saved := saved s;
     progress_updates := progress_updates s;
     progress_closed := progress_closed s |}.

Definition with_ext (x : X) (s : state) : state :=
  {| self_results := self_results s;
     self_parameter_samples := self_parameter_samples s;
     rng := rng s; ext := x; logged := logged s; saved := saved s;
     progress_updates := progress_updates s;
     progress_closed := progress_closed s |}.

Definition log (r : log_record) (s : state) : state :=
  {| self_results := self_results s;
     self_parameter_samples := self_parameter_samples s;
     rng := rng s; ext := ext s; logged := logged s ++ [r]; saved := saved s;
     progress_updates := progress_updates s;
     progress_closed := progress_closed s |}.

Definition save (a : artifact) (s : state) : state :=
  {| self_results := self_results s;
     self_parameter_samples := self_parameter_samples s;
     rng := rng s; ext := ext s; logged := logged s; saved := saved s ++ [a];
     progress_updates := progress_updates s;
     progress_closed := progress_closed s |}.

Definition progress_update (s : state) : state :=
  {| self_results := self_results s;
     self_parameter_samples := self_parameter_samples s;
     rng := rng s; ext := ext s; logged := logged s; saved := saved s;
     progress_updates := S (progress_updates s);
     progress_closed := progress_closed s |}.

Definition progress_close (s : state) : state :=
  {| self_results := self_results s;
     self_parameter_samples := self_parameter_samples s;
     rng := rng s; ext := ext s; logged := logged s; saved := saved s;
     progress_updates := progress_updates s;
     progress_closed := true |}.

(** A file or directory is written: recorded in [saved] when the call
    returns, not when it raises. *)
Definition write (a : artifact) : SE state unit :=
  fun s =>
    match write_file a (ext s) with
    | (x, inr _) => (save a (with_ext x s), ok tt)
    | (x, inl e) => (with_ext x s, inl e)
    end.

(** A draw, in the runner's state. *)
Definition on_rng {A : Type} (m : SE G A) : SE state A :=
  fun s => let '(g, r) := m (rng s) in (with_rng g s, r).

(** A call into the factory or an engine, in the runner's state. *)
Definition on_ext {A : Type} (m : SE X A) : SE state A :=
  fun s => let '(x, r) := m (ext s) in (with_ext x s, r).

(** [_sample_parameters] *)
Fixpoint sample_into (samples : SampledParams) (dists : list ParameterDistribution)
  : SE G SampledParams :=
  match dists with
  | [] => ret samples
  | param :: rest =>
      do! sample_value <- Distribution.sample np param;
      sample_into (PyDict.set samples (join_path (param_path param)) sample_value)
        rest
  end.

Definition _sample_parameters (mc : MonteCarloSimulation) : SE G SampledParams :=
  sample_into [] (parameter_distributions mc).

(** The loop of [_apply_samples] over [self.parameter_distributions]. *)
Fixpoint apply_each (config_copy : value) (dists : list ParameterDistribution)
  (samples : SampledParams) : result value :=
  match dists with
  | [] => ok config_copy
  | param :: rest =>
      match PyDict.get samples (join_path (param_path param)) with
      | Some sample_value =>
          try! config_copy' <-
            Config.set_nested_param config_copy (param_path param)
              (VScalar sample_value);
          apply_each config_copy' rest samples
      | None => apply_each config_copy rest samples
      end
  end.

(** [_apply_samples] on a tree: the deep copy of an immutable tree is the
    tree, and the assignments return updated trees.  [copy.deepcopy] itself,
    with its memo, the sharing it keeps and the recursion limit, is in
    [Store]. *)
Definition _apply_samples (mc : MonteCarloSimulation) (config : value)
  (samples : SampledParams) : result value :=
  let config_copy := config in
  apply_each config_copy (parameter_distributions mc) samples.

(** One pass of the loop body of [run], for iteration [i]. *)
Definition run_iteration (mc : MonteCarloSimulation) (create_engine_func : EngineFactory)
  (i : nat) : SE state unit :=
  do! samples <- on_rng (_sample_parameters mc);
  run! modify (with_parameter_samples (fun l => l ++ [samples]));
  do! iter_config <- lift (_apply_samples mc (base_config mc) samples);
  run! try_except
         (do! engine <- on_ext (create_engine_func iter_config);
          run! on_ext (engine_run engine);
          do! engine_results <- on_ext (engine_get_all_results engine);
          modify (with_results (fun l =>
            l ++ [{| iteration := i;
                     parameters := samples;
                     results := engine_results |}])))
         (fun e => modify (log (Error_in_iteration i e)));
  modify progress_update.

(** [metrics[key].append(value)], creating the list on first use *)
Definition append_metric (metrics : PyDict.t string (list scalar)) (key : string)
  (v : scalar) : PyDict.t string (list scalar) :=
  match PyDict.get metrics key with
  | Some collected => PyDict.set metrics key (collected ++ [v])
  | None => PyDict.set metrics key [v]
  end.

Definition metric_key (module_name metric_name : string) : string :=
  (module_name ++ "." ++ metric_name)%string.

(** The numeric entries of the last row of every table of one run. *)
Definition collect_run {A : Type}
  (record : A -> string -> scalar -> A) (run_results : ResultsDict) (acc : A) : A :=
  fold_left
    (fun acc '(module_name, df) =>
       match df with
       | None => acc
       | Some df =>
           if df_empty df then acc
           else
             fold_left
               (fun acc '(metric_name, v) =>
                  if is_numeric v then record acc (metric_key module_name metric_name) v
                  else acc)
               (final_values df) acc
       end)
    run_results acc.

Definition collect_metrics (runs : list SimulationResult)
  : PyDict.t string (list scalar) :=
  fold_left (fun metrics run => collect_run append_metric (results run) metrics)
    runs [].

(** [enumerate(xs)] *)
Definition enumerate {A : Type} (xs : list A) : list (nat * A) :=
  combine (seq 0 (length xs)) xs.

(** [_save_results].  Of the two loops over [enumerate(self.results)] the
    first only computes a path; the second makes the directories and the
    files. *)
Definition _save_results (mc : MonteCarloSimulation)
  (summary_df : list (string * Stats)) : SE state unit :=
  run! write (summary_statistics_csv summary_df);
  run! modify (log Info_saved_summary);
  do! samples <- gets self_parameter_samples;
  run! write (parameter_samples_csv samples);
  run! modify (log Info_saved_samples);
  if save_all_runs mc then
    run! write all_runs_directory;
    do! runs <- gets self_results;
    run! for_each (enumerate runs)
           (fun '(i, run) =>
              run! write (run_directory i);
              run! write (run_parameters_csv i (parameters run));
              for_each (results run)
                (fun '(module_name, df) =>
                   match df with
                   | Some df =>
                       if df_empty df then ret tt
                       else write (run_module_csv i module_name df)
                   | None => ret tt
                   end));
    modify (log Info_saved_all_runs)
  else ret tt.

(** The loop that fills [stats_data]: one row per metric, in the order of
    the metrics; the first metric numpy rejects ends it. *)
Fixpoint stats_data (metrics : PyDict.t string (list scalar))
  : result (list (string * Stats)) :=
  match metrics with
  | [] => ok []
  | (key, values) :: rest =>
      try! row <- describe values;
      try! rows <- stats_data rest;
      ok ((key, row) :: rows)
  end.

(** [_analyze_results]; the empty list is [pd.DataFrame()]. *)
Definition _analyze_results (mc : MonteCarloSimulation)
  : SE state (list (string * Stats)) :=
  do! runs <- gets self_results;
  match runs with
  | [] =>
      run! modify (log Warning_no_results);
      ret []
  | _ :: _ =>
      let metrics := collect_metrics runs in
      do! summary_df <- lift (stats_data metrics);
      run! _save_results mc summary_df;
      ret summary_df
  end.

(** [run] *)
Definition run (mc : MonteCarloSimulation) (create_engine_func : EngineFactory)
  : SE state (list (string * Stats)) :=
  run! modify (with_results (fun _ => []));
  run! modify (with_parameter_samples (fun _ => []));
  try_finally
    (run! for_each (seq 0 (Z.to_nat (n_iterations mc)))
            (run_iteration mc create_engine_func);
     do! successful <- gets (fun s => length (self_results s));
     run! modify (log (Info_completed successful));
     _analyze_results mc)
    progress_close.

(** *** Sensitivity analysis *)

(** The columns of [pd.DataFrame(self.parameter_samples)]: the keys of the
    sample sets, in the order in which they first appear.  Row [i] of this
    table is the sample set of iteration [i]. *)
Definition columns_of (rows : list SampledParams) : list string :=
  fold_left
    (fun columns row =>
       fold_left
         (fun columns key =>
            if decide (key ∈ columns) then columns else columns ++ [key])
         (PyDict.keys row) columns)
    rows [].

(** [metrics_data[key][iteration] = value], creating the inner dictionary on
    first use *)
Definition record_value (iteration : nat)
  (metrics_data : PyDict.t string (PyDict.t nat scalar)) (key : string) (v : scalar)
  : PyDict.t string (PyDict.t nat scalar) :=
  match PyDict.get metrics_data key with
  | Some values_dict => PyDict.set metrics_data key (PyDict.set values_dict iteration v)
  | None => PyDict.set metrics_data key (PyDict.set [] iteration v)
  end.

Definition collect_metrics_data (runs : list SimulationResult)
  : PyDict.t string (PyDict.t nat scalar) :=
  fold_left
    (fun metrics_data run =>
       collect_run (record_value (iteration run)) (results run) metrics_data)
    runs [].

(** [params_df[param_name].reindex(metric_series.index)]: the sampled values
    of one parameter at the iterations of the metric; an iteration without a
    row, or a row without the parameter, gives [NaN]. *)
Definition reindex (rows : list SampledParams) (param_name : string)
  (index : list nat) : list (option scalar) :=
  map (fun i =>
         match rows !! i with
         | Some row => PyDict.get row param_name
         | None => None
         end)
    index.

(** The loop over [params_df.columns] that fills [correlations]. *)
Fixpoint correlate (rows : list SampledParams) (index : list nat)
  (metric_values : list scalar) (columns : list string)
  (correlations : sensitivity_table) : result sensitivity_table :=
  match columns with
  | [] => ok correlations
  | param_name :: rest =>
      let param_values := reindex rows param_name index in
      if (2 <=? length param_values)%nat then
        try! r <- pearsonr param_values metric_values;
        let '(corr, p) := r in
        correlate rows index metric_values rest
          (PyDict.set correlations param_name
             {| correlation := corr;
                p_value := p;
                abs_correlation := Qabs corr |})
      else correlate rows index metric_values rest correlations
  end.

(** [corr_df.sort_values("abs_correlation", ascending=False)], as an
    insertion sort that keeps the order of rows with equal keys. *)
Fixpoint insert_row (row : string * correlation_row) (sorted : sensitivity_table)
  : sensitivity_table :=
  match sorted with
  | [] => [row]
  | next :: rest =>
      if Qle_bool (abs_correlation (snd next)) (abs_correlation (snd row))
      then row :: next :: rest
      else next :: insert_row row rest
  end.

Definition sort_values (table : sensitivity_table) : sensitivity_table :=
  fold_right insert_row [] table.

(** The body of the loop over [metrics_data.items()]: [None] when the metric
    is skipped. *)
Definition analyse_metric (rows : list SampledParams) (columns : list string)
  (values_dict : PyDict.t nat scalar) : result (option sensitivity_table) :=
  if (length values_dict <? 10)%nat then ok None
  else
    try! correlations <-
      correlate rows (PyDict.keys values_dict) (PyDict.values values_dict)
        columns [];
    match correlations with
    | [] => ok None
    | _ :: _ => ok (Some (sort_values correlations))
    end.

Fixpoint analyse_metrics (rows : list SampledParams) (columns : list string)
  (metrics_data : PyDict.t string (PyDict.t nat scalar))
  (sensitivity_results : PyDict.t string sensitivity_table)
  : result (PyDict.t string sensitivity_table) :=
  match metrics_data with
  | [] => ok sensitivity_results
  | (metric_name, values_dict) :: rest =>
      try! corr_df <- analyse_metric rows columns values_dict;
      analyse_metrics rows columns rest
        match corr_df with
        | Some corr_df => PyDict.set sensitivity_results metric_name corr_df
        | None => sensitivity_results
        end
  end.

(** [metric_name.replace(".", "_")] *)
Fixpoint safe_name (metric_name : string) : string :=
  match metric_name with
  | EmptyString => EmptyString
  | String c rest =>
      String (if Ascii.eqb c "."%char then "_"%char else c) (safe_name rest)
  end.

(** [generate_sensitivity_analysis] *)
Definition generate_sensitivity_analysis
  : SE state (PyDict.t string sensitivity_table) :=
  do! runs <- gets self_results;
  do! rows <- gets self_parameter_samples;
  if (Nat.eqb (length runs) 0 || Nat.eqb (length rows) 0)%bool then
    run! modify (log Warning_no_sensitivity_data);
    ret []
  else
    let columns := columns_of rows in
    let metrics_data := collect_metrics_data runs in
    do! sensitivity_results <- lift (analyse_metrics rows columns metrics_data []);
    run! for_each sensitivity_results
           (fun '(metric_name, corr_df) =>
              write (sensitivity_csv (safe_name metric_name) corr_df));
    run! modify (log Info_saved_sensitivity);
    ret sensitivity_results.

End MonteCarlo.
End MonteCarlo.

(** ** The engine of the repository, as the runner uses it

    [run()] is [SimulationEngine.run] without a progress reporter.  The class
    defines [add_component], [run] and the three private phase methods, nothing
    else: the attribute lookup of [engine.get_all_results] raises
    [AttributeError]. *)

Definition of_SimulationEngine {W : Type} (analytics : W -> W)
  (e : Engine.SimulationEngine W) : MonteCarlo.engine (X := W * list call) :=
  {| MonteCarlo.engine_run := Engine.run analytics e None;
     MonteCarlo.engine_get_all_results := throw (AttributeError "get_all_results") |}.

(** ** Configurations as shared objects

    What [copy.deepcopy] is for: a configuration is a graph of dictionaries
    and lists held by reference, and an assignment [target[key] = value] is
    seen through every reference to [target].  Here the objects live in a
    heap; [_get_nested_param], [_set_nested_param] and [_apply_samples] are the
    same code as in [Config] and [MonteCarlo], acting on that heap. *)

Module Store.

Abbreviation loc := nat.

Inductive val : Type :=
| Scalar (s : scalar)
| Ref (l : loc).

Inductive obj : Type :=
| Dict (d : gmap string val)
| List (xs : list val).

Abbreviation heap := (gmap loc obj).

(** [target[key]].  Every reference of a Python program has its object; the
    last case only makes the function total. *)
Definition getitem (h : heap) (target : val) (key : string) : result val :=
  match target with
  | Scalar _ => raise TypeError
  | Ref l =>
      match h !! l with
      | Some (Dict d) =>
          match d !! key with
          | Some v => ok v
          | None => raise (KeyError key)
          end
      | Some (List _) => raise TypeError
      | None => raise TypeError
      end
  end.

(** [target[key] = v] *)
Definition setitem (h : heap) (target : val) (key : string) (v : val)
  : result heap :=
  match target with
  | Scalar _ => raise TypeError
  | Ref l =>
      match h !! l with
      | Some (Dict d) => ok (<[l := Dict (<[key := v]> d)]> h)
      | Some (List _) => raise TypeError
      | None => raise TypeError
      end
  end.

(** [_get_nested_param] *)
Fixpoint get_nested_param (h : heap) (config : val) (path : ParameterPath)
  : result val :=
  match path with
  | [] => ok config
  | key :: rest =>
      try! child <- getitem h config key;
      get_nested_param h child rest
  end.

(** [_set_nested_param]: walk [path[:-1]], then assign at [path[-1]]. *)
Definition set_nested_param (h : heap) (config : val) (path : ParameterPath)
  (v : val) : result heap :=
  try! target <- get_nested_param h config (removelast path);
  match last path with
  | Some key => setitem h target key v
  | None => raise IndexError
  end.

(** *** [copy.deepcopy]

    The state of a copy is the memo, from the objects already copied to their
    copies, and the heap.  A dictionary or a list is copied by allocating an
    empty one, entering it in the memo, and filling it with the copies of its
    entries; a scalar is returned as it is.  [fuel] bounds the nesting of the
    recursive calls, as the interpreter's recursion limit does. *)

Abbreviation memo := (gmap loc loc).

(** [y[key] = v] on the dictionary being filled *)
Definition fill_key (y : loc) (key : string) (v : val) (st : memo * heap)
  : memo * heap :=
  match snd st !! y with
  | Some (Dict d) => (fst st, <[y := Dict (<[key := v]> d)]> (snd st))
  | _ => st
  end.

(** [y.append(v)] on the list being filled *)
Definition fill_append (y : loc) (v : val) (st : memo * heap) : memo * heap :=
  match snd st !! y with
  | Some (List xs) => (fst st, <[y := List (xs ++ [v])]> (snd st))
  | _ => st
  end.

Fixpoint deepcopy (fuel : nat) (x : val) : SE (memo * heap) val :=
  match x with
  | Scalar s => ret (Scalar s)
  | Ref l =>
      fun st =>
        match fst st !! l with
        | Some y => (st, ok (Ref y))
        | None =>
            match fuel with
            | O => (st, raise RecursionError)
            | S fuel' =>
                let y := fresh (dom (snd st)) in
                match snd st !! l with
                | Some (Dict d) =>
                    (run! for_each (map_to_list d)
                            (fun '(key, v) =>
                               do! v' <- deepcopy fuel' v;
                               modify (fill_key y key v'));
                     ret (Ref y))
                      (<[l := y]> (fst st), <[y := Dict ∅]> (snd st))
                | Some (List xs) =>
                    (run! for_each xs
                            (fun v =>
                               do! v' <- deepcopy fuel' v;
                               modify (fill_append y v'));
                     ret (Ref y))
                      (<[l := y]> (fst st), <[y := List []]> (snd st))
                | None => (st, raise TypeError)
                end
            end
        end
  end.

(** [copy.deepcopy(config)]: a copy with a memo of its own. *)
Definition copy_deepcopy (fuel : nat) (config : val) : SE heap val :=
  fun h => let '((_, h'), r) := deepcopy fuel config (∅, h) in (h', r).

(** A call that changes the heap when it returns and leaves it when it
    raises. *)
Definition update (f : heap -> result heap) : SE heap unit :=
  fun h =>
    match f h with
    | inr h' => (h', ok tt)
    | inl e => (h, raise e)
    end.

(** [_apply_samples] *)
Definition _apply_samples (fuel : nat) (dists : list ParameterDistribution)
  (config : val) (samples : SampledParams) : SE heap val :=
  do! config_copy <- copy_deepcopy fuel config;
  run! for_each dists
         (fun param =>
            match PyDict.get samples (join_path (param_path param)) with
            | Some sample_value =>
                update (fun h =>
                          set_nested_param h config_copy (param_path param)
                            (Scalar sample_value))
            | None => ret tt
            end);
  ret config_copy.

(** The configurations that the iterations of [run] build one after the
    other from the same base configuration, for the sample sets
    [samples_of_iterations]; an exception ends the loop. *)
Fixpoint apply_all (fuel : nat) (dists : list ParameterDistribution)
  (base_config : val) (samples_of_iterations : list SampledParams)
  : SE heap (list val) :=
  match samples_of_iterations with
  | [] => ret []
  | samples :: rest =>
      do! iter_config <- _apply_samples fuel dists base_config samples;
      do! iter_configs <- apply_all fuel dists base_config rest;
      ret (iter_config :: iter_configs)
  end.

(** [l] is an object that can be reached from [v]. *)
Inductive reach (h : heap) : val -> loc -> Prop :=
| reach_here (l : loc) : reach h (Ref l) l
| reach_dict (l : loc) (d : gmap string val) (key : string) (v : val) (l' : loc) :
    h !! l = Some (Dict d) -> d !! key = Some v -> reach h v l' ->
    reach h (Ref l) l'
| reach_list (l : loc) (xs : list val) (v : val) (l' : loc) :
    h !! l = Some (List xs) -> v ∈ xs -> reach h v l' ->
    reach h (Ref l) l'.

End Store.

(** ** The sibling lookups of two other components *)

(** [FinancialModeling.initialize]
    ([src/modules/financial_modeling/green_finance.py]): the same lookup as
    [GridIntegration.initialize], with a [raise] that is well formed. *)
Module FinancialModeling.
Section FinancialModeling.
Context {W : Type}.

Definition not_found : exn :=
  RuntimeError "Renewable Capacity Expansion module not found.".

Definition initialize (setup : nat -> Engine.method W) (registry : list string)
  : Engine.method W :=
  fun w =>
    match GridIntegration.find_dependency registry with
    | Some (i, _) => setup i w
    | None => (w, raise not_found)
    end.

End FinancialModeling.
End FinancialModeling.

(** [BESSDeployment.initialize] ([src/modules/bess/bess_model.py]): the
    configuration is loaded first; then
    [next(c for c in self.simulation_engine.components
          if c.name.startswith("Grid Integration"))]
    is bound to [self._grid_mod], or [None] on [StopIteration]. *)
Module BESSDeployment.
Section BESSDeployment.
Context {W : Type}.

Definition grid_prefix : string := "Grid Integration".

Definition find_grid (registry : list string) : option (nat * string) :=
  list_find (fun n => String.prefix grid_prefix n = true) registry.

(** [load] is the part before the lookup ([load_config()] and the four
    parameters read from it); [bind_grid] stores [self._grid_mod]. *)
Definition initialize (load : Engine.method W) (bind_grid : option nat -> W -> W)
  (registry : list string) : Engine.method W :=
  fun w =>
    match load w with
    | (w1, inr _) => (bind_grid (option_map fst (find_grid registry)) w1, ok tt)
    | (w1, inl e) => (w1, inl e)
    end.

End BESSDeployment.
End BESSDeployment.

(** ** Three components and the objects they share

    [RenewableCapacityExpansion]
    ([src/modules/renewable_energy/capacity_expansion.py]), [GridIntegration]
    ([src/modules/grid_integration/curtailment_analysis.py]) and
    [BESSDeployment] ([src/modules/bess/bess_model.py]), one object of each
    class.  A grid component reads the [capacity] of the capacity object, a
    storage component the [history] of the grid object: the three objects
    are one world, and a component is a view on it.

    The entries of the configuration that these components compute with are
    taken to be numbers and are carried as rationals; the file that
    [load_config()] reads is taken to exist and to have these entries. *)

Module Plant.

(** What [load_config()] returns, at the entries that are read. *)
Record Settings : Type := {
  renewable_capacity_initial : PyDict.t string Q;
  renewable_capacity_growth_rates : PyDict.t string Q;
  grid_initial_transmission_gw : Q;
  grid_annual_expansion_rate : Q;
  bess_initial_power_gw : Q;
  bess_initial_energy_gwh : Q;
  bess_annual_addition_gw : Q;
  bess_energy_power_ratio : Q
}.

(** The rows of the three [history] lists. *)
Record CapacityRow : Type := {
  capacity_year : Z;
  solar_gw : Q;
  wind_gw : Q
}.

Record GridRow : Type := {
  grid_year : Z;
  grid_capacity_gw : Q;
  curtailment_rate : Q
}.

Record BESSRow : Type := {
  bess_year : Z;
  bess_power_gw : Q;
  bess_energy_gwh : Q;
  bess_curtailment_rate : option Q
}.

(** The attributes that [initialize] gives an object; before it the object
    has none of them. *)
Record RenewableCapacityExpansion : Type := {
  capacity_history : list CapacityRow;
  capacity : PyDict.t string Q;
  growth_rates : PyDict.t string Q
}.

Record GridAttributes : Type := {
  grid_history : list GridRow;
  grid_transmission_capacity : Q;
  expansion_rate : Q
}.

(** [renewable_capacity_module] is [None] from [__init__] on, and the
    capacity object once the lookup of [initialize] has found it. *)
Record GridIntegration : Type := {
  renewable_capacity_module : bool;
  grid_attributes : option GridAttributes
}.

(** [_grid_mod] is the grid object or [None]. *)
Record BESSDeployment : Type := {
  power_gw : Q;
  energy_gwh : Q;
  annual_addition_gw : Q;
  energy_power_ratio : Q;
  bess_history : list BESSRow;
  _grid_mod : bool
}.

(** [bri_innovation_boost] is that entry of [engine.state], if any. *)
Record World : Type := {
  bri_innovation_boost : option Q;
  renewable : option RenewableCapacityExpansion;
  grid : GridIntegration;
  bess : option BESSDeployment
}.

(** The objects after their [__init__], in an engine after its own. *)
Definition created : World :=
  {| bri_innovation_boost := None;
     renewable := None;
     grid := {| renewable_capacity_module := false; grid_attributes := None |};
     bess := None |}.

Definition with_renewable (r : RenewableCapacityExpansion) (w : World) : World :=
  {| bri_innovation_boost := bri_innovation_boost w;
     renewable := Some r;
     grid := grid w;
     bess := bess w |}.

Definition with_grid (g : GridIntegration) (w : World) : World :=
  {| bri_innovation_boost := bri_innovation_boost w;
     renewable := renewable w;
     grid := g;
     bess := bess w |}.

Definition with_bess (b : BESSDeployment) (w : World) : World :=
  {| bri_innovation_boost := bri_innovation_boost w;
     renewable := renewable w;
     grid := grid w;
     bess := Some b |}.

(** [d[key]] *)
Definition getitem (d : PyDict.t string Q) (key : string) : result Q :=
  match PyDict.get d key with
  | Some v => ok v
  | None => raise (KeyError key)
  end.

(** [sum(d.values())] *)
Definition sum_values (d : PyDict.t string Q) : Q :=
  fold_left Qplus (PyDict.values d) 0%Q.

(** [a / b] *)
Definition divide (a b : Q) : result Q :=
  if Qeq_bool b 0 then raise (OtherError "ZeroDivisionError") else ok (a / b)%Q.

(** *** [RenewableCapacityExpansion] *)

Definition capacity_name : string := "Renewable Capacity Expansion".

Definition capacity_initialize (cfg : Settings) : Engine.method World :=
  fun w =>
    (with_renewable
       {| capacity_history := [];
          capacity := renewable_capacity_initial cfg;
          growth_rates := renewable_capacity_growth_rates cfg |} w,
     ok tt).

Definition capacity_step (time_step : Z) : Engine.method World :=
  fun w =>
    let innovation_boost :=
      match bri_innovation_boost w with
      | Some boost => boost
      | None => 1%Q
      end in
    match renewable w with
    | None => (w, raise (AttributeError "capacity"))
    | Some self =>
        match
          (try! solar <- getitem (capacity self) "solar";
           try! solar_rate <- getitem (growth_rates self) "solar";
           try! wind <- getitem (capacity self) "wind";
           try! wind_rate <- getitem (growth_rates self) "wind";
           ok (solar, (solar * solar_rate * innovation_boost)%Q,
               wind, (wind * wind_rate * innovation_boost)%Q))
        with
        | inl e => (w, inl e)
        | inr (solar, new_solar_capacity, wind, new_wind_capacity) =>
            let solar' := (solar + new_solar_capacity)%Q in
            let wind' := (wind + new_wind_capacity)%Q in
            let capacity' :=
              PyDict.set (PyDict.set (capacity self) "solar" solar') "wind" wind' in
            (with_renewable
               {| capacity_history :=
                    capacity_history self
                    ++ [{| capacity_year := time_step;
                           solar_gw := solar';
                           wind_gw := wind' |}];
                  capacity := capacity';
                  growth_rates := growth_rates self |} w,
             ok tt)
        end
    end.

(** [get_total_capacity] *)
Definition get_total_capacity (self : RenewableCapacityExpansion) : result Q :=
  try! solar <- getitem (capacity self) "solar";
  try! wind <- getitem (capacity self) "wind";
  ok (solar + wind)%Q.

(** [finalize] prints the two capacities. *)
Definition capacity_finalize : Engine.method World :=
  fun w =>
    match renewable w with
    | None => (w, raise (AttributeError "capacity"))
    | Some self =>
        (w, try! solar <- getitem (capacity self) "solar";
            try! wind <- getitem (capacity self) "wind";
            ok tt)
    end.

(** *** [GridIntegration] *)

(** What [initialize] does once the lookup has returned. *)
Definition grid_setup (cfg : Settings) : Engine.method World :=
  fun w =>
    (with_grid
       {| renewable_capacity_module := true;
          grid_attributes :=
            Some {| grid_history := [];
                    grid_transmission_capacity := grid_initial_transmission_gw cfg;
                    expansion_rate := grid_annual_expansion_rate cfg |} |} w,
     ok tt).

Definition grid_step (time_step : Z) : Engine.method World :=
  fun w =>
    match renewable_capacity_module (grid w), renewable w with
    | false, _ | true, None => (w, raise (AttributeError "capacity"))
    | true, Some module =>
        let total_renewable_capacity := sum_values (capacity module) in
        match grid_attributes (grid w) with
        | None => (w, raise (AttributeError "grid_transmission_capacity"))
        | Some self =>
            match
              (if Qle_bool total_renewable_capacity (grid_transmission_capacity self)
               then ok 0%Q
               else
                 let curtailed_capacity :=
                   (total_renewable_capacity - grid_transmission_capacity self)%Q in
                 try! share <- divide curtailed_capacity total_renewable_capacity;
                 ok (share * 100)%Q)
            with
            | inl e => (w, inl e)
            | inr rate =>
                (with_grid
                   {| renewable_capacity_module := true;
                      grid_attributes :=
                        Some {| grid_history :=
                                  grid_history self
                                  ++ [{| grid_year := time_step;
                                         grid_capacity_gw :=
                                           grid_transmission_capacity self;
                                         curtailment_rate := rate |}];
                                grid_transmission_capacity :=
                                  (grid_transmission_capacity self
                                   * (1 + expansion_rate self))%Q;
                                expansion_rate := expansion_rate self |} |} w,
                 ok tt)
            end
        end
    end.

(** [finalize] prints the transmission capacity. *)
Definition grid_finalize : Engine.method World :=
  fun w =>
    match grid_attributes (grid w) with
    | None => (w, raise (AttributeError "grid_transmission_capacity"))
    | Some _ => (w, ok tt)
    end.

(** *** [BESSDeployment] *)

Definition bess_name : string := "BESS Deployment".

(** [initialize] up to the lookup. *)
Definition bess_load (cfg : Settings) : Engine.method World :=
  fun w =>
    (with_bess
       {| power_gw := bess_initial_power_gw cfg;
          energy_gwh := bess_initial_energy_gwh cfg;
          annual_addition_gw := bess_annual_addition_gw cfg;
          energy_power_ratio := bess_energy_power_ratio cfg;
          bess_history := [];
          _grid_mod := false |} w,
     ok tt).

(** [self._grid_mod = ...] *)
Definition bess_bind_grid (found : option nat) (w : World) : World :=
  match bess w with
  | Some self =>
      with_bess
        {| power_gw := power_gw self;
           energy_gwh := energy_gwh self;
           annual_addition_gw := annual_addition_gw self;
           energy_power_ratio := energy_power_ratio self;
           bess_history := bess_history self;
           _grid_mod := match found with Some _ => true | None => false end |} w
  | None => w
  end.

(** [self._grid_mod.history[-1]["curtailment_rate"]] *)
Definition last_curtailment_rate (w : World) : result Q :=
  match grid_attributes (grid w) with
  | None => raise (AttributeError "history")
  | Some attributes =>
      match last (grid_history attributes) with
      | Some row => ok (curtailment_rate row)
      | None => raise IndexError
      end
  end.

(** The two capacities are updated before the grid is read, and stay
    updated when that read raises. *)
Definition bess_step (time_step : Z) : Engine.method World :=
  fun w =>
    match bess w with
    | None => (w, raise (AttributeError "power_gw"))
    | Some self =>
        let power_gw' := (power_gw self + annual_addition_gw self)%Q in
        let energy_gwh' := (power_gw' * energy_power_ratio self)%Q in
        let deployed (history : list BESSRow) :=
          {| power_gw := power_gw';
             energy_gwh := energy_gwh';
             annual_addition_gw := annual_addition_gw self;
             energy_power_ratio := energy_power_ratio self;
             bess_history := history;
             _grid_mod := _grid_mod self |} in
        match
          (if _grid_mod self
           then try! rate <- last_curtailment_rate w; ok (Some rate)
           else ok None)
        with
        | inl e => (with_bess (deployed (bess_history self)) w, inl e)
        | inr curtailed =>
            (with_bess
               (deployed
                  (bess_history self
                   ++ [{| bess_year := time_step;
                          bess_power_gw := power_gw';
                          bess_energy_gwh := energy_gwh';
                          bess_curtailment_rate := curtailed |}])) w,
             ok tt)
        end
    end.

Definition bess_finalize : Engine.method World := fun w => (w, ok tt).

(** *** The components of an engine *)

Inductive kind : Type := Capacity | Grid | Storage.

Definition component (cfg : Settings) (k : kind) : Engine.SimulationComponent World :=
  match k with
  | Capacity =>
      {| Engine.name := capacity_name;
         Engine.initialize := fun _ => capacity_initialize cfg;
         Engine.step := capacity_step;
         Engine.finalize := capacity_finalize |}
  | Grid =>
      GridIntegration.component GridIntegration.default_name
        (fun _ => grid_setup cfg) grid_step grid_finalize
  | Storage =>
      {| Engine.name := bess_name;
         Engine.initialize :=
           BESSDeployment.initialize (bess_load cfg) bess_bind_grid;
         Engine.step := bess_step;
         Engine.finalize := bess_finalize |}
  end.

(** [engine = SimulationEngine(start_year, end_year)] followed by one
    [engine.add_component] per entry of [kinds]. *)
Definition engine (cfg : Settings) (start_year end_year : Z) (kinds : list kind)
  : Engine.SimulationEngine World :=
  fold_left Engine.add_component (map (component cfg) kinds)
    (Engine.new start_year end_year).

End Plant.

(** * Properties *)

(** ** Path addressing on a configuration tree *)

Section ConfigFacts.
Import Config.

Lemma set_nested_param_cons (config : value) (key : string) (rest : ParameterPath)
  (v : value) :
  rest <> [] ->
  set_nested_param config (key :: rest) v =
  match config with
  | VDict m =>
      match m !! key with
      | Some child =>
          try! child' <- set_nested_param child rest v;
          ok (VDict (<[key := child']> m))
      | None => raise (KeyError key)
      end
  | VScalar _ | VList _ => raise TypeError
  end.
Proof.
  intros Hrest. destruct rest as [|k rest]; [congruence|]. reflexivity.
Qed.

Lemma app_cons_not_nil {A : Type} (l1 l2 : list A) (a : A) : l1 ++ a :: l2 <> [].
Proof. destruct l1; discriminate. Qed.

Lemma get_nested_param_app (pre : ParameterPath) :
  forall (config : value) (post : ParameterPath),
    get_nested_param config (pre ++ post) =
    try! mid <- get_nested_param config pre; get_nested_param mid post.
Proof.
  induction pre as [|a pre IH]; intros config post; simpl; [reflexivity|].
  destruct config as [s|l|m0]; try reflexivity.
  destruct (m0 !! a); [apply IH | reflexivity].
Qed.

End ConfigFacts.


(** ** Path addressing on shared objects

    The configuration is a dictionary held by reference: [set] assigns in
    place, and its effect is seen through every reference to the dictionary
    it assigns to. *)

Section PathAddressing.
Import Store.

(** The entries a walk reads: the dictionaries it subscripts, each with the
    key it is subscripted with. *)
Fixpoint trail (h : heap) (config : val) (path : ParameterPath)
  : list (loc * string) :=
  match path with
  | [] => []
  | key :: rest =>
      match config with
      | Scalar _ => []
      | Ref l =>
          (l, key) :: match getitem h config key with
                      | inr child => trail h child rest
                      | inl _ => []
                      end
      end
  end.

Lemma heap_get_nested_param_app (h : heap) (pre : ParameterPath) :
  forall (config : val) (post : ParameterPath),
    get_nested_param h config (pre ++ post) =
    try! mid <- get_nested_param h config pre; get_nested_param h mid post.
Proof.
  induction pre as [|a pre IH]; intros config post; simpl; [reflexivity|].
  destruct (getitem h config a) as [e|child]; simpl; [reflexivity | apply IH].
Qed.

Lemma heap_get_nested_param_snoc (h : heap) (config : val) (pre : ParameterPath)
  (key : string) :
  get_nested_param h config (pre ++ [key]) =
  try! target <- get_nested_param h config pre; getitem h target key.
Proof.
  rewrite heap_get_nested_param_app.
  destruct (get_nested_param h config pre) as [e|target]; simpl; [reflexivity|].
  destruct (getitem h target key); reflexivity.
Qed.

Lemma trail_app (h : heap) (pre : ParameterPath) :
  forall (config mid : val) (post : ParameterPath),
    get_nested_param h config pre = ok mid ->
    trail h config (pre ++ post) = trail h config pre ++ trail h mid post.
Proof.
  induction pre as [|a pre IH]; intros config mid post; simpl.
  - intros [= <-]. reflexivity.
  - destruct config as [s|l]; simpl; [discriminate|].
    destruct (h !! l) as [[d|xs]|]; simpl; try discriminate.
    destruct (d !! a) as [child|]; simpl; [|discriminate].
    intros Hget. rewrite (IH _ _ _ Hget). reflexivity.
Qed.

(** A read depends on the entries of its trail only. *)
Lemma get_nested_param_on_trail (h h' : heap) (path : ParameterPath) :
  forall config : val,
    (forall l key, (l, key) ∈ trail h config path ->
                   getitem h' (Ref l) key = getitem h (Ref l) key) ->
    get_nested_param h' config path = get_nested_param h config path /\
    trail h' config path = trail h config path.
Proof.
  induction path as [|key rest IH]; intros config Hsame; [split; reflexivity|].
  destruct config as [s|l]; [split; reflexivity|].
  cbn [get_nested_param trail] in *.
  rewrite (Hsame l key) by left.
  destruct (getitem h (Ref l) key) as [e|child]; [split; reflexivity|].
  destruct (IH child) as [Hget Htrail].
  { intros l0 k0 Hin. apply Hsame. right. exact Hin. }
  simpl. rewrite Hget, Htrail. split; reflexivity.
Qed.

(** The heap after [target[key] = v] on the dictionary [l]. *)
Lemma getitem_assigned (h : heap) (l : loc) (d : gmap string val) (key : string)
  (v : val) (l0 : loc) (k0 : string) :
  h !! l = Some (Dict d) ->
  getitem (<[l := Dict (<[key := v]> d)]> h) (Ref l0) k0 =
  if decide ((l0, k0) = (l, key)) then ok v else getitem h (Ref l0) k0.
Proof.
  intros Hl. unfold getitem. destruct (decide ((l0, k0) = (l, key))) as [[= -> ->]|Hne].
  - rewrite !lookup_insert_eq. reflexivity.
  - destruct (decide (l0 = l)) as [->|Hl0].
    + rewrite lookup_insert_eq, Hl.
      rewrite lookup_insert_ne by congruence. reflexivity.
    + rewrite lookup_insert_ne by congruence. reflexivity.
Qed.

(** A read whose walk does not read the assigned entry returns what it
    returned before the assignment. *)
Lemma get_nested_param_off_trail (h : heap) (l : loc) (d : gmap string val)
  (key : string) (v : val) (config : val) (path : ParameterPath) :
  h !! l = Some (Dict d) ->
  (l, key) ∉ trail h config path ->
  get_nested_param (<[l := Dict (<[key := v]> d)]> h) config path
  = get_nested_param h config path.
Proof.
  intros Hl Hoff. apply get_nested_param_on_trail.
  intros l0 k0 Hin. rewrite (getitem_assigned h l d key v l0 k0 Hl).
  destruct (decide ((l0, k0) = (l, key))) as [Heq|_]; [|reflexivity].
  rewrite Heq in Hin. contradiction.
Qed.

(** [set] on a path that ends with [key]. *)
Lemma set_nested_param_snoc (h : heap) (config : val) (pre : ParameterPath)
  (key : string) (v : val) :
  set_nested_param h config (pre ++ [key]) v =
  try! target <- get_nested_param h config pre; setitem h target key v.
Proof.
  unfold set_nested_param. rewrite removelast_last, last_snoc. reflexivity.
Qed.

(** When [set] returns, it has assigned one entry of one dictionary. *)
Lemma set_nested_param_returns (h h' : heap) (config : val)
  (path : ParameterPath) (v : val) :
  set_nested_param h config path v = ok h' ->
  exists (pre : ParameterPath) (key : string) (l : loc) (d : gmap string val),
    path = pre ++ [key] /\
    get_nested_param h config pre = ok (Ref l) /\
    h !! l = Some (Dict d) /\
    h' = <[l := Dict (<[key := v]> d)]> h.
Proof.
  destruct (decide (path = [])) as [->|Hne]; [discriminate|].
  destruct (exists_last Hne) as (pre & key & ->).
  rewrite set_nested_param_snoc.
  destruct (get_nested_param h config pre) as [e|target] eqn:Hget; [discriminate|].
  simpl. destruct target as [s|l]; simpl; [discriminate|].
  destruct (h !! l) as [[d|xs]|] eqn:Hl; try discriminate.
  intros [= <-]. exists pre, key, l, d. auto.
Qed.

(** The read after the assignment, on a walk that does not read the
    assigned entry. *)
Lemma get_nested_param_assigned (h : heap) (config : val) (pre : ParameterPath)
  (l : loc) (d : gmap string val) (key : string) (v : val) :
  get_nested_param h config pre = ok (Ref l) ->
  h !! l = Some (Dict d) ->
  (l, key) ∉ trail h config pre ->
  get_nested_param (<[l := Dict (<[key := v]> d)]> h) config (pre ++ [key]) = ok v.
Proof.
  intros Hpre Hl Hoff. rewrite heap_get_nested_param_app.
  rewrite (get_nested_param_off_trail h l d key v config pre Hl Hoff), Hpre.
  simpl. rewrite lookup_insert_eq, lookup_insert_eq. reflexivity.
Qed.

(** A walk that enters no dictionary twice does not read the entry it ends
    at. *)
Lemma trail_NoDup_off (h : heap) (config : val) (pre : ParameterPath) (l : loc)
  (key : string) :
  get_nested_param h config pre = ok (Ref l) ->
  NoDup (map fst (trail h config (pre ++ [key]))) ->
  (l, key) ∉ trail h config pre.
Proof.
  intros Hpre Hnd Hin. rewrite (trail_app h pre config (Ref l) [key] Hpre) in Hnd.
  rewrite map_app in Hnd. apply NoDup_app in Hnd as (_ & Hdisj & _).
  apply (Hdisj l).
  - apply (list_elem_of_fmap_2 fst _ (l, key) Hin).
  - simpl. left.
Qed.

(** A missing key stops [get], and stops [set] when the key is not the last
    one. *)
Lemma heap_missing_key (h : heap) (config : val) (pre : ParameterPath) (l : loc)
  (d : gmap string val) (key : string) (post : ParameterPath) (v : val) :
  get_nested_param h config pre = ok (Ref l) ->
  h !! l = Some (Dict d) ->
  d !! key = None ->
  get_nested_param h config (pre ++ key :: post) = raise (KeyError key) /\
  (post <> [] ->
   set_nested_param h config (pre ++ key :: post) v = raise (KeyError key)).
Proof.
  intros Hpre Hl Hkey. split.
  - rewrite heap_get_nested_param_app, Hpre. simpl. rewrite Hl, Hkey. reflexivity.
  - intros Hpost. destruct (exists_last Hpost) as (mid & k & ->).
    replace (pre ++ key :: mid ++ [k]) with ((pre ++ key :: mid) ++ [k])
      by (rewrite <- app_assoc; reflexivity).
    rewrite set_nested_param_snoc, heap_get_nested_param_app, Hpre. simpl.
    rewrite Hl, Hkey. reflexivity.
Qed.

(** A read whose walk reads an entry that holds a scalar, and goes on, is a
    [TypeError]. *)
Lemma get_nested_param_through_scalar (h : heap) (l : loc) (d : gmap string val)
  (key : string) (s : scalar) (path : ParameterPath) :
  h !! l = Some (Dict d) ->
  forall (config : val) (k : string),
    (l, key) ∈ trail h config path ->
    get_nested_param (<[l := Dict (<[key := Scalar s]> d)]> h) config (path ++ [k])
    = raise TypeError.
Proof.
  intros Hl. induction path as [|k0 rest IH]; intros config k Hin;
    [inversion Hin|].
  destruct config as [s0|l0]; [inversion Hin|].
  cbn [trail] in Hin. cbn [app get_nested_param].
  rewrite (getitem_assigned h l d key (Scalar s) l0 k0 Hl).
  destruct (decide ((l0, k0) = (l, key))) as [Heq|Hne].
  - simpl. destruct rest; reflexivity.
  - apply elem_of_cons in Hin as [Heq|Hin]; [congruence|].
    destruct (getitem h (Ref l0) k0) as [e|child]; [inversion Hin|].
    simpl. apply IH. exact Hin.
Qed.

(** C6 (amended).  Let the keys of [pre] lead from the configuration to a
    dictionary.  Then [set] on [pre ++ [key]] returns, whether the
    dictionary has [key] or not, and what it leaves is the heap it found
    with that one entry of that one dictionary assigned: no object is
    created, and no other object and no other entry changes.  A [get] on
    the same path afterwards returns the value written when the walk along
    [pre] did not read the assigned entry, as is the case when the walk
    enters no dictionary twice; and any read whose walk did not read the
    assigned entry returns what it returned before.  If [key] is missing
    from the dictionary, [get] on any path through [pre ++ [key]] raises
    [KeyError key], a lookup error, and so does [set] when [key] is an
    intermediate key of its path: it then assigns nothing. *)
Theorem C6_path_round_trip_and_missing_keys :
  forall (h : heap) (config : val) (pre : ParameterPath) (l : loc)
         (d : gmap string val) (key : string) (v : val),
    get_nested_param h config pre = ok (Ref l) ->
    h !! l = Some (Dict d) ->
    let h' := <[l := Dict (<[key := v]> d)]> h in
    set_nested_param h config (pre ++ [key]) v = ok h' /\
    ((l, key) ∉ trail h config pre ->
     get_nested_param h' config (pre ++ [key]) = ok v) /\
    (NoDup (map fst (trail h config (pre ++ [key]))) ->
     (l, key) ∉ trail h config pre) /\
    (forall q : ParameterPath,
        (l, key) ∉ trail h config q ->
        get_nested_param h' config q = get_nested_param h config q) /\
    (d !! key = None ->
     forall post : ParameterPath,
       get_nested_param h config (pre ++ key :: post) = raise (KeyError key) /\
       is_lookup_error (KeyError key) = true /\
       (post <> [] ->
        set_nested_param h config (pre ++ key :: post) v = raise (KeyError key))).
Proof.
  intros h config pre l d key v Hpre Hl h'. subst h'.
  split; [|split; [|split; [|split]]].
  - rewrite set_nested_param_snoc, Hpre. simpl. rewrite Hl. reflexivity.
  - apply get_nested_param_assigned; assumption.
  - apply trail_NoDup_off, Hpre.
  - intros q. apply get_nested_param_off_trail, Hl.
  - intros Hkey post.
    destruct (heap_missing_key h config pre l d key post v Hpre Hl Hkey) as [Hg Hs].
    auto.
Qed.

(** X7.  Whenever [set] returns, its path is not empty, the keys before the
    last lead to a dictionary, and the heap it leaves is the heap it found
    with the last key of that dictionary assigned.  A [get] on the same path
    then returns the value written, unless the walk to the dictionary read
    the very entry that was assigned: then, for a scalar value, the [get]
    raises [TypeError]. *)
Theorem X7_get_after_set :
  forall (h h' : heap) (config : val) (path : ParameterPath) (v : val),
    set_nested_param h config path v = ok h' ->
    exists (pre : ParameterPath) (key : string) (l : loc) (d : gmap string val),
      path = pre ++ [key] /\
      get_nested_param h config pre = ok (Ref l) /\
      h !! l = Some (Dict d) /\
      h' = <[l := Dict (<[key := v]> d)]> h /\
      ((l, key) ∉ trail h config pre -> get_nested_param h' config path = ok v) /\
      ((l, key) ∈ trail h config pre ->
       forall s, v = Scalar s -> get_nested_param h' config path = raise TypeError).
Proof.
  intros h h' config path v Hset.
  destruct (set_nested_param_returns h h' config path v Hset)
    as (pre & key & l & d & -> & Hpre & Hl & ->).
  exists pre, key, l, d. repeat split; auto.
  - apply get_nested_param_assigned; assumption.
  - intros Hin s ->. apply get_nested_param_through_scalar; assumption.
Qed.

(** X8.  An assignment is made to an entry, not to a path.  When [set]
    returns, every read whose walk does not read the assigned entry returns
    what it returned before; and every path that leads to the dictionary of
    the assigned entry, the path written or another one, reads the value
    written at the assigned key. *)
Theorem X8_set_leaves_other_entries :
  forall (h h' : heap) (config : val) (path : ParameterPath) (v : val),
    set_nested_param h config path v = ok h' ->
    exists (l : loc) (key : string),
      last path = Some key /\
      get_nested_param h config (removelast path) = ok (Ref l) /\
      (forall q : ParameterPath,
          (l, key) ∉ trail h config q ->
          get_nested_param h' config q = get_nested_param h config q) /\
      (forall q : ParameterPath,
          get_nested_param h config q = ok (Ref l) ->
          (l, key) ∉ trail h config q ->
          get_nested_param h' config (q ++ [key]) = ok v).
Proof.
  intros h h' config path v Hset.
  destruct (set_nested_param_returns h h' config path v Hset)
    as (pre & key & l & d & -> & Hpre & Hl & ->).
  exists l, key. rewrite last_snoc, removelast_last.
  repeat split; auto.
  - intros q. apply get_nested_param_off_trail, Hl.
  - intros q Hq Hoff. apply get_nested_param_assigned; assumption.
Qed.

End PathAddressing.

(** The configuration of the specification's round-trip example,
    [{"x": {"y": {"z": 0}}}], as three objects. *)
Definition xyz_heap : gmap nat Store.obj :=
  {[ 0%nat := Store.Dict {[ "x" := Store.Ref 1%nat ]};
     1%nat := Store.Dict {[ "y" := Store.Ref 2%nat ]};
     2%nat := Store.Dict {[ "z" := Store.Scalar (SInt 0) ]} ]}.

(** [{"x": {}}] *)
Definition x_heap : gmap nat Store.obj :=
  {[ 0%nat := Store.Dict {[ "x" := Store.Ref 1%nat ]};
     1%nat := Store.Dict ∅ ]}.

(** A configuration that contains itself: [config["self"] is config]. *)
Definition self_heap : gmap nat Store.obj :=
  {[ 0%nat := Store.Dict {[ "self" := Store.Ref 0%nat;
                            "v" := Store.Scalar (SInt 1) ]} ]}.

(** One dictionary under two keys: [d = {"v": 1}; config = {"a": d, "b": d}]. *)
Definition shared_heap : gmap nat Store.obj :=
  {[ 0%nat := Store.Dict {[ "a" := Store.Ref 1%nat; "b" := Store.Ref 1%nat ]};
     1%nat := Store.Dict {[ "v" := Store.Scalar (SInt 1) ]} ]}.

(** The base configuration [{"g": {"v": 1}}] as two objects. *)
Definition gv_heap : gmap nat Store.obj :=
  {[ 0%nat := Store.Dict {[ "g" := Store.Ref 1%nat ]};
     1%nat := Store.Dict {[ "v" := Store.Scalar (SInt 1) ]} ]}.

Section PathAddressingExamples.
Import Store.

(** C6, as stated, fails: in [{"x": {}}] the path [["x"; "y"]] has a missing
    key, [get] raises [KeyError], yet [set] succeeds and adds the key. *)
Lemma C6_set_creates_missing_final_key :
  get_nested_param x_heap (Ref 0%nat) ["x"; "y"] = raise (KeyError "y") /\
  set_nested_param x_heap (Ref 0%nat) ["x"; "y"] (Scalar (SInt 42)) =
    ok (<[1%nat := Dict {[ "y" := Scalar (SInt 42) ]}]> x_heap).
Proof. split; vm_compute; reflexivity. Qed.

(** The round trip also fails when the walk reads the entry that is
    assigned: in a configuration that contains itself,
    [set(cfg, ["self"; "self"], 42)] returns, and the [get] on the same path
    then subscripts 42. *)
Lemma round_trip_fails_through_the_assigned_entry :
  set_nested_param self_heap (Ref 0%nat) ["self"; "self"] (Scalar (SInt 42)) =
    ok (<[0%nat := Dict {[ "self" := Scalar (SInt 42);
                           "v" := Scalar (SInt 1) ]}]> self_heap) /\
  get_nested_param
    (<[0%nat := Dict {[ "self" := Scalar (SInt 42); "v" := Scalar (SInt 1) ]}]>
       self_heap)
    (Ref 0%nat) ["self"; "self"] = raise TypeError.
Proof. split; vm_compute; reflexivity. Qed.

(** The round trip of the specification: [set(cfg, ["x","y","z"], 42)], then
    [get(cfg, ["x","y","z"])] is 42, and [cfg["x"]] is the object it was.
    And in [{"x": {}}], where ["y"] is missing: [get] through ["x"; "y"]
    raises [KeyError], and so does [set] when the path goes on below. *)
Lemma C6_round_trip_xyz :
  let h42 :=
    <[2%nat := Dict (<["z" := Scalar (SInt 42)]> {[ "z" := Scalar (SInt 0) ]})]>
      xyz_heap in
  set_nested_param xyz_heap (Ref 0%nat) ["x"; "y"; "z"] (Scalar (SInt 42))
    = ok h42 /\
  get_nested_param h42 (Ref 0%nat) ["x"; "y"; "z"] = ok (Scalar (SInt 42)) /\
  get_nested_param h42 (Ref 0%nat) ["x"]
    = get_nested_param xyz_heap (Ref 0%nat) ["x"] /\
  forall post : ParameterPath,
    get_nested_param x_heap (Ref 0%nat) (["x"] ++ "y" :: post)
      = raise (KeyError "y") /\
    is_lookup_error (KeyError "y") = true /\
    (post <> [] ->
     set_nested_param x_heap (Ref 0%nat) (["x"] ++ "y" :: post) (Scalar (SInt 42))
       = raise (KeyError "y")).
Proof.
  intros h42.
  destruct (C6_path_round_trip_and_missing_keys xyz_heap (Ref 0%nat) ["x"; "y"]
              2%nat {[ "z" := Scalar (SInt 0) ]} "z" (Scalar (SInt 42))
              eq_refl eq_refl) as (Hset & Hget & Hnd & Hframe & _).
  destruct (C6_path_round_trip_and_missing_keys x_heap (Ref 0%nat) ["x"]
              1%nat ∅ "y" (Scalar (SInt 42)) eq_refl eq_refl)
    as (_ & _ & _ & _ & Hmissing).
  split; [exact Hset|]. split; [|split].
  - apply Hget, Hnd. apply (bool_decide_unpack _). vm_compute. exact I.
  - apply Hframe. apply (bool_decide_unpack _). vm_compute. exact I.
  - exact (Hmissing eq_refl).
Defined.

Lemma X7_get_after_set_self :
  let h' :=
    <[0%nat := Dict (<["self" := Scalar (SInt 42)]>
                       {[ "self" := Ref 0%nat; "v" := Scalar (SInt 1) ]})]>
      self_heap in
  set_nested_param self_heap (Ref 0%nat) ["self"; "self"] (Scalar (SInt 42))
    = ok h' /\
  exists (pre : ParameterPath) (key : string) (l : nat) (d : gmap string val),
    ["self"; "self"] = pre ++ [key] /\
    get_nested_param self_heap (Ref 0%nat) pre = ok (Ref l) /\
    self_heap !! l = Some (Dict d) /\
    h' = <[l := Dict (<[key := Scalar (SInt 42)]> d)]> self_heap /\
    ((l, key) ∉ trail self_heap (Ref 0%nat) pre ->
     get_nested_param h' (Ref 0%nat) ["self"; "self"] = ok (Scalar (SInt 42))) /\
    ((l, key) ∈ trail self_heap (Ref 0%nat) pre ->
     forall s, Scalar (SInt 42) = Scalar s ->
               get_nested_param h' (Ref 0%nat) ["self"; "self"] = raise TypeError).
Proof.
  intros h'. split; [vm_compute; reflexivity|].
  apply (X7_get_after_set self_heap h' (Ref 0%nat) ["self"; "self"]
           (Scalar (SInt 42))).
  vm_compute. reflexivity.
Defined.

(** With one dictionary under two keys, the value assigned through ["a"]
    is read through ["b"]. *)
Lemma assignment_is_seen_through_the_other_key :
  rbind (set_nested_param shared_heap (Ref 0%nat) ["a"; "v"] (Scalar (SInt 42)))
    (fun h' => get_nested_param h' (Ref 0%nat) ["b"; "v"])
  = ok (Scalar (SInt 42)).
Proof. vm_compute. reflexivity. Qed.

Lemma X8_set_leaves_other_entries_shared :
  let h' :=
    <[1%nat := Dict (<["v" := Scalar (SInt 42)]> {[ "v" := Scalar (SInt 1) ]})]>
      shared_heap in
  set_nested_param shared_heap (Ref 0%nat) ["a"; "v"] (Scalar (SInt 42)) = ok h' /\
  exists (l : nat) (key : string),
    last ["a"; "v"] = Some key /\
    get_nested_param shared_heap (Ref 0%nat) (removelast ["a"; "v"]) = ok (Ref l) /\
    (forall q : ParameterPath,
        (l, key) ∉ trail shared_heap (Ref 0%nat) q ->
        get_nested_param h' (Ref 0%nat) q
        = get_nested_param shared_heap (Ref 0%nat) q) /\
    (forall q : ParameterPath,
        get_nested_param shared_heap (Ref 0%nat) q = ok (Ref l) ->
        (l, key) ∉ trail shared_heap (Ref 0%nat) q ->
        get_nested_param h' (Ref 0%nat) (q ++ [key]) = ok (Scalar (SInt 42))).
Proof.
  intros h'. split; [vm_compute; reflexivity|].
  apply (X8_set_leaves_other_entries shared_heap h' (Ref 0%nat) ["a"; "v"]
           (Scalar (SInt 42))).
  vm_compute. reflexivity.
Defined.

End PathAddressingExamples.

(** ** The engine's call log *)

Section EngineFacts.
Import Engine.
Context {W : Type}.

(** [m] logs the calls [calls], in this order, and nothing else: whatever the
    outcome, what it appends to the log is a prefix of [calls], and all of
    [calls] when it returns normally. *)
Definition emits (m : M (W := W) unit) (calls : list call) : Prop :=
  forall (w : W) (log : list call),
  exists done : list call,
    snd (fst (m (w, log))) = log ++ done /\
    done `prefix_of` calls /\
    (snd (m (w, log)) = ok tt -> done = calls).

Lemma emits_ret : emits (ret tt) [].
Proof.
  intros w log. exists []. simpl. rewrite app_nil_r. repeat split; auto.
Qed.

Lemma emits_quiet (f : W -> W) : emits (quiet f) [].
Proof.
  intros w log. exists []. simpl. rewrite app_nil_r. repeat split; auto.
Qed.

Lemma emits_invoke (c : call) (body : method W) : emits (invoke c body) [c].
Proof.
  intros w log. exists [c]. unfold invoke. destruct (body w) as [w' r].
  simpl. repeat split; auto.
Qed.

Lemma emits_bind (m : M unit) (k : unit -> M unit) (l1 l2 : list call) :
  emits m l1 -> (forall u, emits (k u) l2) -> emits (bind m k) (l1 ++ l2).
Proof.
  intros Hm Hk w log. destruct (Hm w log) as (d1 & Hlog & Hpre & Hok).
  unfold bind. destruct (m (w, log)) as [[w1 log1] [e|u]] eqn:Em; simpl in *.
  - exists d1. subst log1. repeat split; try discriminate.
    now apply prefix_app_r.
  - destruct u. specialize (Hok eq_refl). subst d1 log1.
    destruct (Hk tt w1 (log ++ l1)) as (d2 & Hlog2 & Hpre2 & Hok2).
    exists (l1 ++ d2). rewrite Hlog2, app_assoc. repeat split.
    + now apply prefix_app.
    + intros Hr. now rewrite (Hok2 Hr).
Qed.

Lemma emits_for_each {A : Type} (body : A -> M unit) (calls : A -> list call)
  (xs : list A) :
  (forall x, emits (body x) (calls x)) ->
  emits (for_each xs body) (flat_map calls xs).
Proof.
  intros Hbody. induction xs as [|x xs IH]; simpl.
  - apply emits_ret.
  - apply emits_bind; [apply Hbody | intros _; exact IH].
Qed.

Lemma flat_map_singleton {A B : Type} (f : A -> B) (xs : list A) :
  flat_map (fun x => [f x]) xs = map f xs.
Proof. induction xs; simpl; congruence. Qed.

Lemma emits_initialize (e : SimulationEngine W) :
  emits (_initialize_components e) (map Initialize (registry e)).
Proof.
  unfold _initialize_components. unfold registry at 2. rewrite map_map.
  rewrite <- (flat_map_singleton (fun c => Initialize (name c))).
  apply emits_for_each. intros c. apply emits_invoke.
Qed.

Lemma emits_simulation_loop (e : SimulationEngine W) (progress : option (Z -> W -> W)) :
  emits (_run_simulation_loop e progress)
    (flat_map (fun year => map (fun n => Step n year) (registry e))
       (range (start_year e) (end_year e + 1))).
Proof.
  unfold _run_simulation_loop. apply emits_for_each. intros year.
  rewrite <- (app_nil_r (map _ _)). apply emits_bind.
  - unfold registry. rewrite map_map.
    rewrite <- (flat_map_singleton (fun c => Step (name c) year)).
    apply emits_for_each. intros c. apply emits_invoke.
  - intros _. destruct progress; [apply emits_quiet | apply emits_ret].
Qed.

Lemma emits_finalize (analytics : W -> W) (e : SimulationEngine W) :
  emits (_finalize_components analytics e) (map Finalize (registry e)).
Proof.
  unfold _finalize_components. rewrite <- (app_nil_r (map _ _)). apply emits_bind.
  - unfold registry. rewrite map_map.
    rewrite <- (flat_map_singleton (fun c => Finalize (name c))).
    apply emits_for_each. intros c. apply emits_invoke.
  - intros _. apply emits_quiet.
Qed.

Lemma emits_run (analytics : W -> W) (e : SimulationEngine W)
  (progress : option (Z -> W -> W)) :
  emits (run analytics e progress) (lifecycle_calls e).
Proof.
  unfold run, lifecycle_calls. apply emits_bind; [apply emits_initialize|].
  intros _. apply emits_bind; [apply emits_simulation_loop|].
  intros _. apply emits_finalize.
Qed.

(** Methods that return normally from every state. *)
Definition never_raises (body : method W) : Prop :=
  forall w : W, snd (body w) = ok tt.

Definition well_behaved (c : SimulationComponent W) : Prop :=
  (forall reg, never_raises (initialize c reg)) /\
  (forall year, never_raises (step c year)) /\
  never_raises (finalize c).

Definition succeeds (m : M (W := W) unit) : Prop :=
  forall s, snd (m s) = ok tt.

Lemma succeeds_bind (m : M unit) (k : unit -> M unit) :
  succeeds m -> (forall u, succeeds (k u)) -> succeeds (bind m k).
Proof.
  intros Hm Hk s. unfold bind. specialize (Hm s).
  destruct (m s) as [s1 [e|u]]; simpl in *; [discriminate | apply Hk].
Qed.

Lemma succeeds_for_each {A : Type} (body : A -> M unit) (xs : list A) :
  Forall (fun x => succeeds (body x)) xs -> succeeds (for_each xs body).
Proof.
  induction 1 as [|x xs Hx _ IH]; simpl.
  - intros s. reflexivity.
  - apply succeeds_bind; [exact Hx | intros _; exact IH].
Qed.

Lemma succeeds_invoke (c : call) (body : method W) :
  never_raises body -> succeeds (invoke c body).
Proof.
  intros Hb [w log]. unfold invoke. specialize (Hb w).
  destruct (body w) as [w' r]. exact Hb.
Qed.

Lemma succeeds_quiet (f : W -> W) : succeeds (quiet f).
Proof. intros [w log]. reflexivity. Qed.

Lemma succeeds_run (analytics : W -> W) (e : SimulationEngine W)
  (progress : option (Z -> W -> W)) :
  Forall well_behaved (components e) -> succeeds (run analytics e progress).
Proof.
  intros Hwb. unfold run.
  apply succeeds_bind; [|intros _; apply succeeds_bind; [|intros _]].
  - apply succeeds_for_each. eapply Forall_impl; [exact Hwb|].
    intros c (Hi & _ & _). simpl. apply succeeds_invoke, Hi.
  - apply succeeds_for_each. apply Forall_forall. intros year _.
    apply succeeds_bind.
    + apply succeeds_for_each. eapply Forall_impl; [exact Hwb|].
      intros c (_ & Hs & _). simpl. apply succeeds_invoke, Hs.
    + intros _. destruct progress; [apply succeeds_quiet | intros s; reflexivity].
  - unfold _finalize_components. apply succeeds_bind.
    + apply succeeds_for_each. eapply Forall_impl; [exact Hwb|].
      intros c (_ & _ & Hf). simpl. apply succeeds_invoke, Hf.
    + intros _. apply succeeds_quiet.
Qed.

(** The years of [range(start, end + 1)] are [start], ..., [end]. *)
Lemma range_inclusive (lo hi : Z) (i : nat) :
  (lo <= hi)%Z ->
  range lo (hi + 1) !! i =
  if decide (Z.of_nat i <= hi - lo)%Z then Some (lo + Z.of_nat i)%Z else None.
Proof.
  intros Hle. unfold range. rewrite list_lookup_fmap.
  destruct (decide (Z.of_nat i <= hi - lo)%Z) as [Hi|Hi].
  - rewrite lookup_seq_lt by lia. reflexivity.
  - rewrite lookup_seq_ge by lia. reflexivity.
Qed.

End EngineFacts.

Section EngineFailures.
Import Engine.
Context {W : Type}.

Lemma for_each_app {S A : Type} (xs ys : list A) (body : A -> SE S unit) (s : S) :
  for_each (xs ++ ys) body s = bind (for_each xs body) (fun _ => for_each ys body) s.
Proof.
  revert s. induction xs as [|x xs IH]; intros s; simpl.
  - reflexivity.
  - unfold bind. destruct (body x s) as [s1 [e|u]]; [reflexivity|].
    rewrite IH. reflexivity.
Qed.

(** The log of a loop of calls that returned normally. *)
Lemma for_each_invoke_ok (ev : SimulationComponent W -> call)
  (body : SimulationComponent W -> method W) (cs : list (SimulationComponent W))
  (w w' : W) (log log' : list call) :
  for_each cs (fun c => invoke (ev c) (body c)) (w, log) = ((w', log'), ok tt) ->
  log' = log ++ map ev cs.
Proof.
  intros Hrun.
  assert (Hem : emits (for_each cs (fun c => invoke (ev c) (body c)))
                  (flat_map (fun c => [ev c]) cs))
    by (apply emits_for_each; intros c; apply emits_invoke).
  destruct (Hem w log) as (done & Hlog & _ & Hok).
  rewrite Hrun in Hlog, Hok. simpl in Hlog, Hok.
  rewrite (Hok eq_refl), flat_map_singleton in Hlog. exact Hlog.
Qed.

(** A loop of calls stops at the first call that raises. *)
Lemma for_each_invoke_raises (ev : SimulationComponent W -> call)
  (body : SimulationComponent W -> method W)
  (pre post : list (SimulationComponent W)) (c : SimulationComponent W)
  (w w1 w2 : W) (log log1 : list call) (e : exn) :
  for_each pre (fun c => invoke (ev c) (body c)) (w, log) = ((w1, log1), ok tt) ->
  body c w1 = (w2, raise e) ->
  for_each (pre ++ c :: post) (fun c => invoke (ev c) (body c)) (w, log) =
  ((w2, log ++ map ev pre ++ [ev c]), raise e).
Proof.
  intros Hpre Hc. rewrite for_each_app. unfold bind at 1. rewrite Hpre.
  simpl. unfold bind, invoke. rewrite Hc.
  rewrite (for_each_invoke_ok _ _ _ _ _ _ _ Hpre), app_assoc. reflexivity.
Qed.

End EngineFailures.

(** Components for the examples; their world is a counter of the method
    bodies that ran. *)
Definition counting (n : string) : Engine.SimulationComponent nat :=
  {| Engine.name := n;
     Engine.initialize := fun _ w => (S w, ok tt);
     Engine.step := fun _ w => (S w, ok tt);
     Engine.finalize := fun w => (S w, ok tt) |}.

Definition failing_finalize (n : string) : Engine.SimulationComponent nat :=
  {| Engine.name := n;
     Engine.initialize := fun _ w => (S w, ok tt);
     Engine.step := fun _ w => (S w, ok tt);
     Engine.finalize := fun w => (w, raise (RuntimeError "finalize failed")) |}.

(** The engine of [main.py], reduced to two components and two years. *)
Definition engine_AB : Engine.SimulationEngine nat :=
  Engine.add_component
    (Engine.add_component (Engine.new 2025 2026) (counting "A")) (counting "B").

Definition engine_failing_A_then_B : Engine.SimulationEngine nat :=
  Engine.add_component
    (Engine.add_component (Engine.new 2025 2025) (failing_finalize "A"))
    (counting "B").

Section Lifecycle.
Import Engine.

(** C3.  The calls [run] makes are a prefix of: [initialize] on every
    component in registration order, then for each year from [start_year] to
    [end_year] [step] on every component in registration order, then
    [finalize] on every component in registration order; they are all of these
    calls when [run] returns normally, and [run] returns normally when no
    method of a registered component raises. *)
Theorem C3_run_call_sequence :
  forall (W : Type) (analytics : W -> W) (e : SimulationEngine W)
         (progress : option (Z -> W -> W)) (w : W),
    (start_year e <= end_year e)%Z ->
    let out := run analytics e progress (w, []) in
    snd (fst out) `prefix_of` lifecycle_calls e /\
    (snd out = ok tt -> snd (fst out) = lifecycle_calls e) /\
    (Forall well_behaved (components e) ->
     snd out = ok tt /\ snd (fst out) = lifecycle_calls e) /\
    (forall i : nat,
        range (start_year e) (end_year e + 1) !! i =
        if decide (Z.of_nat i <= end_year e - start_year e)%Z
        then Some (start_year e + Z.of_nat i)%Z else None).
Proof.
  intros W analytics e progress w Hyears out.
  destruct (emits_run analytics e progress w []) as (done & Hlog & Hpre & Hok).
  fold out in Hlog, Hok. simpl in Hlog. rewrite Hlog.
  repeat split; auto.
  - apply succeeds_run; assumption.
  - apply Hok. apply succeeds_run; assumption.
  - intros i. apply range_inclusive; assumption.
Qed.

(** The two-component, two-year run of the specification's first testable
    property. *)
Lemma C3_run_call_sequence_AB :
  (2025 <= 2026)%Z /\
  snd (fst (run (fun w => w) engine_AB None (0%nat, []))) =
  [Initialize "A"; Initialize "B";
   Step "A" 2025; Step "B" 2025; Step "A" 2026; Step "B" 2026;
   Finalize "A"; Finalize "B"].
Proof.
  split; [lia|].
  destruct (C3_run_call_sequence nat (fun w => w) engine_AB None 0%nat)
    as (_ & Hok & _); [simpl; lia|].
  rewrite Hok; reflexivity.
Defined.

(** C4, as stated, fails: with components [A; B] where [A.finalize] raises,
    [B.finalize] is never called. *)
Lemma C4_finalize_of_later_component_skipped :
  run (fun w => w) engine_failing_A_then_B None (0%nat, []) =
  ((4%nat, [Initialize "A"; Initialize "B"; Step "A" 2025; Step "B" 2025;
            Finalize "A"]),
   raise (RuntimeError "finalize failed")).
Proof. reflexivity. Qed.

(** C4 (amended).  When the initialize and step phases completed and the
    [finalize] of a component raises, after the [finalize] of the components
    registered before it returned, [run] raises that exception at once: the
    [finalize] calls made are those of the components up to this one, in
    registration order, and no component registered after it is finalized. *)
Theorem C4_finalize_failure_aborts_at_once :
  forall (W : Type) (analytics : W -> W) (first_year last_year : Z)
         (pre post : list (SimulationComponent W)) (c : SimulationComponent W)
         (progress : option (Z -> W -> W))
         (w0 w w1 w2 : W) (log0 log log1 : list call) (e : exn),
    let eng := {| start_year := first_year; end_year := last_year;
                  components := pre ++ c :: post |} in
    _initialize_components eng (w0, []) = ((w, log0), ok tt) ->
    _run_simulation_loop eng progress (w, log0) = ((w1, log), ok tt) ->
    for_each pre (fun c => invoke (Finalize (name c)) (finalize c)) (w1, log)
      = ((w2, log1), ok tt) ->
    snd (finalize c w2) = raise e ->
    run analytics eng progress (w0, []) =
    ((fst (finalize c w2),
      log ++ map Finalize (map name pre) ++ [Finalize (name c)]),
     raise e).
Proof.
  intros W analytics first_year last_year pre post c progress
    w0 w w1 w2 log0 log log1 e eng Hinit Hloop Hpre Hc.
  unfold run, bind at 1. rewrite Hinit. unfold bind at 1. rewrite Hloop.
  unfold _finalize_components, bind at 1. simpl components.
  destruct (finalize c w2) as [w3 r] eqn:Hfin. simpl in Hc. subst r.
  rewrite (for_each_invoke_raises
             (fun c => Finalize (name c)) finalize pre post c
             w1 w2 w3 log log1 e Hpre Hfin).
  rewrite map_map. reflexivity.
Qed.

(** The failing run above, as an instance: [pre] is empty, [c] is [A] and
    [post] is [[B]]. *)
Lemma C4_finalize_failure_aborts_at_once_AB :
  run (fun w => w) engine_failing_A_then_B None (0%nat, []) =
  ((4%nat, [Initialize "A"; Initialize "B"; Step "A" 2025; Step "B" 2025]
           ++ [] ++ [Finalize "A"]),
   raise (RuntimeError "finalize failed")).
Proof.
  apply (C4_finalize_failure_aborts_at_once nat (fun w => w) 2025 2025
           [] [counting "B"] (failing_finalize "A") None
           0%nat 2%nat 4%nat 4%nat
           [Initialize "A"; Initialize "B"]
           [Initialize "A"; Initialize "B"; Step "A" 2025; Step "B" 2025]
           [Initialize "A"; Initialize "B"; Step "A" 2025; Step "B" 2025]
           (RuntimeError "finalize failed"));
    reflexivity.
Defined.

End Lifecycle.

(** ** The by-name lookup of [GridIntegration.initialize] *)

Section SiblingLookup.
Import Engine.

Lemma find_dependency_Some (registry : list string) :
  In GridIntegration.dependency registry ->
  exists i : nat,
    GridIntegration.find_dependency registry = Some (i, GridIntegration.dependency) /\
    registry !! i = Some GridIntegration.dependency /\
    (forall j : nat, (j < i)%nat -> registry !! j <> Some GridIntegration.dependency).
Proof.
  intros Hin. unfold GridIntegration.find_dependency.
  destruct (list_find (String.eqb GridIntegration.dependency) registry)
    as [[i x]|] eqn:Hfind.
  - apply list_find_Some in Hfind as (Hi & Hx & Hfirst).
    apply Is_true_true, String.eqb_eq in Hx. subst x.
    exists i. repeat split; auto.
    intros j Hj Hlook. apply (Hfirst j _ Hlook Hj).
    apply Is_true_true, String.eqb_eq. reflexivity.
  - apply list_find_None in Hfind. rewrite Forall_forall in Hfind.
    exfalso. apply (Hfind GridIntegration.dependency).
    + apply list_elem_of_In. exact Hin.
    + apply Is_true_true, String.eqb_eq. reflexivity.
Qed.

Lemma find_dependency_None (registry : list string) :
  ~ In GridIntegration.dependency registry ->
  GridIntegration.find_dependency registry = None.
Proof.
  intros Hnot. unfold GridIntegration.find_dependency.
  apply list_find_None, Forall_forall. intros x Hx Heq.
  apply Is_true_true, String.eqb_eq in Heq. subst x.
  apply Hnot, list_elem_of_In, Hx.
Qed.

End SiblingLookup.





Section DependencyResolution.
Import Engine.




End DependencyResolution.

(** ** Sampling *)

(** A generator for the examples: every draw returns the location of its
    distribution ([mean], [low], [mode], the first candidate) and counts the
    draws made. *)
Definition as_float (v : value) : result Q :=
  match v with
  | VScalar (SInt z) => ok (inject_Z z)
  | VScalar (SFloat q) => ok q
  | VScalar (SBool b) => ok (if b then 1%Q else 0%Q)
  | _ => raise TypeError
  end.

Definition first_candidate (v : value) : result scalar :=
  match v with
  | VList (VScalar s :: _) => ok s
  | _ => raise (ValueError "a must be 1-dimensional")
  end.

Definition degenerate : numpy_random nat :=
  {| normal := fun loc _ g => (S g, as_float loc);
     uniform := fun low _ g => (S g, as_float low);
     triangular := fun _ mode _ g => (S g, as_float mode);
     choice := fun values _ g => (S g, first_candidate values) |}.

Definition known_kind (kind : string) : bool :=
  String.eqb kind "normal" || String.eqb kind "uniform"
  || String.eqb kind "triangular" || String.eqb kind "discrete".

Section Sampling.
Import Distribution.

(** C8, as stated, fails: a normal distribution with no parameters at all is
    sampled with the defaults [mean = 0] and [std = 1]; nothing is raised. *)
Lemma C8_missing_parameters_are_defaulted :
  sample degenerate
    {| param_path := ["g"; "v"]; distribution := "normal"; params := ∅ |} 0%nat
  = bind (normal degenerate (VScalar (SInt 0)) (VScalar (SInt 1)))
      (fun x => ret (SFloat x)) 0%nat /\
  sample degenerate
    {| param_path := ["g"; "v"]; distribution := "normal"; params := ∅ |} 0%nat
  = (1%nat, ok (SFloat 0)).
Proof. split; reflexivity. Qed.

(** C8 (amended).  [sample] raises [ValueError] when the kind is none of
    normal, uniform, triangular and discrete, and when the kind is discrete and
    [values] is missing or empty; no draw is made then.  For the other three
    kinds the draw is made with each parameter that is missing replaced by its
    default: mean 0, std 1, low 0, high 1, mode 0.5. *)
Theorem C8_sample_errors_and_defaults :
  forall (G : Type) (np : numpy_random G) (d : ParameterDistribution) (g : G),
    (forall key default, params d !! key = None -> param d key default = default)
    /\
    (known_kind (distribution d) = false ->
     sample np d g =
     (g, raise (ValueError ("Unknown distribution: " ++ distribution d)%string)))
    /\ (distribution d = "discrete" ->
        truthy (param d "values" (VList [])) = false ->
        sample np d g =
        (g, raise (ValueError "Discrete distribution must specify 'values'")))
    /\ (distribution d = "discrete" ->
        truthy (param d "values" (VList [])) = true ->
        sample np d g =
        choice np (param d "values" (VList []))
          (param d "probabilities" (VScalar SNone)) g)
    /\ (distribution d = "normal" ->
        sample np d g =
        bind (normal np (param d "mean" (int 0)) (param d "std" (int 1)))
          (fun x => ret (SFloat x)) g)
    /\ (distribution d = "uniform" ->
        sample np d g =
        bind (uniform np (param d "low" (int 0)) (param d "high" (int 1)))
          (fun x => ret (SFloat x)) g)
    /\ (distribution d = "triangular" ->
        sample np d g =
        bind (triangular np (param d "low" (int 0)) (param d "mode" half)
                (param d "high" (int 1)))
          (fun x => ret (SFloat x)) g).
Proof.
  intros G np d g. unfold sample, known_kind.
  repeat split.
  - intros key default Hkey. unfold param. rewrite Hkey. reflexivity.
  - intros Hkind.
    destruct (String.eqb (distribution d) "normal"); [discriminate|].
    destruct (String.eqb (distribution d) "uniform"); [discriminate|].
    destruct (String.eqb (distribution d) "triangular"); [discriminate|].
    destruct (String.eqb (distribution d) "discrete"); [discriminate|].
    reflexivity.
  - intros -> Hvalues. simpl. rewrite Hvalues. reflexivity.
  - intros -> Hvalues. simpl. rewrite Hvalues. reflexivity.
  - intros ->. reflexivity.
  - intros ->. reflexivity.
  - intros ->. reflexivity.
Qed.

(** An unknown kind and a discrete distribution without candidates. *)
Lemma C8_sample_errors_examples :
  sample degenerate
    {| param_path := ["g"; "v"]; distribution := "lognormal"; params := ∅ |} 0%nat
  = (0%nat, raise (ValueError "Unknown distribution: lognormal")) /\
  sample degenerate
    {| param_path := ["g"; "v"]; distribution := "discrete";
       params := {[ "probabilities" := VList [VScalar (SFloat 1)] ]} |} 0%nat
  = (0%nat, raise (ValueError "Discrete distribution must specify 'values'")).
Proof.
  split.
  - apply (C8_sample_errors_and_defaults nat degenerate
             {| param_path := ["g"; "v"]; distribution := "lognormal"; params := ∅ |}
             0%nat).
    reflexivity.
  - apply (C8_sample_errors_and_defaults nat degenerate
             {| param_path := ["g"; "v"]; distribution := "discrete";
                params := {[ "probabilities" := VList [VScalar (SFloat 1)] ]} |}
             0%nat); reflexivity.
Defined.

End Sampling.

(** ** The Monte Carlo loop *)

Section RunFacts.
Import MonteCarlo.
Context {G X Stats : Type}.
Context (np : numpy_random G) (describe : list scalar -> result Stats).
Context (write_file : @MonteCarlo.artifact Stats -> SE X unit).

#[local] Abbreviation state := (@MonteCarlo.state G X Stats).
#[local] Abbreviation EngineFactory := (@MonteCarlo.EngineFactory X).
#[local] Abbreviation artifact := (@MonteCarlo.artifact Stats).

(** What the [try] block of one iteration asks of the factory and of the
    engine it returns: build, [run()], [get_all_results()]. *)
Definition attempt (create_engine_func : EngineFactory) (iter_config : value)
  : SE X ResultsDict :=
  do! engine <- create_engine_func iter_config;
  run! engine_run engine;
  engine_get_all_results engine.

(** One iteration whose sampling and configuration update succeed never
    raises: it records the samples, then either records a result or logs the
    exception of the [try] block. *)
Lemma iteration_spec (mc : MonteCarloSimulation) (f : EngineFactory) (i : nat)
  (s : state) (g' : G) (samples : SampledParams) (cfg : value) :
  _sample_parameters np mc (rng s) = (g', ok samples) ->
  _apply_samples mc (base_config mc) samples = ok cfg ->
  let s1 := with_parameter_samples (fun l => l ++ [samples]) (with_rng g' s) in
  run_iteration np mc f i s =
  match attempt f cfg (ext s) with
  | (x', inr engine_results) =>
      (progress_update
         (with_results
            (fun l => l ++ [{| iteration := i; parameters := samples;
                               results := engine_results |}])
            (with_ext x' s1)),
       ok tt)
  | (x', inl e) =>
      (progress_update (log (Error_in_iteration i e) (with_ext x' s1)), ok tt)
  end.
Proof.
  intros Hsample Happly s1.
  unfold run_iteration, attempt, bind, on_rng, modify, lift, try_except, on_ext.
  rewrite Hsample. simpl. rewrite Happly. simpl.
  destruct (f cfg (ext s)) as [x1 [e|engine]]; cbn; [reflexivity|].
  destruct (engine_run engine x1) as [x2 [e|[]]]; cbn; [reflexivity|].
  destruct (engine_get_all_results engine x2) as [x3 [e|res]]; reflexivity.
Qed.

(** The experiment is well configured: whatever the generator state, every
    distribution can be sampled and every sampled value can be written at its
    path of the base configuration. *)
Definition samplable (mc : MonteCarloSimulation) : Prop :=
  forall g : G,
  exists (g' : G) (samples : SampledParams) (cfg : value),
    _sample_parameters np mc g = (g', ok samples) /\
    _apply_samples mc (base_config mc) samples = ok cfg.

(** A recorded result comes from an iteration whose [try] block returned. *)
Definition recorded_by (mc : MonteCarloSimulation) (f : EngineFactory)
  (r : SimulationResult) : Prop :=
  exists (g g' : G) (cfg : value) (x x' : X),
    _sample_parameters np mc g = (g', ok (parameters r)) /\
    _apply_samples mc (base_config mc) (parameters r) = ok cfg /\
    attempt f cfg x = (x', ok (results r)).

(** An error record comes from an iteration whose [try] block raised. *)
Definition failure_logged (mc : MonteCarloSimulation) (f : EngineFactory)
  (rec : log_record) : Prop :=
  exists (i : nat) (e : exn) (g g' : G) (samples : SampledParams) (cfg : value)
         (x x' : X),
    rec = Error_in_iteration i e /\
    _sample_parameters np mc g = (g', ok samples) /\
    _apply_samples mc (base_config mc) samples = ok cfg /\
    attempt f cfg x = (x', raise e).

(** A sample set that [_sample_parameters] returned. *)
Definition drawn (mc : MonteCarloSimulation) (samples : SampledParams) : Prop :=
  exists g g' : G, _sample_parameters np mc g = (g', ok samples).

(** The iterations of the error records of a log. *)
Definition errors (l : list (@log_record)) : list nat :=
  flat_map (fun rec => match rec with
                       | Error_in_iteration i _ => [i]
                       | _ => []
                       end) l.

Lemma errors_app (l1 l2 : list log_record) :
  errors (l1 ++ l2) = errors l1 ++ errors l2.
Proof. unfold errors. apply flat_map_app. Qed.

Lemma loop_spec (mc : MonteCarloSimulation) (f : EngineFactory) :
  samplable mc ->
  forall (n a : nat) (s : state),
  length (self_parameter_samples s) = a ->
  exists (s' : state) (new_results : list SimulationResult)
         (new_log : list log_record),
    for_each (seq a n) (run_iteration np mc f) s = (s', ok tt) /\
    Forall (fun r => self_parameter_samples s' !! iteration r = Some (parameters r))
      new_results /\
    self_results s' = self_results s ++ new_results /\
    logged s' = logged s ++ new_log /\
    (exists new_samples : list SampledParams,
        self_parameter_samples s' = self_parameter_samples s ++ new_samples /\
        length new_samples = n /\
        Forall (drawn mc) new_samples) /\
    saved s' = saved s /\
    progress_closed s' = progress_closed s /\
    progress_updates s' = (progress_updates s + n)%nat /\
    Forall (recorded_by mc f) new_results /\
    Forall (failure_logged mc f) new_log /\
    map iteration new_results `sublist_of` seq a n /\
    Permutation (map iteration new_results ++ errors new_log) (seq a n).
Proof.
  intros Hmc n. induction n as [|n IH]; intros a s Ha.
  - exists s, [], []. simpl. rewrite !app_nil_r, Nat.add_0_r.
    repeat split; auto; try constructor.
    exists []. rewrite app_nil_r. repeat split; auto.
  - destruct (Hmc (rng s)) as (g' & samples & cfg & Hsample & Happly).
    change (seq a (S n)) with (a :: seq (S a) n).
    cbn [for_each]. unfold bind at 1.
    rewrite (iteration_spec mc f a s g' samples cfg Hsample Happly).
    destruct (attempt f cfg (ext s)) as [x' [e|res]] eqn:Hattempt.
    + match goal with |- context [for_each _ _ ?s1] =>
        destruct (IH (S a) s1)
          as (s' & nr & nl & Hrun & Halign & Hres & Hlog & Hlen & Hsaved & Hclosed
              & Hupd & Hrec & Hfail & Hsub & Hperm);
          [cbn; rewrite length_app, Ha; simpl; lia|]
      end.
      exists s', nr, (Error_in_iteration a e :: nl).
      destruct Hlen as (ns & Hns & Hnslen & Hdrawn).
      cbn in Hres, Hlog, Hns, Hsaved, Hclosed, Hupd.
      rewrite Hrun, Hres, Hlog, Hsaved, Hclosed, Hupd.
      rewrite <- app_assoc. simpl.
      repeat split; auto; try lia.
      * exists (samples :: ns). rewrite Hns, <- app_assoc. simpl.
        repeat split; auto. constructor; [|exact Hdrawn].
        exists (rng s), g'. exact Hsample.
      * constructor; [|exact Hfail].
        exists a, e, (rng s), g', samples, cfg, (ext s), x'. auto.
      * apply sublist_cons. exact Hsub.
      * apply Permutation_sym, Permutation_cons_app, Permutation_sym, Hperm.
    + match goal with |- context [for_each _ _ ?s1] =>
        destruct (IH (S a) s1)
          as (s' & nr & nl & Hrun & Halign & Hres & Hlog & Hlen & Hsaved & Hclosed
              & Hupd & Hrec & Hfail & Hsub & Hperm);
          [cbn; rewrite length_app, Ha; simpl; lia|]
      end.
      exists s',
        ({| iteration := a; parameters := samples; results := res |} :: nr), nl.
      destruct Hlen as (ns & Hns & Hnslen & Hdrawn).
      cbn in Hres, Hlog, Hns, Hsaved, Hclosed, Hupd.
      rewrite Hrun, Hres, Hlog, Hsaved, Hclosed, Hupd.
      rewrite <- app_assoc. simpl.
      repeat split; auto; try lia.
      * constructor; [|exact Halign].
        cbn. rewrite Hns, <- app_assoc, lookup_app_r by lia.
        rewrite Ha, Nat.sub_diag. reflexivity.
      * exists (samples :: ns). rewrite Hns, <- app_assoc. simpl.
        repeat split; auto. constructor; [|exact Hdrawn].
        exists (rng s), g'. exact Hsample.
      * constructor; [|exact Hrec].
        exists (rng s), g', cfg, (ext s), x'. auto.
      * apply sublist_skip. exact Hsub.
Qed.

(** [s'] is [s] after steps that only write files and log records other than
    errors. *)
Definition bookkeeping (s s' : state) : Prop :=
  self_results s' = self_results s /\
  self_parameter_samples s' = self_parameter_samples s /\
  (exists l, logged s' = logged s ++ l /\ errors l = []) /\
  (exists a, saved s' = saved s ++ a) /\
  progress_updates s' = progress_updates s /\
  progress_closed s' = progress_closed s.

Lemma bookkeeping_refl (s : state) : bookkeeping s s.
Proof.
  repeat split; auto; exists []; rewrite app_nil_r; auto.
Qed.

Lemma bookkeeping_trans (s1 s2 s3 : state) :
  bookkeeping s1 s2 -> bookkeeping s2 s3 -> bookkeeping s1 s3.
Proof.
  intros (Hr1 & Hp1 & (l1 & Hl1 & He1) & (a1 & Ha1) & Hu1 & Hc1)
         (Hr2 & Hp2 & (l2 & Hl2 & He2) & (a2 & Ha2) & Hu2 & Hc2).
  repeat split; try congruence.
  - exists (l1 ++ l2). rewrite Hl2, Hl1, app_assoc, errors_app, He1, He2. auto.
  - exists (a1 ++ a2). rewrite Ha2, Ha1, app_assoc. auto.
Qed.

Lemma bookkeeping_save (a : artifact) (s : state) : bookkeeping s (save a s).
Proof.
  repeat split; auto; [exists []; rewrite app_nil_r; auto | exists [a]; auto].
Qed.

Lemma bookkeeping_log (rec : log_record) (s : state) :
  errors [rec] = [] -> bookkeeping s (log rec s).
Proof.
  intros Hrec.
  repeat split; auto; [exists [rec]; auto | exists []; rewrite app_nil_r; auto].
Qed.

(** *** What the iterations do, one after the other *)

(** The iterations [indices] of an experiment, run one after the other from
    the generator state [g] and the world [x]: for each of them its index,
    its sample set and the outcome of its [try] block.  The list ends where
    an iteration cannot be sampled or configured. *)
Fixpoint outcomes (mc : MonteCarloSimulation) (f : EngineFactory)
  (indices : list nat) (g : G) (x : X)
  : list (nat * SampledParams * result ResultsDict) :=
  match indices with
  | [] => []
  | i :: rest =>
      match _sample_parameters np mc g with
      | (g', inr samples) =>
          match _apply_samples mc (base_config mc) samples with
          | inr cfg =>
              (i, samples, snd (attempt f cfg x))
              :: outcomes mc f rest g' (fst (attempt f cfg x))
          | inl _ => []
          end
      | (_, inl _) => []
      end
  end.

(** The results recorded and the failures logged for a list of outcomes. *)
Definition recorded (trace : list (nat * SampledParams * result ResultsDict))
  : list SimulationResult :=
  flat_map (fun '(i, samples, outcome) =>
              match outcome with
              | inr engine_results =>
                  [{| iteration := i; parameters := samples;
                      results := engine_results |}]
              | inl _ => []
              end) trace.

Definition failed (trace : list (nat * SampledParams * result ResultsDict))
  : list log_record :=
  flat_map (fun '(i, samples, outcome) =>
              match outcome with
              | inr _ => []
              | inl e => [Error_in_iteration i e]
              end) trace.


Lemma outcomes_cons (mc : MonteCarloSimulation) (f : EngineFactory) (i : nat)
  (rest : list nat) (g g' : G) (x : X) (samples : SampledParams) (cfg : value) :
  _sample_parameters np mc g = (g', ok samples) ->
  _apply_samples mc (base_config mc) samples = ok cfg ->
  outcomes mc f (i :: rest) g x
  = (i, samples, snd (attempt f cfg x))
    :: outcomes mc f rest g' (fst (attempt f cfg x)).
Proof.
  intros Hsample Happly. cbn [outcomes]. rewrite Hsample. unfold ok.
  unfold ok in Happly. rewrite Happly. reflexivity.
Qed.

(** The loop of [run] never raises in a well configured experiment, and
    what it leaves is what [outcomes] lists. *)
Lemma loop_outcomes (mc : MonteCarloSimulation) (f : EngineFactory) :
  samplable mc ->
  forall (indices : list nat) (s : state),
  exists s' : state,
    for_each indices (run_iteration np mc f) s = (s', ok tt) /\
    map (fun o => fst (fst o)) (outcomes mc f indices (rng s) (ext s)) = indices /\
    self_parameter_samples s' =
      self_parameter_samples s
      ++ map (fun o => snd (fst o)) (outcomes mc f indices (rng s) (ext s)) /\
    self_results s' =
      self_results s ++ recorded (outcomes mc f indices (rng s) (ext s)) /\
    logged s' = logged s ++ failed (outcomes mc f indices (rng s) (ext s)).
Proof.
  intros Hmc indices. induction indices as [|i indices IH]; intros s.
  - exists s. simpl. rewrite !app_nil_r. auto.
  - destruct (Hmc (rng s)) as (g' & samples & cfg & Hsample & Happly).
    rewrite (outcomes_cons mc f i indices _ _ _ _ _ Hsample Happly).
    cbn [for_each]. unfold bind at 1.
    rewrite (iteration_spec mc f i s g' samples cfg Hsample Happly).
    destruct (attempt f cfg (ext s)) as [x' [e|res]] eqn:Hattempt; cbn [fst snd].
    + match goal with |- context [for_each _ _ ?s1] =>
        destruct (IH s1) as (s' & Hrun & Hidx & Hsamples & Hres & Hlog)
      end.
      cbn [rng ext progress_update log with_ext with_parameter_samples with_rng
           self_results self_parameter_samples logged] in Hidx, Hsamples, Hres, Hlog.
      exists s'. split; [exact Hrun|].
      cbn [map fst snd recorded failed flat_map]. rewrite Hidx, Hsamples, Hres, Hlog.
      rewrite <- !app_assoc. auto.
    + match goal with |- context [for_each _ _ ?s1] =>
        destruct (IH s1) as (s' & Hrun & Hidx & Hsamples & Hres & Hlog)
      end.
      cbn [rng ext progress_update log with_ext with_parameter_samples with_rng
           with_results self_results self_parameter_samples logged]
        in Hidx, Hsamples, Hres, Hlog.
      exists s'. split; [exact Hrun|].
      cbn [map fst snd recorded failed flat_map]. rewrite Hidx, Hsamples, Hres, Hlog.
      rewrite <- !app_assoc. auto.
Qed.

(** *** Statistics and files *)

(** The state in which the loop of [run] starts. *)
Definition cleared (s : state) : state :=
  with_parameter_samples (fun _ => []) (with_results (fun _ => []) s).

(** [e] is an exception of the statistics or of a write. *)
Definition raised_after_the_loop (e : exn) : Prop :=
  (exists values : list scalar, describe values = raise e) \/
  (exists (a : artifact) (x : X), snd (write_file a x) = raise e).

(** No write raises. *)
Definition writable : Prop :=
  forall (a : artifact) (x : X), snd (write_file a x) = ok tt.

(** A step of the persistence code: it only does bookkeeping, what it raises
    is the exception of a write, and it returns when no write raises. *)
Definition persists {A : Type} (m : SE state A) : Prop :=
  forall s : state,
    bookkeeping s (fst (m s)) /\
    (forall e, snd (m s) = raise e ->
               exists (a : artifact) (x : X), snd (write_file a x) = raise e) /\
    (writable -> exists v, snd (m s) = ok v).

Lemma persists_write (a : artifact) : persists (write write_file a).
Proof.
  intros s. unfold write.
  destruct (write_file a (ext s)) as [x [e|[]]] eqn:Hw; cbn [fst snd].
  - split; [|split].
    + repeat split; auto; exists []; rewrite app_nil_r; auto.
    + intros e' [= <-]. exists a, (ext s). rewrite Hw. reflexivity.
    + intros Hok. specialize (Hok a (ext s)). rewrite Hw in Hok. discriminate.
  - split; [|split].
    + repeat split; auto; [exists []; rewrite app_nil_r; auto | exists [a]; auto].
    + discriminate.
    + eauto.
Qed.

Lemma persists_log (rec : log_record) :
  errors [rec] = [] -> persists (modify (log rec)).
Proof.
  intros Hrec s. split; [apply bookkeeping_log, Hrec|].
  split; [discriminate | eauto].
Qed.

Lemma persists_ret {A : Type} (v : A) : persists (ret v).
Proof.
  intros s. split; [apply bookkeeping_refl|]. split; [discriminate | eauto].
Qed.

Lemma persists_bind {A B : Type} (m : SE state A) (k : A -> SE state B) :
  persists m -> (forall v, persists (k v)) -> persists (bind m k).
Proof.
  intros Hm Hk s. unfold bind. destruct (Hm s) as (Hb & Hraise & Hret).
  destruct (m s) as [s1 [e|v]]; cbn [fst snd] in *.
  - split; [exact Hb|]. split.
    + intros e' [= <-]. apply Hraise. reflexivity.
    + intros Hw. destruct (Hret Hw) as [v Hv]. discriminate.
  - destruct (Hk v s1) as (Hb1 & Hraise1 & Hret1).
    split; [eapply bookkeeping_trans; eauto|]. split; assumption.
Qed.

Lemma persists_for_each {A : Type} (body : A -> SE state unit) (xs : list A) :
  (forall x, persists (body x)) -> persists (for_each xs body).
Proof.
  intros Hbody. induction xs as [|x xs IH]; simpl.
  - apply persists_ret.
  - apply persists_bind; [apply Hbody | intros _; exact IH].
Qed.

Lemma persists_gets {A : Type} (f : state -> A) : persists (gets f).
Proof.
  intros s. split; [apply bookkeeping_refl|]. split; [discriminate | eauto].
Qed.

Lemma persists_save_results (mc : MonteCarloSimulation)
  (summary_df : list (string * Stats)) :
  persists (_save_results write_file mc summary_df).
Proof.
  unfold _save_results.
  refine (persists_bind _ _ (persists_write _) _). intros _.
  refine (persists_bind _ _ (persists_log Info_saved_summary eq_refl) _). intros _.
  refine (persists_bind _ _ (persists_gets _) _). intros samples.
  refine (persists_bind _ _ (persists_write _) _). intros _.
  refine (persists_bind _ _ (persists_log Info_saved_samples eq_refl) _). intros _.
  destruct (save_all_runs mc); [|apply persists_ret].
  refine (persists_bind _ _ (persists_write _) _). intros _.
  refine (persists_bind _ _ (persists_gets _) _). intros runs.
  refine (persists_bind _ _ _ (fun _ => persists_log Info_saved_all_runs eq_refl)).
  refine (persists_for_each _ _ _). intros [i run].
  refine (persists_bind _ _ (persists_write _) _). intros _.
  refine (persists_bind _ _ (persists_write _) _). intros _.
  refine (persists_for_each _ _ _). intros [module_name [df|]]; [|apply persists_ret].
  destruct (df_empty df); [apply persists_ret | apply persists_write].
Qed.

(** The statistics return when numpy accepts the values of every metric,
    and what they raise is an exception of numpy. *)
Lemma stats_data_outcome (metrics : PyDict.t string (list scalar)) :
  (forall e, stats_data describe metrics = raise e ->
             exists values, describe values = raise e) /\
  ((forall key values, (key, values) ∈ metrics ->
                       exists row, describe values = ok row) ->
   exists rows, stats_data describe metrics = ok rows).
Proof.
  induction metrics as [|[key values] metrics [IHraise IHret]]; simpl.
  - split; [discriminate | eauto].
  - split.
    + intros e. destruct (describe values) as [e'|row] eqn:Hd; simpl.
      * intros [= <-]. eauto.
      * destruct (stats_data describe metrics) as [e'|rows]; simpl;
          [intros [= <-]; apply IHraise; reflexivity | discriminate].
    + intros Hall. destruct (Hall key values ltac:(left)) as [row ->]. simpl.
      destruct IHret as [rows ->]; [|simpl; eauto].
      intros k v Hin. apply (Hall k v). right. exact Hin.
Qed.

Lemma analyze_results_eq (mc : MonteCarloSimulation) (s : state) :
  _analyze_results describe write_file mc s =
  match self_results s with
  | [] => (log Warning_no_results s, ok [])
  | _ :: _ =>
      match stats_data describe (collect_metrics (self_results s)) with
      | inl e => (s, inl e)
      | inr rows =>
          (fst (_save_results write_file mc rows s),
           match snd (_save_results write_file mc rows s) with
           | inl e => inl e
           | inr _ => inr rows
           end)
      end
  end.
Proof.
  unfold _analyze_results. unfold bind at 1, gets. cbv beta iota.
  unfold ok at 1. cbv beta iota.
  destruct (self_results s) as [|r runs]; [reflexivity|].
  cbv zeta. unfold bind at 1, lift.
  destruct (stats_data describe (collect_metrics (r :: runs))) as [e|rows];
    [reflexivity|].
  unfold bind at 1.
  destruct (_save_results write_file mc rows s) as [s1 [e|[]]]; reflexivity.
Qed.

(** [_analyze_results] only does bookkeeping; with no result it logs a
    warning and returns the empty table; what it raises is an exception of
    the statistics or of a write; and it returns when neither raises. *)
Lemma analyze_results_spec (mc : MonteCarloSimulation) (s : state) :
  bookkeeping s (fst (_analyze_results describe write_file mc s)) /\
  (self_results s = [] ->
   _analyze_results describe write_file mc s = (log Warning_no_results s, ok [])) /\
  (forall e, snd (_analyze_results describe write_file mc s) = raise e ->
             raised_after_the_loop e) /\
  ((forall key values, (key, values) ∈ collect_metrics (self_results s) ->
                       exists row, describe values = ok row) ->
   writable ->
   exists table, snd (_analyze_results describe write_file mc s) = ok table).
Proof.
  rewrite analyze_results_eq.
  destruct (self_results s) as [|r runs] eqn:Hruns.
  - split; [apply bookkeeping_log; reflexivity|]. split; [reflexivity|].
    split; [discriminate | eauto].
  - destruct (stats_data_outcome (collect_metrics (r :: runs))) as [Hraise Hret].
    destruct (stats_data describe (collect_metrics (r :: runs))) as [e|rows].
    + cbn [fst snd]. split; [apply bookkeeping_refl|]. split; [discriminate|].
      split.
      * intros e' [= <-]. left. apply Hraise. reflexivity.
      * intros Hall _. destruct (Hret Hall) as [rows Hrows]. discriminate.
    + destruct (persists_save_results mc rows s) as (Hb & Hraise' & Hret').
      cbn [fst snd].
      destruct (snd (_save_results write_file mc rows s)) as [e|[]].
      * split; [exact Hb|]. split; [discriminate|]. split.
        -- intros e' [= <-]. right. apply Hraise'. reflexivity.
        -- intros _ Hw. destruct (Hret' Hw) as [v Hv]. discriminate.
      * split; [exact Hb|]. split; [discriminate|]. split; [discriminate|].
        eauto.
Qed.

(** [run] is the loop, the log of the successful runs and the analysis,
    with the progress bar closed at the end. *)
Lemma run_after_loop (mc : MonteCarloSimulation) (f : EngineFactory)
  (s s1 : state) :
  for_each (seq 0 (Z.to_nat (n_iterations mc))) (run_iteration np mc f) (cleared s)
  = (s1, ok tt) ->
  run np describe write_file mc f s =
  (progress_close
     (fst (_analyze_results describe write_file mc
             (log (Info_completed (length (self_results s1))) s1))),
   snd (_analyze_results describe write_file mc
          (log (Info_completed (length (self_results s1))) s1))).
Proof.
  intros Hloop. unfold run. unfold bind at 1, modify. cbv beta iota.
  unfold bind at 1. cbv beta iota. fold (cleared s).
  unfold try_finally. unfold bind at 1. rewrite Hloop.
  unfold bind at 1, gets. cbv beta iota. unfold bind at 1, modify.
  unfold ok. cbv beta iota.
  destruct (_analyze_results describe write_file mc _) as [s2 r]. reflexivity.
Qed.

Lemma failure_logged_errors (mc : MonteCarloSimulation) (f : EngineFactory)
  (l : list log_record) :
  Forall (failure_logged mc f) l -> length (errors l) = length l.
Proof.
  induction 1 as [|rec l (i & e & g & g' & samples & cfg & x & x' & -> & _) _ IH];
    simpl; [reflexivity | now rewrite IH].
Qed.


(** C10.  In a well configured experiment in which the [try] block of every
    iteration raises, [run] returns the empty table without raising and
    nothing is saved, while the samples of every iteration were drawn and are
    kept in [parameter_samples]. *)
Theorem C10_no_results_nothing_saved :
  forall (mc : MonteCarloSimulation) (f : EngineFactory) (s : state),
    samplable mc ->
    (forall cfg x, raised (snd (attempt f cfg x)) = true) ->
    exists s' : state,
      run np describe write_file mc f s = (s', ok []) /\
      self_results s' = [] /\
      saved s' = saved s /\
      length (self_parameter_samples s') = Z.to_nat (n_iterations mc) /\
      Forall (drawn mc) (self_parameter_samples s') /\
      In Warning_no_results (logged s').
Proof.
  intros mc f s Hmc Hfail.
  destruct (loop_spec mc f Hmc (Z.to_nat (n_iterations mc)) 0%nat (cleared s) eq_refl)
    as (s1 & nr & nl & Hloop & _ & Hres & Hlog & (ns & Hns & Hnslen & Hdrawn) & Hsaved
        & Hclosed & Hupd & Hrec & _ & _ & _).
  cbn in Hres, Hns, Hsaved.
  assert (Hnr : nr = []).
  { destruct nr as [|r nr]; [reflexivity|]. exfalso.
    apply Forall_cons in Hrec as [(g & g' & cfg & x & x' & _ & _ & Hattempt) _].
    specialize (Hfail cfg x). rewrite Hattempt in Hfail. discriminate. }
  rewrite Hnr in Hres.
  destruct (analyze_results_spec mc
              (log (Info_completed (length (self_results s1))) s1))
    as (_ & Hempty & _).
  specialize (Hempty Hres).
  eexists. split.
  { rewrite (run_after_loop mc f s s1 Hloop), Hempty. reflexivity. }
  cbn. rewrite Hres, Hns, Hsaved. repeat split; auto.
  apply in_or_app. right. left. reflexivity.
Qed.

End RunFacts.

(** ** Runs of the examples *)

(** Stand-ins for numpy's statistics and for the file system in the
    examples: the number of values, and writes that succeed. *)
Definition count_values (values : list scalar) : result nat := ok (length values).

Definition written {X Stats : Type} (a : @MonteCarlo.artifact Stats) : SE X unit :=
  ret tt.

Definition initial_state {G X Stats : Type} (g : G) (x : X)
  : @MonteCarlo.state G X Stats :=
  {| MonteCarlo.self_results := [];
     MonteCarlo.self_parameter_samples := [];
     MonteCarlo.rng := g;
     MonteCarlo.ext := x;
     MonteCarlo.logged := [];
     MonteCarlo.saved := [];
     MonteCarlo.progress_updates := 0;
     MonteCarlo.progress_closed := false |}.

(** The base configuration [{"g": {"v": 1}}] with one uniform distribution
    on [["g"; "v"]]. *)
Definition gv_config : value :=
  VDict {[ "g" := VDict {[ "v" := VScalar (SInt 1) ]} ]}.

Definition gv_uniform : ParameterDistribution :=
  {| param_path := ["g"; "v"];
     distribution := "uniform";
     params := {[ "low" := VScalar (SInt 0); "high" := VScalar (SInt 1) ]} |}.

Definition gv_experiment (n : Z) : MonteCarlo.MonteCarloSimulation :=
  {| MonteCarlo.base_config := gv_config;
     MonteCarlo.parameter_distributions := [gv_uniform];
     MonteCarlo.n_iterations := n;
     MonteCarlo.save_all_runs := false |}.

Definition capacity_table : DataFrame :=
  {| df_columns := ["year"; "capacity"];
     df_rows := [[SInt 2025; SFloat 110]; [SInt 2026; SFloat 121]] |}.

(** An engine that runs and hands out one result table. *)
Definition reporting_engine : MonteCarlo.engine (X := nat) :=
  {| MonteCarlo.engine_run := ret tt;
     MonteCarlo.engine_get_all_results := ret [("Capacity", Some capacity_table)] |}.

(** A factory that counts its calls and raises on the third. *)
Definition failing_third : MonteCarlo.EngineFactory (X := nat) :=
  fun _ x =>
    (S x, if Nat.eqb x 2 then raise (RuntimeError "factory failed")
          else ok reporting_engine).

(** A factory that always raises. *)
Definition failing_always : MonteCarlo.EngineFactory (X := nat) :=
  fun _ x => (S x, raise (RuntimeError "factory failed")).

(** The factory of an experiment on the repository's engine. *)
Definition simulation_engine_factory
  : MonteCarlo.EngineFactory (X := nat * list call) :=
  fun _ => ret (of_SimulationEngine (fun w => w) engine_AB).

Section RunExamples.
Import MonteCarlo.

Lemma gv_samplable (n : Z) : samplable degenerate (gv_experiment n).
Proof.
  intros g. exists (S g), [("g.v", SFloat 0)],
    (VDict {[ "g" := VDict {[ "v" := VScalar (SFloat 0) ]} ]}).
  split; [reflexivity | vm_compute; reflexivity].
Qed.

(** The partial-failure property of the specification: five iterations, the
    factory raises in iteration 2; [run] returns the summary table and four
    results are recorded. *)
Lemma five_iterations_third_factory_fails :
  let out := run degenerate count_values written (gv_experiment 5) failing_third
               (initial_state 0%nat 0%nat) in
  snd out = ok [("Capacity.year", 4%nat); ("Capacity.capacity", 4%nat)] /\
  map iteration (self_results (fst out)) = [0; 1; 3; 4]%nat /\
  length (self_parameter_samples (fst out)) = 5%nat /\
  logged (fst out) =
    [Error_in_iteration 2 (RuntimeError "factory failed"); Info_completed 4;
     Info_saved_summary; Info_saved_samples].
Proof. vm_compute. repeat split; reflexivity. Qed.


(** The empty-results theorem at an experiment whose factory always raises:
    three sample sets are kept, nothing is saved. *)
Lemma C10_no_results_nothing_saved_three :
  exists s' : state,
    run degenerate count_values written (gv_experiment 3) failing_always
      (initial_state 0%nat 0%nat) = (s', ok []) /\
    self_results s' = [] /\
    saved s' = [] /\
    length (self_parameter_samples s') = 3%nat /\
    Forall (drawn degenerate (gv_experiment 3)) (self_parameter_samples s') /\
    In Warning_no_results (logged s').
Proof.
  apply (C10_no_results_nothing_saved degenerate count_values written
           (gv_experiment 3) failing_always (initial_state 0%nat 0%nat)).
  - apply gv_samplable.
  - intros cfg x. reflexivity.
Defined.

(** The outcome of the [try] block on the repository's engine: [run()]
    returns, the lookup of [get_all_results] raises. *)
Lemma simulation_engine_attempt (W : Type) (analytics : W -> W)
  (e : Engine.SimulationEngine W) (cfg : value) (x : W * list call) :
  snd (Engine.run analytics e None x) = ok tt ->
  attempt (fun _ => ret (of_SimulationEngine analytics e)) cfg x =
  (fst (Engine.run analytics e None x), raise (AttributeError "get_all_results")).
Proof.
  intros Hrun. unfold attempt, bind, ret. simpl.
  destruct (Engine.run analytics e None x) as [x' [err|[]]]; [discriminate|].
  reflexivity.
Qed.

(** C1, on the repository's own engine: one iteration, the factory returns a
    [SimulationEngine] and its [run()] makes every lifecycle call and returns,
    yet no result is recorded: the iteration is logged as failed with the
    [AttributeError] of [engine.get_all_results]. *)
Theorem C1_simulation_engine_run_records_nothing :
  let out := run degenerate count_values written (gv_experiment 1)
               simulation_engine_factory (initial_state 0%nat (0%nat, [])) in
  snd out = ok [] /\
  self_results (fst out) = [] /\
  snd (ext (fst out)) = Engine.lifecycle_calls engine_AB /\
  logged (fst out) =
    [Error_in_iteration 0 (AttributeError "get_all_results"); Info_completed 0;
     Warning_no_results].
Proof. vm_compute. repeat split; reflexivity. Qed.

End RunExamples.

(** ** Ordered dictionaries *)

Section PyDictFacts.
Context {K V : Type} `{EqDecision K}.
Implicit Types (d : PyDict.t K V) (key : K) (v : V).

Lemma pydict_set_fresh d key v :
  key ∉ PyDict.keys d -> PyDict.set d key v = d ++ [(key, v)].
Proof.
  induction d as [|[k v0] d IH]; intros Hfresh; simpl; [reflexivity|].
  simpl in Hfresh. apply not_elem_of_cons in Hfresh as [Hne Hfresh].
  destruct (decide (k = key)) as [->|_]; [congruence|].
  rewrite IH by exact Hfresh. reflexivity.
Qed.

Lemma pydict_keys_set d key v :
  PyDict.keys (PyDict.set d key v) =
  if decide (key ∈ PyDict.keys d) then PyDict.keys d else PyDict.keys d ++ [key].
Proof.
  induction d as [|[k v0] d IH]; simpl.
  - destruct (decide (key ∈ [])) as [Hin|_]; [inversion Hin | reflexivity].
  - destruct (decide (k = key)) as [->|Hne]; simpl.
    + destruct (decide (key ∈ key :: PyDict.keys d)) as [_|Hnot];
        [reflexivity | exfalso; apply Hnot; left].
    + rewrite IH.
      destruct (decide (key ∈ PyDict.keys d)) as [Hin|Hnin];
        destruct (decide (key ∈ k :: PyDict.keys d)) as [Hin'|Hnin'];
        try reflexivity.
      * exfalso. apply Hnin'. right. exact Hin.
      * exfalso. apply elem_of_cons in Hin' as [->|Hin']; [congruence | auto].
Qed.

Lemma pydict_keys_set_NoDup d key v :
  NoDup (PyDict.keys d) -> NoDup (PyDict.keys (PyDict.set d key v)).
Proof.
  intros Hd. rewrite pydict_keys_set.
  destruct (decide (key ∈ PyDict.keys d)) as [_|Hnin]; [exact Hd|].
  apply NoDup_app. repeat split; auto.
  - intros x Hx Hx'. apply list_elem_of_singleton in Hx'. subst x. auto.
  - apply NoDup_singleton.
Qed.

Lemma pydict_elem_of_set d key v (k : K) (x : V) :
  (k, x) ∈ PyDict.set d key v -> (k = key /\ x = v) \/ (k, x) ∈ d.
Proof.
  induction d as [|[k0 v0] d IH]; simpl; intros Hin.
  - apply list_elem_of_singleton in Hin. injection Hin as -> ->. auto.
  - destruct (decide (k0 = key)) as [->|Hne].
    + apply elem_of_cons in Hin as [Heq|Hin].
      * injection Heq as -> ->. auto.
      * right. right. exact Hin.
    + apply elem_of_cons in Hin as [Heq|Hin].
      * right. rewrite Heq. left.
      * destruct (IH Hin) as [?|?]; [auto | right; right; assumption].
Qed.

Lemma pydict_get_elem_of d (k : K) (x : V) :
  NoDup (PyDict.keys d) -> (k, x) ∈ d -> PyDict.get d k = Some x.
Proof.
  induction d as [|[k0 v0] d IH]; simpl; intros Hd Hin; [inversion Hin|].
  apply NoDup_cons in Hd as [Hk0 Hd].
  apply elem_of_cons in Hin as [Heq|Hin].
  - injection Heq as -> ->. destruct (decide (k0 = k0)); congruence.
  - destruct (decide (k0 = k)) as [->|_]; [|auto].
    exfalso. apply Hk0. apply (list_elem_of_fmap_2 fst _ _ Hin).
Qed.

Lemma pydict_get_Some d (k : K) (x : V) :
  PyDict.get d k = Some x -> (k, x) ∈ d.
Proof.
  induction d as [|[k0 v0] d IH]; simpl; intros Hget; [discriminate|].
  destruct (decide (k0 = k)) as [->|_].
  - injection Hget as ->. left.
  - right. auto.
Qed.

End PyDictFacts.

Lemma fold_left_invariant {A B : Type} (P : A -> Prop) (f : A -> B -> A)
  (l : list B) (a : A) :
  (forall acc x, P acc -> P (f acc x)) -> P a -> P (fold_left f l a).
Proof.
  intros Hstep. revert a. induction l as [|x l IH]; intros a Ha; simpl; auto.
Qed.

(** ** Sensitivity analysis *)

(** Descending by absolute correlation. *)
Definition by_abs_correlation (a b : string * correlation_row) : Prop :=
  (abs_correlation (snd b) <= abs_correlation (snd a))%Q.

Section SortValues.
Import MonteCarlo.

Lemma insert_row_Permutation (row : string * correlation_row)
  (table : sensitivity_table) :
  Permutation (insert_row row table) (row :: table).
Proof.
  induction table as [|next rest IH]; simpl; [reflexivity|].
  destruct (Qle_bool _ _); [reflexivity|].
  rewrite IH. apply perm_swap.
Qed.

Lemma sort_values_Permutation (table : sensitivity_table) :
  Permutation (sort_values table) table.
Proof.
  induction table as [|row rest IH]; simpl; [reflexivity|].
  rewrite insert_row_Permutation. constructor. exact IH.
Qed.

Lemma by_abs_correlation_trans (a b c : string * correlation_row) :
  by_abs_correlation a b -> by_abs_correlation b c -> by_abs_correlation a c.
Proof. unfold by_abs_correlation. intros Hab Hbc. eapply Qle_trans; eauto. Qed.

Lemma insert_row_sorted (row : string * correlation_row)
  (table : sensitivity_table) :
  StronglySorted by_abs_correlation table ->
  StronglySorted by_abs_correlation (insert_row row table).
Proof.
  induction 1 as [|next rest Hrest IH Hnext]; simpl.
  - repeat constructor.
  - destruct (Qle_bool (abs_correlation (snd next)) (abs_correlation (snd row)))
      eqn:Hle.
    + apply Qle_bool_iff in Hle. constructor; [constructor; assumption|].
      constructor; [exact Hle|].
      eapply Forall_impl; [exact Hnext|].
      intros c Hc. eapply by_abs_correlation_trans; [exact Hle | exact Hc].
    + constructor; [exact IH|].
      assert (Hlt : by_abs_correlation next row).
      { unfold by_abs_correlation. apply Qlt_le_weak, Qnot_le_lt.
        intros Hle'. apply Qle_bool_iff in Hle'. congruence. }
      rewrite (Forall_forall (by_abs_correlation next)).
      intros c Hc.
      rewrite insert_row_Permutation in Hc.
      apply elem_of_cons in Hc as [->|Hc]; [exact Hlt|].
      rewrite Forall_forall in Hnext. apply Hnext, Hc.
Qed.

Lemma sort_values_sorted (table : sensitivity_table) :
  StronglySorted by_abs_correlation (sort_values table).
Proof.
  induction table as [|row rest IH]; simpl; [constructor|].
  apply insert_row_sorted, IH.
Qed.

End SortValues.

Section Sensitivity.
Import MonteCarlo.
Context {G X Stats : Type}.
Context (pearsonr : list (option scalar) -> list scalar -> result (Q * Q)).
Context (write_file : @MonteCarlo.artifact Stats -> SE X unit).

#[local] Abbreviation state := (@MonteCarlo.state G X Stats).
#[local] Abbreviation artifact := (@MonteCarlo.artifact Stats).

(** A row of a sensitivity table holds what [pearsonr] returned for the
    sampled values of its parameter, taken at the iterations of the metric,
    against the values of the metric, and the absolute value of the
    coefficient. *)
Definition row_computed (rows : list SampledParams)
  (values_dict : PyDict.t nat scalar) (entry : string * correlation_row) : Prop :=
  pearsonr (reindex rows (fst entry) (PyDict.keys values_dict))
    (PyDict.values values_dict)
  = ok (correlation (snd entry), p_value (snd entry)) /\
  abs_correlation (snd entry) = Qabs (correlation (snd entry)).

Lemma columns_of_NoDup (rows : list SampledParams) : NoDup (columns_of rows).
Proof.
  unfold columns_of. apply fold_left_invariant; [|constructor].
  intros columns row Hcolumns.
  apply fold_left_invariant; [|exact Hcolumns].
  intros acc key Hacc. destruct (decide (key ∈ acc)) as [_|Hnin]; [exact Hacc|].
  apply NoDup_app. repeat split; auto.
  - intros x Hx Hx'. apply list_elem_of_singleton in Hx'. subst x. auto.
  - apply NoDup_singleton.
Qed.

Lemma correlate_spec (rows : list SampledParams)
  (values_dict : PyDict.t nat scalar) (columns : list string) :
  (2 <= length values_dict)%nat ->
  forall (acc table : sensitivity_table),
    NoDup (PyDict.keys acc ++ columns) ->
    correlate pearsonr rows (PyDict.keys values_dict) (PyDict.values values_dict)
      columns acc = ok table ->
    exists new : sensitivity_table,
      table = acc ++ new /\
      PyDict.keys new = columns /\
      Forall (row_computed rows values_dict) new.
Proof.
  intros Hlen. induction columns as [|param columns IH]; intros acc table Hnd Hrun.
  - injection Hrun as <-. exists []. rewrite app_nil_r. repeat split; constructor.
  - cbn [correlate] in Hrun.
    assert (Hlen' : (2 <=? length (reindex rows param (PyDict.keys values_dict)))%nat
                    = true).
    { apply Nat.leb_le. unfold reindex, PyDict.keys. rewrite !length_map. exact Hlen. }
    rewrite Hlen' in Hrun.
    destruct (pearsonr _ _) as [e|[corr p]] eqn:Hp; [discriminate|].
    unfold rbind in Hrun.
    assert (Hfresh : param ∉ PyDict.keys acc).
    { apply NoDup_app in Hnd as (_ & Hdisj & _). intros Hin.
      apply (Hdisj _ Hin). left. }
    rewrite (pydict_set_fresh _ _ _ Hfresh) in Hrun.
    match type of Hrun with
    | correlate _ _ _ _ _ ?acc' = _ =>
        assert (Hnd' : NoDup (PyDict.keys acc' ++ columns))
    end.
    { unfold PyDict.keys in *. rewrite List.map_app. simpl.
      rewrite <- app_assoc. exact Hnd. }
    destruct (IH _ _ Hnd' Hrun) as (new & -> & Hkeys & Hrows).
    eexists (_ :: new). rewrite <- app_assoc. split; [reflexivity|].
    split; [simpl; rewrite Hkeys; reflexivity|].
    constructor; [|exact Hrows].
    split; [exact Hp | reflexivity].
Qed.

Lemma analyse_metric_spec (rows : list SampledParams) (columns : list string)
  (values_dict : PyDict.t nat scalar) (table : sensitivity_table) :
  NoDup columns ->
  analyse_metric pearsonr rows columns values_dict = ok (Some table) ->
  (10 <= length values_dict)%nat /\
  Permutation (PyDict.keys table) columns /\
  Forall (row_computed rows values_dict) table /\
  StronglySorted by_abs_correlation table.
Proof.
  intros Hnd. unfold analyse_metric.
  destruct (length values_dict <? 10)%nat eqn:Hlen; [discriminate|].
  apply Nat.ltb_ge in Hlen.
  destruct (correlate _ _ _ _ _ _) as [e|correlations] eqn:Hcorr; [discriminate|].
  unfold rbind, ok. intros Hres.
  assert (Htable : table = sort_values correlations)
    by (destruct correlations; [discriminate | injection Hres; auto]).
  subst table. clear Hres.
  destruct (correlate_spec rows values_dict columns ltac:(lia) [] correlations
              Hnd Hcorr) as (new & Hnew & Hkeys & Hrows).
  simpl in Hnew. subst new.
  split; [exact Hlen|]. split; [|split].
  - rewrite <- Hkeys. unfold PyDict.keys.
    apply Permutation_map, sort_values_Permutation.
  - rewrite sort_values_Permutation. exact Hrows.
  - apply sort_values_sorted.
Qed.

Lemma collect_run_invariant {A : Type} (P : A -> Prop)
  (record : A -> string -> scalar -> A) (run_results : ResultsDict) (acc : A) :
  (forall acc key v, P acc -> P (record acc key v)) ->
  P acc -> P (collect_run record run_results acc).
Proof.
  intros Hrecord. unfold collect_run. apply fold_left_invariant.
  intros acc' [module_name [df|]] Hacc; [|exact Hacc].
  destruct (df_empty df); [exact Hacc|].
  apply fold_left_invariant; [|exact Hacc].
  intros acc'' [metric_name v] Hacc''. destruct (is_numeric v); auto.
Qed.

Lemma collect_metrics_data_NoDup (runs : list SimulationResult) :
  NoDup (PyDict.keys (collect_metrics_data runs)).
Proof.
  unfold collect_metrics_data. apply fold_left_invariant; [|constructor].
  intros metrics_data run Hmd. apply collect_run_invariant; [|exact Hmd].
  intros acc key v Hacc. unfold record_value.
  destruct (PyDict.get acc key); apply pydict_keys_set_NoDup, Hacc.
Qed.

Lemma analyse_metrics_spec (rows : list SampledParams) (columns : list string)
  (metrics_data : PyDict.t string (PyDict.t nat scalar)) :
  forall (acc out : PyDict.t string sensitivity_table),
    analyse_metrics pearsonr rows columns metrics_data acc = ok out ->
    forall (metric : string) (table : sensitivity_table),
      (metric, table) ∈ out ->
      (metric, table) ∈ acc \/
      exists values_dict,
        (metric, values_dict) ∈ metrics_data /\
        analyse_metric pearsonr rows columns values_dict = ok (Some table).
Proof.
  induction metrics_data as [|[name values_dict] rest IH];
    intros acc out Hrun metric table Hin.
  - injection Hrun as <-. auto.
  - simpl in Hrun.
    destruct (analyse_metric pearsonr rows columns values_dict)
      as [e|corr_df] eqn:Hmetric; [discriminate|].
    simpl in Hrun.
    destruct (IH _ _ Hrun metric table Hin) as [Hacc|(vd & Hvd & Hok)].
    + destruct corr_df as [corr_df|]; [|auto].
      apply pydict_elem_of_set in Hacc as [[-> ->]|Hacc]; [|auto].
      right. exists values_dict. split; [left | exact Hmetric].
    + right. exists vd. split; [right; exact Hvd | exact Hok].
Qed.

(** When [pearsonr] returns for every pair of series, so does the analysis. *)
Lemma analyse_metrics_total (rows : list SampledParams) (columns : list string) :
  (forall xs ys, exists r, pearsonr xs ys = ok r) ->
  forall (metrics_data : PyDict.t string (PyDict.t nat scalar))
         (acc : PyDict.t string sensitivity_table),
  exists out, analyse_metrics pearsonr rows columns metrics_data acc = ok out.
Proof.
  intros Hp.
  assert (Hcorr : forall index values cols acc,
             exists t, correlate pearsonr rows index values cols acc = ok t).
  { intros index values cols. induction cols as [|c cols IH]; intros acc;
      cbn [correlate].
    - eauto.
    - destruct (Nat.leb 2 (length (reindex rows c index))); [|apply IH].
      destruct (Hp (reindex rows c index) values) as [[corr p] ->].
      unfold rbind. apply IH. }
  induction metrics_data as [|[name values_dict] rest IH]; intros acc;
    cbn [analyse_metrics].
  - eauto.
  - unfold analyse_metric.
    destruct (Nat.ltb (length values_dict) 10); unfold rbind, ok; [apply IH|].
    destruct (Hcorr (PyDict.keys values_dict) (PyDict.values values_dict) columns [])
      as [t Ht]. unfold ok in Ht. rewrite Ht. destruct t; apply IH.
Qed.

(** The metrics with enough values for a table. *)
Definition analysed (metrics_data : PyDict.t string (PyDict.t nat scalar))
  : list string :=
  PyDict.keys (List.filter (fun entry => (10 <=? length (snd entry))%nat) metrics_data).

Lemma correlate_no_columns_or_rows (rows : list SampledParams) (index : list nat)
  (values : list scalar) (columns : list string) :
  forall acc table : sensitivity_table,
    correlate pearsonr rows index values columns acc = ok table ->
    (2 <= length index)%nat -> columns <> [] -> table <> [].
Proof.
  induction columns as [|c columns IH]; intros acc table Hrun Hlen Hcols;
    [congruence|].
  cbn [correlate] in Hrun.
  assert (Hlen' : (2 <=? length (reindex rows c index))%nat = true).
  { apply Nat.leb_le. unfold reindex. rewrite length_map. exact Hlen. }
  rewrite Hlen' in Hrun.
  destruct (pearsonr _ _) as [e|[corr p]]; [discriminate|]. unfold rbind in Hrun.
  destruct columns as [|c' columns].
  - injection Hrun as <-. destruct acc as [|[k v] acc]; simpl; [discriminate|].
    destruct (decide (k = c)); discriminate.
  - apply (IH _ _ Hrun Hlen). discriminate.
Qed.

Lemma analyse_metric_outcome (rows : list SampledParams) (columns : list string)
  (values_dict : PyDict.t nat scalar) (corr_df : option sensitivity_table) :
  analyse_metric pearsonr rows columns values_dict = ok corr_df ->
  match corr_df with
  | Some _ => (10 <= length values_dict)%nat /\ columns <> []
  | None => (length values_dict < 10)%nat \/ columns = []
  end.
Proof.
  unfold analyse_metric.
  destruct (length values_dict <? 10)%nat eqn:Hlen.
  - unfold ok. intros [= <-]. left. apply Nat.ltb_lt, Hlen.
  - apply Nat.ltb_ge in Hlen.
    destruct (correlate _ _ _ _ _ _) as [e|correlations] eqn:Hcorr; [discriminate|].
    unfold rbind, ok. destruct columns as [|c columns].
    + injection Hcorr as <-. intros [= <-]. right. reflexivity.
    + assert (Hne : correlations <> []).
      { apply (correlate_no_columns_or_rows _ _ _ _ _ _ Hcorr); [|discriminate].
        unfold PyDict.keys. rewrite length_map. lia. }
      destruct correlations; [congruence|]. intros [= <-].
      split; [exact Hlen | discriminate].
Qed.

Lemma analyse_metrics_keys (rows : list SampledParams) (columns : list string)
  (metrics_data : PyDict.t string (PyDict.t nat scalar)) :
  columns <> [] ->
  forall acc out : PyDict.t string sensitivity_table,
    NoDup (PyDict.keys acc ++ PyDict.keys metrics_data) ->
    analyse_metrics pearsonr rows columns metrics_data acc = ok out ->
    PyDict.keys out = PyDict.keys acc ++ analysed metrics_data.
Proof.
  intros Hcols. unfold analysed.
  induction metrics_data as [|[name values_dict] rest IH]; intros acc out Hnd Hrun.
  - injection Hrun as <-. simpl. rewrite app_nil_r. reflexivity.
  - cbn [analyse_metrics] in Hrun.
    destruct (analyse_metric pearsonr rows columns values_dict) as [e|corr_df]
      eqn:Hmetric; [discriminate|].
    unfold rbind in Hrun.
    pose proof (analyse_metric_outcome _ _ _ _ Hmetric) as Hout.
    assert (Hfresh : name ∉ PyDict.keys acc).
    { apply NoDup_app in Hnd as (_ & Hdisj & _). intros Hin.
      apply (Hdisj _ Hin). left. }
    cbn [List.filter snd]. destruct corr_df as [corr_df|].
    + destruct Hout as [Hlen _]. apply Nat.leb_le in Hlen. rewrite Hlen.
      rewrite (pydict_set_fresh _ _ _ Hfresh) in Hrun.
      assert (Hnd' : NoDup (PyDict.keys (acc ++ [(name, corr_df)])
                            ++ PyDict.keys rest)).
      { unfold PyDict.keys in *. rewrite List.map_app. simpl.
        rewrite <- app_assoc. exact Hnd. }
      rewrite (IH _ _ Hnd' Hrun).
      unfold PyDict.keys. rewrite List.map_app, <- app_assoc. reflexivity.
    + destruct Hout as [Hlen|Hnil]; [|congruence].
      apply Nat.leb_gt in Hlen. rewrite Hlen. apply IH; [|exact Hrun].
      unfold PyDict.keys in *. simpl in Hnd.
      apply NoDup_app in Hnd as (Hacc & Hdisj & Hrest).
      apply NoDup_cons in Hrest as [_ Hrest].
      apply NoDup_app. repeat split; auto.
      intros x Hx Hx'. apply (Hdisj x Hx). right. exact Hx'.
Qed.

Lemma analyse_metrics_no_columns (rows : list SampledParams)
  (metrics_data : PyDict.t string (PyDict.t nat scalar)) :
  forall acc out : PyDict.t string sensitivity_table,
    analyse_metrics pearsonr rows [] metrics_data acc = ok out -> out = acc.
Proof.
  induction metrics_data as [|[name values_dict] rest IH]; intros acc out Hrun.
  - injection Hrun as <-. reflexivity.
  - cbn [analyse_metrics] in Hrun. unfold analyse_metric in Hrun.
    destruct (length values_dict <? 10)%nat; cbn in Hrun; apply IH, Hrun.
Qed.

(** The file of a table. *)
Definition table_file (entry : string * sensitivity_table) : artifact :=
  sensitivity_csv (safe_name (fst entry)) (snd entry).

(** The loop that writes the tables: the files are written in the order of
    the tables up to the first write that raises, and nothing else
    changes. *)
Lemma save_tables_spec (tables : PyDict.t string sensitivity_table) :
  forall (s s' : state) (r : result unit),
    for_each tables
      (fun '(metric_name, corr_df) =>
         write write_file (sensitivity_csv (safe_name metric_name) corr_df)) s
    = (s', r) ->
    exists done : PyDict.t string sensitivity_table,
      saved s' = saved s ++ map table_file done /\
      done `prefix_of` tables /\
      (r = ok tt -> done = tables) /\
      (forall e, r = raise e ->
                 exists (a : artifact) (x : X), snd (write_file a x) = raise e) /\
      ((forall (a : artifact) (x : X), snd (write_file a x) = ok tt) -> r = ok tt) /\
      self_results s' = self_results s /\
      self_parameter_samples s' = self_parameter_samples s /\
      logged s' = logged s.
Proof.
  induction tables as [|[name t] tables IH]; intros s s' r; cbn [for_each].
  - intros [= <- <-]. exists []. simpl. rewrite app_nil_r.
    repeat split; auto; discriminate.
  - unfold bind at 1. unfold write at 1.
    destruct (write_file (sensitivity_csv (safe_name name) t) (ext s))
      as [x [e|[]]] eqn:Hw.
    + intros [= <- <-]. exists []. simpl. rewrite app_nil_r.
      repeat split; auto; try discriminate.
      * apply prefix_nil.
      * intros e' [= <-]. exists (sensitivity_csv (safe_name name) t), (ext s).
        rewrite Hw. reflexivity.
      * intros Hok. specialize (Hok (sensitivity_csv (safe_name name) t) (ext s)).
        rewrite Hw in Hok. discriminate.
    + intros Hrest.
      destruct (IH _ _ _ Hrest)
        as (done & Hsaved & Hpre & Hok & Hraise & Hret & Hres & Hsamples & Hlog).
      exists ((name, t) :: done).
      rewrite Hsaved, Hres, Hsamples, Hlog. cbn. rewrite <- app_assoc.
      repeat split; auto.
      * apply prefix_cons, Hpre.
      * intros Hr. rewrite (Hok Hr). reflexivity.
Qed.

Lemma generate_sensitivity_analysis_eq (s : state) :
  generate_sensitivity_analysis pearsonr write_file s =
  if (Nat.eqb (length (self_results s)) 0
      || Nat.eqb (length (self_parameter_samples s)) 0)%bool
  then (log Warning_no_sensitivity_data s, ok [])
  else
    match analyse_metrics pearsonr (self_parameter_samples s)
            (columns_of (self_parameter_samples s))
            (collect_metrics_data (self_results s)) [] with
    | inl e => (s, inl e)
    | inr tables =>
        match for_each tables
                (fun '(metric_name, corr_df) =>
                   write write_file
                     (sensitivity_csv (safe_name metric_name) corr_df)) s with
        | (s1, inr _) => (log Info_saved_sensitivity s1, ok tables)
        | (s1, inl e) => (s1, inl e)
        end
    end.
Proof.
  unfold generate_sensitivity_analysis. unfold bind at 1, gets. cbv beta iota.
  unfold ok at 1. cbv beta iota. unfold bind at 1. unfold ok at 1. cbv beta iota.
  destruct (Nat.eqb (length (self_results s)) 0
            || Nat.eqb (length (self_parameter_samples s)) 0)%bool; [reflexivity|].
  cbv zeta. unfold bind at 1, lift.
  destruct (analyse_metrics _ _ _ _ _) as [e|tables]; [reflexivity|].
  unfold bind at 1.
  match goal with |- context [for_each tables ?body s] =>
    destruct (for_each tables body s) as [s1 [e|[]]]
  end; reflexivity.
Qed.

(** What a correlation raises is an exception of [pearsonr]. *)
Lemma analyse_metrics_raises (rows : list SampledParams) (columns : list string) :
  forall (metrics_data : PyDict.t string (PyDict.t nat scalar))
         (acc : PyDict.t string sensitivity_table) (e : exn),
    analyse_metrics pearsonr rows columns metrics_data acc = raise e ->
    exists xs ys, pearsonr xs ys = raise e.
Proof.
  assert (Hcorr : forall index values cols acc e,
             correlate pearsonr rows index values cols acc = raise e ->
             exists xs ys, pearsonr xs ys = raise e).
  { intros index values cols. induction cols as [|c cols IH]; intros acc e;
      cbn [correlate]; [discriminate|].
    destruct (Nat.leb 2 (length (reindex rows c index))); [|apply IH].
    destruct (pearsonr (reindex rows c index) values) as [e'|[corr p]] eqn:Hp.
    - intros [= <-]. eauto.
    - unfold rbind. apply IH. }
  induction metrics_data as [|[name values_dict] rest IH]; intros acc e;
    cbn [analyse_metrics]; [discriminate|].
  unfold analyse_metric.
  destruct (Nat.ltb (length values_dict) 10); unfold rbind, ok; [apply IH|].
  destruct (correlate pearsonr rows (PyDict.keys values_dict)
              (PyDict.values values_dict) columns []) as [e'|t] eqn:Ht.
  - intros [= <-]. exact (Hcorr _ _ _ _ _ Ht).
  - destruct t; apply IH.
Qed.

(** C9.  When the analysis returns, the metrics that have a table are the
    metrics with at least 10 collected values, one value per iteration that
    has the metric: all of them, in the order in which they were first met,
    and no other (none at all when no parameter was sampled).  The table of
    a metric has one row per sampled parameter, holding the coefficient and
    the p-value [pearsonr] gives for the parameter's sampled values at the
    iterations of the metric against the metric's values, and the absolute
    coefficient; its rows are in descending order of absolute coefficient;
    and its file is written.  The analysis returns whenever [pearsonr] does
    and every file can be written; what it raises is an exception of
    [pearsonr] or of a write. *)
Theorem C9_sensitivity_tables :
  forall s : state,
    (forall (s' : state) (tables : PyDict.t string sensitivity_table),
        generate_sensitivity_analysis pearsonr write_file s = (s', ok tables) ->
        PyDict.keys tables =
          match columns_of (self_parameter_samples s) with
          | [] => []
          | _ :: _ => analysed (collect_metrics_data (self_results s))
          end /\
        forall (metric : string) (table : sensitivity_table),
          (metric, table) ∈ tables ->
          exists values_dict : PyDict.t nat scalar,
            PyDict.get (collect_metrics_data (self_results s)) metric
              = Some values_dict /\
            (10 <= length values_dict)%nat /\
            Permutation (PyDict.keys table)
              (columns_of (self_parameter_samples s)) /\
            Forall (row_computed (self_parameter_samples s) values_dict) table /\
            StronglySorted by_abs_correlation table /\
            sensitivity_csv (safe_name metric) table ∈ saved s')
    /\
    ((forall xs ys, exists r, pearsonr xs ys = ok r) ->
     (forall (a : artifact) (x : X), snd (write_file a x) = ok tt) ->
     exists (s' : state) (tables : PyDict.t string sensitivity_table),
       generate_sensitivity_analysis pearsonr write_file s = (s', ok tables))
    /\
    (forall (s' : state) (e : exn),
        generate_sensitivity_analysis pearsonr write_file s = (s', raise e) ->
        (exists xs ys, pearsonr xs ys = raise e) \/
        (exists (a : artifact) (x : X), snd (write_file a x) = raise e)).
Proof.
  intros s. rewrite generate_sensitivity_analysis_eq. split; [|split].
  - intros s' tables Hrun.
    destruct (Nat.eqb (length (self_results s)) 0
              || Nat.eqb (length (self_parameter_samples s)) 0)%bool eqn:Hempty.
    { injection Hrun as _ <-. split; [|intros metric table Hin; inversion Hin].
      apply Bool.orb_true_iff in Hempty as [Hruns|Hrows].
      - destruct (self_results s); [|discriminate].
        destruct (columns_of (self_parameter_samples s)); reflexivity.
      - destruct (self_parameter_samples s); [reflexivity | discriminate]. }
    destruct (analyse_metrics _ _ _ _ _) as [e|out] eqn:Han; [discriminate|].
    destruct (for_each out _ s) as [s1 r] eqn:Hloop.
    destruct (save_tables_spec out s s1 r Hloop)
      as (done & Hsaved & _ & Hok & _ & _ & _ & _ & _).
    destruct r as [e|[]]; [discriminate|].
    injection Hrun as <- <-. rewrite (Hok eq_refl) in Hsaved.
    split.
    + destruct (columns_of (self_parameter_samples s)) as [|c columns] eqn:Hcols.
      * apply analyse_metrics_no_columns in Han. subst out. reflexivity.
      * apply analyse_metrics_keys in Han; [exact Han | discriminate|].
        simpl. apply collect_metrics_data_NoDup.
    + intros metric table Hin.
      destruct (analyse_metrics_spec _ _ _ _ _ Han metric table Hin)
        as [Hnil|(values_dict & Hvd & Hmetric)]; [inversion Hnil|].
      destruct (analyse_metric_spec _ _ _ _ (columns_of_NoDup _) Hmetric)
        as (Hlen & Hperm & Hrows & Hsorted).
      exists values_dict. repeat split; auto.
      * apply pydict_get_elem_of; [apply collect_metrics_data_NoDup | exact Hvd].
      * cbn. rewrite Hsaved. apply elem_of_app. right.
        apply (list_elem_of_fmap_2 table_file out (metric, table) Hin).
  - intros Hp Hw.
    destruct (Nat.eqb (length (self_results s)) 0
              || Nat.eqb (length (self_parameter_samples s)) 0)%bool; [eauto|].
    destruct (analyse_metrics_total (self_parameter_samples s)
                (columns_of (self_parameter_samples s)) Hp
                (collect_metrics_data (self_results s)) []) as [out Hout].
    unfold ok in Hout. rewrite Hout.
    destruct (for_each out _ s) as [s1 r] eqn:Hloop.
    destruct (save_tables_spec out s s1 r Hloop) as (done & _ & _ & _ & _ & Hret & _).
    rewrite (Hret Hw). eauto.
  - intros s' e.
    destruct (Nat.eqb (length (self_results s)) 0
              || Nat.eqb (length (self_parameter_samples s)) 0)%bool;
      [discriminate|].
    destruct (analyse_metrics _ _ _ _ _) as [e'|out] eqn:Han.
    + intros [= _ <-]. left. exact (analyse_metrics_raises _ _ _ _ _ Han).
    + destruct (for_each out _ s) as [s1 r] eqn:Hloop.
      destruct (save_tables_spec out s s1 r Hloop) as (done & _ & _ & _ & Hraise & _).
      destruct r as [e'|[]]; [|discriminate].
      intros [= _ <-]. right. apply Hraise. reflexivity.
Qed.

End Sensitivity.

(** A stand-in for [pearsonr] in the examples: the scaled covariance
    [n * sum (x * y) - sum x * sum y], which has the sign of the coefficient,
    with p-value 0.  It raises on a value that is not a number. *)
Definition number (s : scalar) : result Q :=
  match s with
  | SInt z => ok (inject_Z z)
  | SFloat q => ok q
  | SBool b => ok (if b then 1%Q else 0%Q)
  | SStr _ | SNone => raise TypeError
  end.

Fixpoint sums (xs : list (option scalar)) (ys : list scalar)
  : result (Q * Q * Q) :=
  match xs, ys with
  | Some x :: xs, y :: ys =>
      try! x <- number x;
      try! y <- number y;
      try! acc <- sums xs ys;
      let '(sx, sy, sxy) := acc in
      ok ((sx + x)%Q, (sy + y)%Q, (sxy + x * y)%Q)
  | [], [] => ok (0%Q, 0%Q, 0%Q)
  | _, _ => raise (ValueError "x and y must have the same length")
  end.

Definition scaled_covariance (xs : list (option scalar)) (ys : list scalar)
  : result (Q * Q) :=
  try! acc <- sums xs ys;
  let '(sx, sy, sxy) := acc in
  ok ((inject_Z (Z.of_nat (length ys)) * sxy - sx * sy)%Q, 0%Q).

(** Ten recorded runs: iteration [i] sampled [b = 1] and [a = i], and its
    "Capacity" table ends with [capacity = 2 * i]. *)
Definition ten_samples (i : nat) : SampledParams :=
  [("b", SInt 1); ("a", SInt (Z.of_nat i))].

Definition ten_runs : @MonteCarlo.state nat nat nat :=
  {| MonteCarlo.self_results :=
       map (fun i =>
              {| iteration := i;
                 parameters := ten_samples i;
                 results :=
                   [("Capacity",
                     Some {| df_columns := ["capacity"];
                             df_rows := [[SInt (2 * Z.of_nat i)]] |})] |})
         (seq 0 10);
     MonteCarlo.self_parameter_samples := map ten_samples (seq 0 10);
     MonteCarlo.rng := 0%nat;
     MonteCarlo.ext := 0%nat;
     MonteCarlo.logged := [];
     MonteCarlo.saved := [];
     MonteCarlo.progress_updates := 10;
     MonteCarlo.progress_closed := true |}.

Definition ten_runs_ranking : sensitivity_table :=
  [("a", {| correlation := 1650; p_value := 0; abs_correlation := 1650 |});
   ("b", {| correlation := 0; p_value := 0; abs_correlation := 0 |})].

Section SensitivityExample.
Import MonteCarlo.

Lemma ten_runs_analysis :
  snd (generate_sensitivity_analysis scaled_covariance written ten_runs)
  = ok [("Capacity.capacity", ten_runs_ranking)] /\
  columns_of (self_parameter_samples ten_runs) = ["b"; "a"] /\
  saved (fst (generate_sensitivity_analysis scaled_covariance written ten_runs))
  = [sensitivity_csv "Capacity_capacity" ten_runs_ranking].
Proof. vm_compute. repeat split; reflexivity. Qed.

(** The theorem at the ten runs: the one metric with ten values,
    "Capacity.capacity", has the one table, with [a] ranked before [b]. *)
Lemma C9_sensitivity_tables_ten_runs :
  PyDict.keys [("Capacity.capacity", ten_runs_ranking)] =
    match columns_of (self_parameter_samples ten_runs) with
    | [] => []
    | _ :: _ => analysed (collect_metrics_data (self_results ten_runs))
    end /\
  forall (metric : string) (table : sensitivity_table),
    (metric, table) ∈ [("Capacity.capacity", ten_runs_ranking)] ->
    exists values_dict : PyDict.t nat scalar,
      PyDict.get (collect_metrics_data (self_results ten_runs)) metric
        = Some values_dict /\
      (10 <= length values_dict)%nat /\
      Permutation (PyDict.keys table)
        (columns_of (self_parameter_samples ten_runs)) /\
      Forall (row_computed scaled_covariance (self_parameter_samples ten_runs)
                values_dict) table /\
      StronglySorted by_abs_correlation table /\
      sensitivity_csv (safe_name metric) table
        ∈ saved (fst (generate_sensitivity_analysis scaled_covariance written
                        ten_runs)).
Proof.
  apply (proj1 (C9_sensitivity_tables scaled_covariance written ten_runs)
           (fst (generate_sensitivity_analysis scaled_covariance written ten_runs))
           [("Capacity.capacity", ten_runs_ranking)]).
  vm_compute. reflexivity.
Defined.

End SensitivityExample.

(** ** Deep copies on the heap *)

Section StoreFacts.
Import Store.

(** [o] holds the value [v]. *)
Definition refers (o : obj) (v : val) : Prop :=
  match o with
  | Dict d => exists key, d !! key = Some v
  | List xs => v ∈ xs
  end.

(** [v] is a scalar or an object allocated after [h0]. *)
Definition is_new (h0 h : heap) (v : val) : Prop :=
  match v with
  | Scalar _ => True
  | Ref y => (y ∉ dom h0) /\ (y ∈ dom h)
  end.

(** [v] is a scalar or an object of [h]. *)
Definition valid (h : heap) (v : val) : Prop :=
  match v with
  | Scalar _ => True
  | Ref l => l ∈ dom h
  end.

(** Every reference held by an object of [h] has its object in [h]. *)
Definition closed (h : heap) : Prop :=
  forall l o v, h !! l = Some o -> refers o v -> valid h v.

(** [h] is [h0] with new objects added: every object of [h0] is as it was,
    and the new objects hold only scalars and new objects. *)
Definition separated (h0 h : heap) : Prop :=
  (forall l, l ∈ dom h0 -> h !! l = h0 !! l) /\
  (forall l o v, l ∉ dom h0 -> h !! l = Some o -> refers o v -> is_new h0 h v).

Definition memo_new (h0 h : heap) (m : memo) : Prop :=
  forall l y, m !! l = Some y -> (y ∉ dom h0) /\ (y ∈ dom h).

Lemma reach_step (h : heap) (l : loc) (o : obj) (v : val) (l' : loc) :
  h !! l = Some o -> refers o v -> reach h v l' -> reach h (Ref l) l'.
Proof.
  destruct o as [d|xs]; simpl.
  - intros Hl [key Hkey] Hv. eapply reach_dict; eauto.
  - intros Hl Hin Hv. eapply reach_list; eauto.
Qed.

Lemma separated_refl (h : heap) : separated h h.
Proof.
  split; [auto|]. intros l o v Hl Hlook. exfalso. apply Hl.
  apply elem_of_dom. eauto.
Qed.

Lemma separated_dom (h0 h : heap) : separated h0 h -> dom h0 ⊆ dom h.
Proof.
  intros [Hold _] l Hl. apply elem_of_dom. rewrite (Hold l Hl).
  apply elem_of_dom. exact Hl.
Qed.

Lemma is_new_mono (h0 h h' : heap) (v : val) :
  dom h ⊆ dom h' -> is_new h0 h v -> is_new h0 h' v.
Proof. destruct v as [s|y]; simpl; [auto|]. intros Hsub [? ?]. split; auto. Qed.

Lemma memo_new_mono (h0 h h' : heap) (m : memo) :
  dom h ⊆ dom h' -> memo_new h0 h m -> memo_new h0 h' m.
Proof. intros Hsub Hm l y Hly. destruct (Hm l y Hly). split; auto. Qed.

Lemma separated_insert (h0 h : heap) (y : loc) (o : obj) :
  separated h0 h -> y ∉ dom h0 ->
  (forall v, refers o v -> is_new h0 (<[y := o]> h) v) ->
  separated h0 (<[y := o]> h).
Proof.
  intros [Hold Hnew] Hy Ho. split.
  - intros l Hl. rewrite lookup_insert_ne by (intros ->; auto). auto.
  - intros l o' v Hl Hlook Hv. destruct (decide (y = l)) as [->|Hne].
    + rewrite lookup_insert_eq in Hlook. injection Hlook as <-. auto.
    + rewrite lookup_insert_ne in Hlook by exact Hne.
      eapply is_new_mono; [|eapply Hnew; eauto].
      apply dom_insert_subseteq.
Qed.





Lemma for_each_preserves {S A : Type} (Q : S -> Prop) (body : A -> SE S unit)
  (xs : list A) :
  (forall x s, Q s -> Q (fst (body x s))) ->
  forall s, Q s -> Q (fst (for_each xs body s)).
Proof.
  intros Hbody. induction xs as [|x xs IH]; intros s Hs; simpl; [exact Hs|].
  unfold bind. specialize (Hbody x s Hs).
  destruct (body x s) as [s1 [e|u]]; simpl in *; auto.
Qed.

(** The state of a copy that started from [h0]. *)
Definition copying (h0 : heap) (st : memo * heap) : Prop :=
  separated h0 (snd st) /\ memo_new h0 (snd st) (fst st).

Lemma fill_key_copying (h0 : heap) (y : loc) (key : string) (v : val)
  (st : memo * heap) :
  y ∉ dom h0 -> copying h0 st -> is_new h0 (snd st) v ->
  copying h0 (fill_key y key v st) /\ dom (snd st) ⊆ dom (snd (fill_key y key v st)).
Proof.
  intros Hy [Hsep Hmemo] Hv. unfold fill_key.
  destruct (snd st !! y) as [[d|xs]|] eqn:Hlook; try (split; [split|]; auto; fail).
  assert (Hdom : dom (snd st) ⊆ dom (<[y := Dict (<[key := v]> d)]> (snd st)))
    by apply dom_insert_subseteq.
  split; [split|]; simpl; auto.
  - apply separated_insert; auto. intros v0 [k Hk].
    eapply is_new_mono; [exact Hdom|].
    destruct (decide (key = k)) as [->|Hne].
    + rewrite lookup_insert_eq in Hk. injection Hk as <-. exact Hv.
    + rewrite lookup_insert_ne in Hk by exact Hne.
      apply (proj2 Hsep y (Dict d) v0 Hy Hlook). exists k. exact Hk.
  - eapply memo_new_mono; eauto.
Qed.

Lemma fill_append_copying (h0 : heap) (y : loc) (v : val) (st : memo * heap) :
  y ∉ dom h0 -> copying h0 st -> is_new h0 (snd st) v ->
  copying h0 (fill_append y v st) /\ dom (snd st) ⊆ dom (snd (fill_append y v st)).
Proof.
  intros Hy [Hsep Hmemo] Hv. unfold fill_append.
  destruct (snd st !! y) as [[d|xs]|] eqn:Hlook; try (split; [split|]; auto; fail).
  assert (Hdom : dom (snd st) ⊆ dom (<[y := List (xs ++ [v])]> (snd st)))
    by apply dom_insert_subseteq.
  split; [split|]; simpl; auto.
  - apply separated_insert; auto. intros v0 Hin. simpl in Hin.
    eapply is_new_mono; [exact Hdom|].
    apply elem_of_app in Hin as [Hin|Hin].
    + apply (proj2 Hsep y (List xs) v0 Hy Hlook). exact Hin.
    + apply list_elem_of_singleton in Hin. subst v0. exact Hv.
  - eapply memo_new_mono; eauto.
Qed.

(** A copy only adds objects, and what it returns is new. *)
Lemma deepcopy_copying (h0 : heap) (fuel : nat) :
  forall (x : val) (st : memo * heap),
    copying h0 st ->
    copying h0 (fst (deepcopy fuel x st)) /\
    dom (snd st) ⊆ dom (snd (fst (deepcopy fuel x st))) /\
    (forall v, snd (deepcopy fuel x st) = ok v ->
               is_new h0 (snd (fst (deepcopy fuel x st))) v).
Proof.
  induction fuel as [|fuel IH]; intros x st Hst.
  - destruct x as [s|l]; simpl.
    + split; [exact Hst|]. split; [done|]. unfold ok. intros v [= <-]. exact I.
    + destruct (fst st !! l) as [y|] eqn:Hmemo; simpl.
      * split; [exact Hst|]. split; [done|]. unfold ok. intros v [= <-].
        exact (proj2 Hst l y Hmemo).
      * split; [exact Hst|]. split; [done|]. discriminate.
  - destruct x as [s|l]; cbn [deepcopy].
    + simpl. split; [exact Hst|]. split; [done|]. unfold ok. intros v [= <-].
      exact I.
    + destruct (fst st !! l) as [y|] eqn:Hmemo; simpl.
      { split; [exact Hst|]. split; [done|]. unfold ok. intros v [= <-].
        exact (proj2 Hst l y Hmemo). }
      set (y := fresh (dom (snd st))).
      assert (Hy : y ∉ dom (snd st)) by apply is_fresh.
      assert (Hy0 : y ∉ dom h0).
      { intros Hin. apply Hy. eapply separated_dom; [apply Hst | exact Hin]. }
      assert (Halloc : forall o, (forall v, ~ refers o v) ->
                 copying h0 (<[l := y]> (fst st), <[y := o]> (snd st))).
      { intros o Ho.
        assert (Hdom : dom (snd st) ⊆ dom (<[y := o]> (snd st)))
          by apply dom_insert_subseteq.
        split; simpl.
        - apply separated_insert; [apply Hst | exact Hy0|].
          intros v Hv. destruct (Ho v Hv).
        - intros l0 y0 Hl0. destruct (decide (l = l0)) as [->|Hne].
          + rewrite lookup_insert_eq in Hl0. injection Hl0 as <-.
            split; [exact Hy0|].
            apply elem_of_dom. rewrite lookup_insert_eq. eauto.
          + rewrite lookup_insert_ne in Hl0 by exact Hne.
            destruct (proj2 Hst l0 y0 Hl0) as [Hy0' Hyin'].
            split; [exact Hy0' | apply Hdom, Hyin']. }
      destruct (snd st !! l) as [[d|xs]|] eqn:Hlook.
      * (* a dictionary *)
        set (st1 := (<[l := y]> (fst st), <[y := Dict ∅]> (snd st))).
        set (body := fun '((key, v) : string * val) =>
                       do! v' <- deepcopy fuel v; modify (fill_key y key v')).
        set (Q := fun st' : memo * heap =>
                    copying h0 st' /\ dom (snd st1) ⊆ dom (snd st')).
        assert (HQ : Q (fst (for_each (map_to_list d) body st1))).
        { apply for_each_preserves.
          - intros [key v] st' [Hst' Hdom']. unfold body, bind, modify.
            destruct (IH v st' Hst') as (Hc & Hd & Hv).
            destruct (deepcopy fuel v st') as [st'' [e|v']]; cbn [fst snd] in *.
            + split; [exact Hc | etrans; [exact Hdom' | exact Hd]].
            + destruct (fill_key_copying h0 y key v' st'' Hy0 Hc (Hv v' eq_refl))
                as [Hc' Hd'].
              split; [exact Hc'|].
              etrans; [exact Hdom' | etrans; [exact Hd | exact Hd']].
          - split; [|done].
            apply Halloc. intros v [k Hk]. rewrite lookup_empty in Hk. discriminate. }
        assert (Hsub : dom (snd st) ⊆ dom (snd st1)) by apply dom_insert_subseteq.
        assert (Hyin : y ∈ dom (snd st1))
          by (apply elem_of_dom; simpl; rewrite lookup_insert_eq; eauto).
        clear IH Halloc.
        change (for_each (map_to_list d) _ st1)
          with (for_each (map_to_list d) body st1).
        unfold bind.
        destruct (for_each (map_to_list d) body st1) as [st2 [e|u]];
          destruct HQ as [HQ1 HQ2]; cbn [fst snd] in HQ1, HQ2; simpl.
        -- split; [exact HQ1|]. split; [etrans; eassumption | unfold ok; discriminate].
        -- split; [exact HQ1|]. split; [etrans; eassumption|].
           unfold ok. intros v [= <-]. split; [exact Hy0 | apply HQ2, Hyin].
      * (* a list *)
        set (st1 := (<[l := y]> (fst st), <[y := List []]> (snd st))).
        set (body := fun v : val =>
                       do! v' <- deepcopy fuel v; modify (fill_append y v')).
        set (Q := fun st' : memo * heap =>
                    copying h0 st' /\ dom (snd st1) ⊆ dom (snd st')).
        assert (HQ : Q (fst (for_each xs body st1))).
        { apply for_each_preserves.
          - intros v st' [Hst' Hdom']. unfold body, bind, modify.
            destruct (IH v st' Hst') as (Hc & Hd & Hv).
            destruct (deepcopy fuel v st') as [st'' [e|v']]; cbn [fst snd] in *.
            + split; [exact Hc | etrans; [exact Hdom' | exact Hd]].
            + destruct (fill_append_copying h0 y v' st'' Hy0 Hc (Hv v' eq_refl))
                as [Hc' Hd'].
              split; [exact Hc'|].
              etrans; [exact Hdom' | etrans; [exact Hd | exact Hd']].
          - split; [|done].
            apply Halloc. intros v Hin. simpl in Hin. inversion Hin. }
        assert (Hsub : dom (snd st) ⊆ dom (snd st1)) by apply dom_insert_subseteq.
        assert (Hyin : y ∈ dom (snd st1))
          by (apply elem_of_dom; simpl; rewrite lookup_insert_eq; eauto).
        clear IH Halloc.
        change (for_each xs _ st1) with (for_each xs body st1).
        unfold bind.
        destruct (for_each xs body st1) as [st2 [e|u]];
          destruct HQ as [HQ1 HQ2]; cbn [fst snd] in HQ1, HQ2; simpl.
        -- split; [exact HQ1|]. split; [etrans; eassumption | unfold ok; discriminate].
        -- split; [exact HQ1|]. split; [etrans; eassumption|].
           unfold ok. intros v [= <-]. split; [exact Hy0 | apply HQ2, Hyin].
      * simpl. split; [exact Hst|]. split; [done | unfold ok, raise; discriminate].
Qed.






(** *** What a copy holds *)

(** [v'] is [v] with the object it refers to replaced by its copy. *)
Definition renamed (m : memo) (v v' : val) : Prop :=
  match v with
  | Scalar s => v' = Scalar s
  | Ref l => exists y, m !! l = Some y /\ v' = Ref y
  end.

(** [o'] is [o] with every reference replaced by a reference to the copy:
    the same keys with renamed values, the same length with renamed
    elements. *)
Definition copied (m : memo) (o o' : obj) : Prop :=
  match o, o' with
  | Dict d, Dict d' =>
      forall key, match d !! key, d' !! key with
                  | Some v, Some v' => renamed m v v'
                  | None, None => True
                  | _, _ => False
                  end
  | List xs, List xs' => Forall2 (renamed m) xs xs'
  | _, _ => False
  end.

(** Two outcomes of a read that agree up to the renaming: the same
    exception, the same scalar, or an object and its copy. *)
Definition similar (m : memo) (r r' : result val) : Prop :=
  match r, r' with
  | inl e, inl e' => e = e'
  | inr v, inr v' => renamed m v v'
  | _, _ => False
  end.

(** No two objects have the same copy. *)
Definition one_to_one (m : memo) : Prop :=
  forall l1 l2 y, m !! l1 = Some y -> m !! l2 = Some y -> l1 = l2.

(** The state of a copy of objects of [h0]: the objects of [h0] are as they
    were, the memo sends objects of [h0] to new objects, one to one, and
    every object of the memo that is not being filled, those of [filling]
    are, has its finished copy. *)
Definition copy_inv (h0 : heap) (filling : gset loc) (st : memo * heap) : Prop :=
  (h0 ⊆ snd st) /\
  (forall l y, fst st !! l = Some y ->
               (l ∈ dom h0) /\ (y ∉ dom h0) /\ (y ∈ dom (snd st))) /\
  one_to_one (fst st) /\
  (forall l y, fst st !! l = Some y -> l ∉ filling ->
               exists o o', h0 !! l = Some o /\ snd st !! y = Some o' /\
                            copied (fst st) o o').

Lemma renamed_mono (m m' : memo) (v v' : val) :
  m ⊆ m' -> renamed m v v' -> renamed m' v v'.
Proof.
  intros Hsub. destruct v as [s|l]; simpl; [auto|].
  intros (y & Hy & ->). exists y. split; [|reflexivity].
  eapply lookup_weaken; eauto.
Qed.

Lemma copied_mono (m m' : memo) (o o' : obj) :
  m ⊆ m' -> copied m o o' -> copied m' o o'.
Proof.
  intros Hsub. destruct o as [d|xs], o' as [d'|xs']; simpl; auto.
  - intros H key. specialize (H key).
    destruct (d !! key), (d' !! key); auto. eapply renamed_mono; eauto.
  - intros H. eapply Forall2_impl; [exact H|].
    intros v v'. apply renamed_mono, Hsub.
Qed.

(** Filling the copy of an object that is being filled keeps the state of
    the copy. *)
Lemma copy_inv_fill (h0 : heap) (filling : gset loc) (m : memo) (h : heap)
  (l y : loc) (o : obj) :
  copy_inv h0 filling (m, h) -> m !! l = Some y -> l ∈ filling ->
  copy_inv h0 filling (m, <[y := o]> h).
Proof.
  intros (Hold & Hmemo & Hinj & Hdone) Hl Hfill. cbn [fst snd] in *.
  destruct (Hmemo l y Hl) as (_ & Hy0 & _).
  split; [|split; [|split]]; cbn [fst snd].
  - apply insert_subseteq_r; [apply not_elem_of_dom, Hy0 | exact Hold].
  - intros l1 y1 H1. destruct (Hmemo l1 y1 H1) as (? & ? & ?).
    repeat split; auto. apply dom_insert_subseteq. assumption.
  - exact Hinj.
  - intros l1 y1 H1 Hn. destruct (Hdone l1 y1 H1 Hn) as (o1 & o1' & ? & ? & ?).
    exists o1, o1'. repeat split; auto.
    rewrite lookup_insert_ne; [assumption|].
    intros <-. apply Hn. rewrite (Hinj l1 l y H1 Hl). exact Hfill.
Qed.

(** A loop that returns establishes, entry after entry, what its steps
    establish. *)
Lemma for_each_steps {S A : Type} (I : list A -> S -> Prop)
  (body : A -> SE S unit) (xs : list A) :
  (forall done x s s',
      x ∈ xs -> I done s -> body x s = (s', ok tt) -> I (done ++ [x]) s') ->
  forall s s', I [] s -> for_each xs body s = (s', ok tt) -> I xs s'.
Proof.
  intros Hstep.
  assert (H : forall todo done s s',
             (forall x, x ∈ todo -> x ∈ xs) -> I done s ->
             for_each todo body s = (s', ok tt) -> I (done ++ todo) s').
  { induction todo as [|x todo IH]; intros done s s' Hin Hs Hrun.
    - injection Hrun as <-. rewrite app_nil_r. exact Hs.
    - cbn [for_each] in Hrun. unfold bind in Hrun.
      destruct (body x s) as [s1 [e|[]]] eqn:Hx; [discriminate|].
      replace (done ++ x :: todo) with ((done ++ [x]) ++ todo)
        by (rewrite <- app_assoc; reflexivity).
      apply (IH _ s1); [intros x' Hx'; apply Hin; right; exact Hx' | | exact Hrun].
      apply (Hstep done x s s1); [apply Hin; left | exact Hs | exact Hx]. }
  intros s s' Hs Hrun. exact (H xs [] s s' (fun x Hx => Hx) Hs Hrun).
Qed.

(** A copy that returns leaves the state of a copy, only adds to the memo
    and to the heap, and returns the renaming of its argument. *)
Lemma deepcopy_content (h0 : heap) :
  closed h0 ->
  forall (fuel : nat) (x : val) (st st' : memo * heap) (v : val)
         (filling : gset loc),
    copy_inv h0 filling st -> valid h0 x ->
    deepcopy fuel x st = (st', ok v) ->
    copy_inv h0 filling st' /\ (fst st ⊆ fst st') /\ (snd st ⊆ snd st') /\
    renamed (fst st') x v.
Proof.
  intros Hclosed. induction fuel as [|fuel IH]; intros x st st' v filling Hst Hx.
  - destruct x as [s|l]; simpl.
    + intros [= <- <-]. split; [exact Hst|]. repeat split; reflexivity.
    + destruct (fst st !! l) as [y|] eqn:Hmemo; [|discriminate].
      intros [= <- <-]. split; [exact Hst|].
      split; [reflexivity|]. split; [reflexivity|]. exists y. auto.
  - destruct x as [s|l]; cbn [deepcopy].
    + intros [= <- <-]. split; [exact Hst|]. repeat split; reflexivity.
    + destruct (fst st !! l) as [y|] eqn:Hmemo.
      { intros [= <- <-]. split; [exact Hst|].
        split; [reflexivity|]. split; [reflexivity|]. exists y. auto. }
      destruct st as [m h]. cbn [fst snd] in *.
      destruct Hst as (Hold & Hm & Hinj & Hdone). cbn [fst snd] in *.
      set (y := fresh (dom h)).
      assert (Hy : y ∉ dom h) by apply is_fresh.
      assert (Hy0 : y ∉ dom h0).
      { intros Hin. apply Hy. apply elem_of_dom in Hin as [o Ho].
        apply elem_of_dom. exists o. eapply lookup_weaken; eauto. }
      simpl in Hx. apply elem_of_dom in Hx as Hobj. destruct Hobj as [o Ho].
      rewrite (lookup_weaken _ _ _ _ Ho Hold).
      assert (Hmsub : m ⊆ <[l := y]> m) by (apply insert_subseteq, Hmemo).
      assert (Halloc : forall o1,
                 copy_inv h0 (filling ∪ {[l]}) (<[l := y]> m, <[y := o1]> h)).
      { intros o1. split; [|split; [|split]]; cbn [fst snd].
        - apply insert_subseteq_r; [apply not_elem_of_dom, Hy0 | exact Hold].
        - intros l1 y1 H1. apply lookup_insert_Some in H1 as [[<- <-]|[Hne H1]].
          + repeat split; auto. apply elem_of_dom. rewrite lookup_insert_eq. eauto.
          + destruct (Hm l1 y1 H1) as (? & ? & ?). repeat split; auto.
            apply dom_insert_subseteq. assumption.
        - intros l1 l2 y1 H1 H2.
          apply lookup_insert_Some in H1 as [[E1 E1']|[Hne1 H1]];
            apply lookup_insert_Some in H2 as [[E2 E2']|[Hne2 H2]].
          + congruence.
          + rewrite <- E1' in H2. destruct (Hm l2 y H2) as (_ & _ & Hin).
            contradiction.
          + rewrite <- E2' in H1. destruct (Hm l1 y H1) as (_ & _ & Hin).
            contradiction.
          + eapply Hinj; eauto.
        - intros l1 y1 H1 Hn.
          apply lookup_insert_Some in H1 as [[<- <-]|[Hne H1]].
          + exfalso. apply Hn. apply elem_of_union_r, elem_of_singleton. reflexivity.
          + destruct (Hdone l1 y1 H1) as (o2 & o2' & ? & ? & ?).
            { intros Hin. apply Hn, elem_of_union_l, Hin. }
            exists o2, o2'. repeat split; auto.
            * rewrite lookup_insert_ne; [assumption|].
              intros <-. destruct (Hm l1 y H1) as (_ & _ & Hin). contradiction.
            * eapply copied_mono; eauto. }
      assert (Hfinish : forall (st2 : memo * heap) (o2 : obj),
                 copy_inv h0 (filling ∪ {[l]}) st2 ->
                 (<[l := y]> m ⊆ fst st2) -> (h ⊆ snd st2) ->
                 snd st2 !! y = Some o2 -> copied (fst st2) o o2 ->
                 copy_inv h0 filling st2 /\ (m ⊆ fst st2) /\ (h ⊆ snd st2) /\
                 renamed (fst st2) (Ref l) (Ref y)).
      { intros st2 o2 (Hold2 & Hm2 & Hinj2 & Hdone2) Hsub2 Hh2 Hy2 Hcopied.
        assert (Hly : fst st2 !! l = Some y).
        { eapply lookup_weaken; [|exact Hsub2]. apply lookup_insert_eq. }
        split; [|split; [|split]].
        - split; [exact Hold2|]. split; [exact Hm2|]. split; [exact Hinj2|].
          intros l1 y1 H1 Hn. destruct (decide (l1 = l)) as [->|Hne].
          + rewrite Hly in H1. injection H1 as <-. exists o, o2. auto.
          + apply (Hdone2 l1 y1 H1). intros Hin.
            apply elem_of_union in Hin as [Hin|Hin]; [auto|].
            apply elem_of_singleton in Hin. auto.
        - etrans; eassumption.
        - exact Hh2.
        - exists y. auto. }
      assert (Hchild : forall (v0 : val) (st1 st2 : memo * heap) (v1 : val),
                 refers o v0 ->
                 copy_inv h0 (filling ∪ {[l]}) st1 ->
                 deepcopy fuel v0 st1 = (st2, ok v1) ->
                 copy_inv h0 (filling ∪ {[l]}) st2 /\ (fst st1 ⊆ fst st2) /\
                 (snd st1 ⊆ snd st2) /\ renamed (fst st2) v0 v1).
      { intros v0 st1 st2 v1 Hv0 Hst1 Hrun.
        exact (IH v0 st1 st2 v1 _ Hst1 (Hclosed l o v0 Ho Hv0) Hrun). }
      clear IH.
      destruct o as [d|xs].
      * (* a dictionary *)
        unfold bind at 1.
        match goal with |- context [for_each (map_to_list d) ?b ?s1] =>
          set (body := b); set (st1 := s1)
        end.
        destruct (for_each (map_to_list d) body st1) as [st2 [e|[]]] eqn:Hloop;
          [discriminate|].
        intros [= <- <-].
        pose (J := fun (done : list (string * val)) (st' : memo * heap) =>
                     copy_inv h0 (filling ∪ {[l]}) st' /\
                     (<[l := y]> m ⊆ fst st') /\ (h ⊆ snd st') /\
                     exists dy, snd st' !! y = Some (Dict dy) /\
                       forall key, match dy !! key with
                                   | Some v' => exists v0, (key, v0) ∈ done /\
                                                           renamed (fst st') v0 v'
                                   | None => forall v0, (key, v0) ∉ done
                                   end).
        assert (HI : J (map_to_list d) st2).
        { apply (for_each_steps J body (map_to_list d)) with (s := st1);
            [| |exact Hloop].
          - intros done [key v0] s s' Hin (Hs & Hms & Hhs & dy & Hdy & Hkeys) Hbody.
            unfold body, bind, modify in Hbody.
            destruct (deepcopy fuel v0 s) as [s1 [e|v1]] eqn:Hcopy; [discriminate|].
            injection Hbody as <-.
            apply elem_of_map_to_list in Hin.
            destruct (Hchild v0 s s1 v1 ltac:(exists key; exact Hin) Hs Hcopy)
              as (Hs1 & Hm1 & Hh1 & Hv1).
            unfold fill_key. rewrite (lookup_weaken _ _ _ _ Hdy Hh1).
            destruct s1 as [m1 h1]. cbn [fst snd] in *.
            assert (Hly : m1 !! l = Some y).
            { eapply lookup_weaken; [apply lookup_insert_eq|]. etrans; eassumption. }
            split; [|split; [|split]]; cbn [fst snd].
            + apply (copy_inv_fill h0 _ m1 h1 l y _ Hs1 Hly).
              apply elem_of_union_r, elem_of_singleton. reflexivity.
            + etrans; eassumption.
            + apply insert_subseteq_r; [apply not_elem_of_dom, Hy|].
              etrans; eassumption.
            + exists (<[key := v1]> dy). rewrite lookup_insert_eq.
              split; [reflexivity|]. intros k.
              destruct (decide (key = k)) as [<-|Hne].
              * rewrite lookup_insert_eq. exists v0.
                split; [apply elem_of_app; right; left | exact Hv1].
              * rewrite lookup_insert_ne by exact Hne. specialize (Hkeys k).
                destruct (dy !! k) as [v'|].
                -- destruct Hkeys as (v2 & Hin2 & Hr2). exists v2.
                   split; [apply elem_of_app; left; exact Hin2|].
                   eapply renamed_mono; eauto.
                -- intros v2 Hin2. apply elem_of_app in Hin2 as [Hin2|Hin2].
                   ++ exact (Hkeys v2 Hin2).
                   ++ apply list_elem_of_singleton in Hin2. congruence.
          - split; [apply Halloc|]. split; [reflexivity|].
            split; [apply insert_subseteq, not_elem_of_dom, Hy|].
            exists ∅. unfold st1. cbn [snd]. rewrite lookup_insert_eq. split; [reflexivity|].
            intros key. rewrite lookup_empty. intros v0 Hin. inversion Hin. }
        destruct HI as (Hs2 & Hm2 & Hh2 & dy & Hdy & Hkeys).
        apply (Hfinish st2 (Dict dy) Hs2 Hm2 Hh2 Hdy).
        intros key. specialize (Hkeys key).
        destruct (dy !! key) as [v'|].
        -- destruct Hkeys as (v0 & Hin & Hr).
           apply elem_of_map_to_list in Hin. rewrite Hin. exact Hr.
        -- destruct (d !! key) as [v0|] eqn:Hk; [|exact I].
           apply (Hkeys v0). apply elem_of_map_to_list. exact Hk.
      * (* a list *)
        unfold bind at 1.
        match goal with |- context [for_each xs ?b ?s1] =>
          set (body := b); set (st1 := s1)
        end.
        destruct (for_each xs body st1) as [st2 [e|[]]] eqn:Hloop; [discriminate|].
        intros [= <- <-].
        pose (J := fun (done : list val) (st' : memo * heap) =>
                     copy_inv h0 (filling ∪ {[l]}) st' /\
                     (<[l := y]> m ⊆ fst st') /\ (h ⊆ snd st') /\
                     exists ly, snd st' !! y = Some (List ly) /\
                                Forall2 (renamed (fst st')) done ly).
        assert (HI : J xs st2).
        { apply (for_each_steps J body xs) with (s := st1); [| |exact Hloop].
          - intros done v0 s s' Hin (Hs & Hms & Hhs & ly & Hly' & Hall) Hbody.
            unfold body, bind, modify in Hbody.
            destruct (deepcopy fuel v0 s) as [s1 [e|v1]] eqn:Hcopy; [discriminate|].
            injection Hbody as <-.
            destruct (Hchild v0 s s1 v1 Hin Hs Hcopy) as (Hs1 & Hm1 & Hh1 & Hv1).
            unfold fill_append. rewrite (lookup_weaken _ _ _ _ Hly' Hh1).
            destruct s1 as [m1 h1]. cbn [fst snd] in *.
            assert (Hly : m1 !! l = Some y).
            { eapply lookup_weaken; [apply lookup_insert_eq|]. etrans; eassumption. }
            split; [|split; [|split]]; cbn [fst snd].
            + apply (copy_inv_fill h0 _ m1 h1 l y _ Hs1 Hly).
              apply elem_of_union_r, elem_of_singleton. reflexivity.
            + etrans; eassumption.
            + apply insert_subseteq_r; [apply not_elem_of_dom, Hy|].
              etrans; eassumption.
            + exists (ly ++ [v1]). rewrite lookup_insert_eq. split; [reflexivity|].
              apply Forall2_app; [|repeat constructor; exact Hv1].
              eapply Forall2_impl; [exact Hall|].
              intros a b. apply renamed_mono, Hm1.
          - split; [apply Halloc|]. split; [reflexivity|].
            split; [apply insert_subseteq, not_elem_of_dom, Hy|].
            exists []. unfold st1. cbn [snd]. rewrite lookup_insert_eq. split; [reflexivity|].
            constructor. }
        destruct HI as (Hs2 & Hm2 & Hh2 & ly & Hly & Hall).
        apply (Hfinish st2 (List ly) Hs2 Hm2 Hh2 Hly). exact Hall.
Qed.

(** The copy reads like the original: along every path, the same
    exception, the same scalar, or an object and its copy. *)
Lemma similar_reads (h0 h1 : heap) (m : memo) :
  copy_inv h0 ∅ (m, h1) ->
  forall (path : ParameterPath) (v v' : val),
    renamed m v v' ->
    similar m (get_nested_param h0 v path) (get_nested_param h1 v' path).
Proof.
  intros (_ & _ & _ & Hdone). cbn [fst snd] in Hdone.
  induction path as [|key rest IH]; intros v v' Hv; [exact Hv|].
  destruct v as [s|l]; simpl in Hv.
  - subst v'. reflexivity.
  - destruct Hv as (y & Hy & ->).
    destruct (Hdone l y Hy) as (o & o' & Ho & Ho' & Hcopied);
      [apply not_elem_of_empty|].
    cbn [get_nested_param getitem]. rewrite Ho, Ho'.
    destruct o as [d|xs], o' as [d'|xs']; simpl in Hcopied; try contradiction;
      [|reflexivity].
    specialize (Hcopied key).
    destruct (d !! key) as [c|], (d' !! key) as [c'|]; try contradiction;
      [|reflexivity].
    simpl. apply IH, Hcopied.
Qed.



(** What the deep copy of [_apply_samples] returns. *)
Lemma copy_deepcopy_content (fuel : nat) (config c : val) (h h1 : heap) :
  closed h -> valid h config ->
  copy_deepcopy fuel config h = (h1, ok c) ->
  exists m : memo, copy_inv h ∅ (m, h1) /\ renamed m config c.
Proof.
  intros Hclosed Hvalid. unfold copy_deepcopy.
  destruct (deepcopy fuel config (∅, h)) as [[m h'] r] eqn:Hcopy.
  intros [= <- ->].
  destruct (deepcopy_content h Hclosed fuel config (∅, h) (m, h') c ∅)
    as (Hinv & _ & _ & Hc); auto.
  { split; [reflexivity|]. cbn [fst snd].
    split; [intros l y Hl; rewrite lookup_empty in Hl; discriminate|].
    split; intros l y; intros; rewrite lookup_empty in *; discriminate. }
  exists m. auto.
Qed.

(** *** The assignments of an iteration *)

(** The entry a path leads to: the dictionary that the keys before the last
    lead to, and the last key. *)
Definition entry_of (h : heap) (config : val) (path : ParameterPath)
  : option (loc * string) :=
  match get_nested_param h config (removelast path), last path with
  | inr (Ref l), Some key => Some (l, key)
  | _, _ => None
  end.

(** The entries that the loop of [_apply_samples] assigns, with the values
    it assigns, in its order: one per distribution that has a sample. *)
Fixpoint assignments (h : heap) (config : val)
  (dists : list ParameterDistribution) (samples : SampledParams)
  : list ((loc * string) * scalar) :=
  match dists with
  | [] => []
  | param :: rest =>
      match PyDict.get samples (join_path (param_path param)),
            entry_of h config (param_path param) with
      | Some sample_value, Some entry =>
          (entry, sample_value) :: assignments h config rest samples
      | _, _ => assignments h config rest samples
      end
  end.

(** The value an entry holds after the assignments: the last one assigned
    to it, if any. *)
Definition assigned_value (assigned : list ((loc * string) * scalar))
  (entry : loc * string) : option scalar :=
  fold_left (fun acc a => if decide (fst a = entry) then Some (snd a) else acc)
    assigned None.

(** What a subscript returns in [h] once the assignments are made. *)
Definition getitem_after (h : heap) (assigned : list ((loc * string) * scalar))
  (l : loc) (key : string) : result val :=
  match assigned_value assigned (l, key) with
  | Some v => ok (Scalar v)
  | None => getitem h (Ref l) key
  end.

Lemma assigned_value_snoc (assigned : list ((loc * string) * scalar))
  (entry entry' : loc * string) (v : scalar) :
  assigned_value (assigned ++ [(entry', v)]) entry =
  if decide (entry' = entry) then Some v else assigned_value assigned entry.
Proof. unfold assigned_value. rewrite fold_left_app. reflexivity. Qed.

(** A walk that ends at an object has read no assigned entry: an assigned
    entry holds a scalar. *)
Lemma walk_before_assignments (h1 h : heap)
  (assigned : list ((loc * string) * scalar)) :
  (forall l key, getitem h (Ref l) key = getitem_after h1 assigned l key) ->
  forall (path : ParameterPath) (config : val) (t : loc),
    get_nested_param h config path = ok (Ref t) ->
    get_nested_param h1 config path = ok (Ref t) /\
    (forall entry, entry ∈ trail h1 config path ->
                   assigned_value assigned entry = None).
Proof.
  intros Hafter. induction path as [|key rest IH]; intros config t Hget.
  - split; [exact Hget|]. intros entry Hin. inversion Hin.
  - destruct config as [s|l]; [discriminate|].
    cbn [get_nested_param trail] in *.
    rewrite Hafter in Hget. unfold getitem_after in Hget.
    destruct (assigned_value assigned (l, key)) as [v|] eqn:Hassigned.
    { simpl in Hget. destruct rest; discriminate. }
    destruct (getitem h1 (Ref l) key) as [e|child]; [discriminate|].
    simpl in Hget. destruct (IH child t Hget) as [Hget1 Htrail].
    split; [exact Hget1|].
    intros entry Hin. apply elem_of_cons in Hin as [->|Hin]; auto.
Qed.

(** The loop of [_apply_samples]: when it returns, every subscript returns
    the last value assigned to its entry, and what it returned in the copy
    when the entry was not assigned. *)
Lemma apply_loop_content (h1 : heap) (c : val) (samples : SampledParams)
  (dists : list ParameterDistribution) :
  forall (h h' : heap) (assigned : list ((loc * string) * scalar)),
    (forall l key, getitem h (Ref l) key = getitem_after h1 assigned l key) ->
    dom h = dom h1 ->
    for_each dists
      (fun param =>
         match PyDict.get samples (join_path (param_path param)) with
         | Some sample_value =>
             update (fun h => set_nested_param h c (param_path param)
                                (Scalar sample_value))
         | None => ret tt
         end) h = (h', ok tt) ->
    (forall l key,
        getitem h' (Ref l) key
        = getitem_after h1 (assigned ++ assignments h1 c dists samples) l key) /\
    dom h' = dom h1 /\
    Forall (fun param =>
              PyDict.get samples (join_path (param_path param)) <> None ->
              entry_of h1 c (param_path param) <> None) dists.
Proof.
  induction dists as [|param rest IH]; intros h h' assigned Hafter Hdom Hrun.
  - injection Hrun as <-. simpl. rewrite app_nil_r. auto.
  - cbn [for_each assignments] in *. unfold bind in Hrun.
    destruct (PyDict.get samples (join_path (param_path param))) as [v|]
      eqn:Hsample.
    2:{ destruct (IH h h' assigned Hafter Hdom Hrun) as (H1 & H2 & H3).
        split; [exact H1|]. split; [exact H2|]. constructor; [intros H; exfalso; apply H; exact Hsample | exact H3]. }
    unfold update in Hrun.
    destruct (set_nested_param h c (param_path param) (Scalar v)) as [e|h2]
      eqn:Hset; [discriminate|].
    destruct (set_nested_param_returns h h2 c _ _ Hset)
      as (pre & key & l & d & Hpath & Hpre & Hl & ->).
    destruct (walk_before_assignments h1 h assigned Hafter pre c l Hpre)
      as [Hpre1 _].
    unfold entry_of. rewrite Hpath, removelast_last, last_snoc, Hpre1.
    cbv beta iota delta [ok] in Hrun |- *.
    replace (assigned ++ ((l, key), v) :: assignments h1 c rest samples)
      with ((assigned ++ [((l, key), v)]) ++ assignments h1 c rest samples)
      by (rewrite <- app_assoc; reflexivity).
    assert (Hentry : entry_of h1 c (param_path param) <> None).
    { unfold entry_of. rewrite Hpath, removelast_last, last_snoc, Hpre1.
      discriminate. }
    destruct (IH (<[l := Dict (<[key := Scalar v]> d)]> h) h'
                (assigned ++ [((l, key), v)])) as (H1 & H2 & H3);
      [| |exact Hrun|split; [exact H1|]; split; [exact H2|];
                     constructor; [intros _; exact Hentry | exact H3]].
    + intros l0 k0. rewrite (getitem_assigned h l d key (Scalar v) l0 k0 Hl).
      unfold getitem_after. rewrite assigned_value_snoc.
      destruct (decide ((l0, k0) = (l, key))) as [Heq|Hne].
      * rewrite decide_True by congruence. reflexivity.
      * rewrite decide_False by congruence. apply Hafter.
    + rewrite dom_insert_L, <- Hdom.
      apply subseteq_union_1_L, singleton_subseteq_l, (elem_of_dom_2 _ _ _ Hl).
Qed.

(** [_apply_samples], when it returns: the configuration it returns is the
    deep copy of the base configuration, and the heap it leaves is the heap
    of the copy with the samples assigned. *)
Lemma apply_samples_content (fuel : nat) (dists : list ParameterDistribution)
  (config c : val) (samples : SampledParams) (h h' : heap) :
  closed h -> valid h config ->
  _apply_samples fuel dists config samples h = (h', ok c) ->
  exists (m : memo) (h1 : heap),
    copy_deepcopy fuel config h = (h1, ok c) /\
    copy_inv h ∅ (m, h1) /\ renamed m config c /\
    (forall l key,
        getitem h' (Ref l) key
        = getitem_after h1 (assignments h1 c dists samples) l key) /\
    dom h' = dom h1 /\
    Forall (fun param =>
              PyDict.get samples (join_path (param_path param)) <> None ->
              entry_of h1 c (param_path param) <> None) dists.
Proof.
  intros Hclosed Hvalid. unfold _apply_samples. unfold bind at 1.
  destruct (copy_deepcopy fuel config h) as [h1 [e|c1]] eqn:Hcopy; [discriminate|].
  unfold bind at 1.
  match goal with |- context [for_each dists ?body h1] =>
    destruct (for_each dists body h1) as [h2 [e|[]]] eqn:Hloop
  end; [discriminate|].
  intros [= <- <-].
  destruct (copy_deepcopy_content fuel config c1 h h1 Hclosed Hvalid Hcopy)
    as (m & Hinv & Hc).
  exists m, h1. split; [reflexivity|]. split; [exact Hinv|]. split; [exact Hc|].
  apply (apply_loop_content h1 c1 samples dists h1 h2 []); auto.
Qed.




(** The assignments are those of the distributions that have a sample and
    whose path leads to an entry. *)
Lemma in_assignments (h : heap) (config : val) (samples : SampledParams)
  (dists : list ParameterDistribution) (entry : loc * string) (v : scalar) :
  (entry, v) ∈ assignments h config dists samples <->
  exists param, param ∈ dists /\
    PyDict.get samples (join_path (param_path param)) = Some v /\
    entry_of h config (param_path param) = Some entry.
Proof.
  induction dists as [|param rest IH]; cbn [assignments].
  - split; [intros H; inversion H | intros (p & H & _); inversion H].
  - destruct (PyDict.get samples (join_path (param_path param))) as [v0|] eqn:Hs;
      [destruct (entry_of h config (param_path param)) as [e0|] eqn:He|].
    + rewrite elem_of_cons, IH. split.
      * intros [[= -> ->]|(p & Hp & H)].
        -- exists param. split; [left|]. split; assumption.
        -- exists p. split; [right; exact Hp | exact H].
      * intros (p & Hp & Hsp & Hep). apply elem_of_cons in Hp as [->|Hp].
        -- left. congruence.
        -- right. exists p. auto.
    + rewrite IH. split.
      * intros (p & Hp & H). exists p. split; [right; exact Hp | exact H].
      * intros (p & Hp & Hsp & Hep). apply elem_of_cons in Hp as [->|Hp];
          [congruence|]. exists p. auto.
    + rewrite IH. split.
      * intros (p & Hp & H). exists p. split; [right; exact Hp | exact H].
      * intros (p & Hp & Hsp & Hep). apply elem_of_cons in Hp as [->|Hp];
          [congruence|]. exists p. auto.
Qed.


End StoreFacts.

(** Two iterations that sample 0.25 and 0.75 for [["g"; "v"]] on the base
    configuration [{"g": {"v": 1}}]. *)
Definition two_sample_sets : list SampledParams :=
  [[("g.v", SFloat (1 # 4))]; [("g.v", SFloat (3 # 4))]].

Definition two_iterations : gmap nat Store.obj * result (list Store.val) :=
  Store.apply_all 10 [gv_uniform] (Store.Ref 0%nat) two_sample_sets gv_heap.

Section DeepCopyExample.
Import Store.

(** The deep-copy property of the specification: after both iterations the
    base configuration still holds 1, and each iteration's configuration holds
    its own sample. *)
Lemma two_iterations_leave_base :
  snd two_iterations = ok [Ref 2%nat; Ref 4%nat] /\
  get_nested_param (fst two_iterations) (Ref 0%nat) ["g"; "v"]
    = ok (Scalar (SInt 1)) /\
  get_nested_param (fst two_iterations) (Ref 2%nat) ["g"; "v"]
    = ok (Scalar (SFloat (1 # 4))) /\
  get_nested_param (fst two_iterations) (Ref 4%nat) ["g"; "v"]
    = ok (Scalar (SFloat (3 # 4))).
Proof. vm_compute. repeat split; reflexivity. Qed.

(** Without the deep copy the assignment lands in the base configuration:
    [_set_nested_param] on the base itself changes the object that holds
    ["v"]. *)
Lemma assignment_without_copy_changes_base :
  rbind (set_nested_param gv_heap (Ref 0%nat) ["g"; "v"] (Scalar (SFloat (1 # 4))))
    (fun h => get_nested_param h (Ref 0%nat) ["g"; "v"])
  = ok (Scalar (SFloat (1 # 4))).
Proof. vm_compute. reflexivity. Qed.



End DeepCopyExample.

(** * Further properties of the engine *)

Section EngineFailFast.
Import Engine.

Lemma range_nil (lo hi : Z) : (hi <= lo)%Z -> range lo hi = [].
Proof.
  intros Hle. unfold range. replace (Z.to_nat (hi - lo)) with 0%nat by lia.
  reflexivity.
Qed.

Lemma range_split (lo mid hi : Z) :
  (lo <= mid < hi)%Z ->
  range lo hi = range lo mid ++ mid :: range (mid + 1) hi.
Proof.
  intros Hmid. unfold range.
  replace (Z.to_nat (hi - lo))
    with (Z.to_nat (mid - lo) + S (Z.to_nat (hi - (mid + 1))))%nat by lia.
  rewrite seq_app, List.map_app. f_equal.
  cbn [seq List.map]. f_equal; [lia|].
  replace (S (0 + Z.to_nat (mid - lo))) with (S (Z.to_nat (mid - lo)) + 0)%nat
    by lia.
  rewrite <- fmap_add_seq.
  change (fmap (Nat.add (S (Z.to_nat (mid - lo)))) (seq 0 (Z.to_nat (hi - (mid + 1)))))
    with (List.map (Nat.add (S (Z.to_nat (mid - lo))))
            (seq 0 (Z.to_nat (hi - (mid + 1))))).
  rewrite List.map_map. apply List.map_ext. intros i. lia.
Qed.

(** The log of a phase that returned. *)
Lemma emits_ok {W : Type} (m : M (W := W) unit) (calls : list call)
  (w w' : W) (log log' : list call) :
  emits m calls -> m (w, log) = ((w', log'), ok tt) -> log' = log ++ calls.
Proof.
  intros Hm Hrun. destruct (Hm w log) as (done & Hlog & _ & Hok).
  rewrite Hrun in Hlog, Hok. simpl in Hlog, Hok. rewrite (Hok eq_refl) in Hlog.
  exact Hlog.
Qed.

(** X1.  When the [initialize] of a component raises, after the
    [initialize] of the components registered before it returned, [run] raises
    that exception at once: the only calls made are these [initialize] calls;
    no component is stepped or finalized. *)
Theorem X1_initialize_failure_aborts_run :
  forall (W : Type) (analytics : W -> W) (first_year last_year : Z)
         (pre post : list (SimulationComponent W)) (c : SimulationComponent W)
         (progress : option (Z -> W -> W)) (w0 w1 : W) (log1 : list call)
         (e : exn),
    let eng := {| start_year := first_year; end_year := last_year;
                  components := pre ++ c :: post |} in
    for_each pre
      (fun c => invoke (Initialize (name c)) (initialize c (registry eng)))
      (w0, []) = ((w1, log1), ok tt) ->
    snd (initialize c (registry eng) w1) = raise e ->
    run analytics eng progress (w0, []) =
    ((fst (initialize c (registry eng) w1),
      map Initialize (map name pre) ++ [Initialize (name c)]),
     raise e).
Proof.
  intros W analytics first_year last_year pre post c progress w0 w1 log1 e eng
    Hpre Hc.
  destruct (initialize c (registry eng) w1) as [w2 r] eqn:Hinit.
  simpl in Hc. subst r.
  unfold run, bind at 1, _initialize_components. simpl components.
  rewrite (for_each_invoke_raises
             (fun c => Initialize (name c))
             (fun c => initialize c (registry eng)) pre post c
             w0 w1 w2 [] log1 e Hpre Hinit).
  rewrite map_map. reflexivity.
Qed.

(** An engine whose second component cannot initialize. *)
Definition failing_initialize (n : string) : SimulationComponent nat :=
  {| name := n;
     initialize := fun _ w => (w, raise (RuntimeError "initialize failed"));
     step := fun _ w => (S w, ok tt);
     finalize := fun w => (S w, ok tt) |}.

Lemma X1_initialize_failure_aborts_run_AB :
  run (fun w => w)
    {| start_year := 2025; end_year := 2026;
       components := [counting "A"] ++ failing_initialize "B" :: [counting "C"] |}
    None (0%nat, []) =
  ((1%nat, [Initialize "A"] ++ [Initialize "B"]),
   raise (RuntimeError "initialize failed")).
Proof.
  apply (X1_initialize_failure_aborts_run nat (fun w => w) 2025 2026
           [counting "A"] [counting "C"] (failing_initialize "B") None
           0%nat 1%nat [Initialize "A"] (RuntimeError "initialize failed"));
    reflexivity.
Defined.

(** X2.  When a [step] raises in year [y], after the initialize phase, the
    years before [y] and the steps of the components registered before it in
    year [y] returned, [run] raises that exception at once: the calls made are
    all [initialize] calls, the [step] calls of the years before [y], and the
    [step] calls of year [y] up to this one; no later year is simulated and no
    component is finalized. *)
Theorem X2_step_failure_aborts_run :
  forall (W : Type) (analytics : W -> W) (first_year last_year y : Z)
         (pre post : list (SimulationComponent W)) (c : SimulationComponent W)
         (progress : option (Z -> W -> W)) (w0 w1 w2 w3 : W)
         (log1 log2 log3 : list call) (e : exn),
    let eng := {| start_year := first_year; end_year := last_year;
                  components := pre ++ c :: post |} in
    let before := {| start_year := first_year; end_year := y - 1;
                     components := pre ++ c :: post |} in
    (first_year <= y <= last_year)%Z ->
    _initialize_components eng (w0, []) = ((w1, log1), ok tt) ->
    _run_simulation_loop before progress (w1, log1) = ((w2, log2), ok tt) ->
    for_each pre (fun c => invoke (Step (name c) y) (step c y)) (w2, log2)
      = ((w3, log3), ok tt) ->
    snd (step c y w3) = raise e ->
    run analytics eng progress (w0, []) =
    ((fst (step c y w3),
      map Initialize (registry eng)
      ++ flat_map (fun year => map (fun n => Step n year) (registry eng))
           (range first_year y)
      ++ map (fun n => Step n y) (map name pre) ++ [Step (name c) y]),
     raise e).
Proof.
  intros W analytics first_year last_year y pre post c progress w0 w1 w2 w3
    log1 log2 log3 e eng before Hy Hinit Hbefore Hpre Hc.
  destruct (step c y w3) as [w4 r] eqn:Hstep. simpl in Hc. subst r.
  pose proof (emits_ok _ _ _ _ _ _ (emits_initialize eng) Hinit) as Hlog1.
  pose proof (emits_ok _ _ _ _ _ _ (emits_simulation_loop before progress) Hbefore)
    as Hlog2.
  simpl in Hlog1, Hlog2. replace (y - 1 + 1)%Z with y in Hlog2 by lia.
  unfold run, bind at 1. rewrite Hinit.
  unfold bind at 1, _run_simulation_loop. simpl start_year. simpl end_year.
  rewrite (range_split first_year y (last_year + 1)) by lia.
  rewrite for_each_app. unfold bind at 1.
  unfold _run_simulation_loop in Hbefore. simpl in Hbefore.
  replace (y - 1 + 1)%Z with y in Hbefore by lia.
  simpl components. rewrite Hbefore.
  cbn [for_each]. unfold bind at 1. unfold bind at 1.
  rewrite (for_each_invoke_raises
             (fun c => Step (name c) y) (fun c => step c y) pre post c
             w2 w3 w4 log2 log3 e Hpre Hstep).
  rewrite Hlog2, Hlog1. simpl. rewrite <- !app_assoc, map_map. reflexivity.
Qed.

(** An engine whose second component fails in its second year. *)
Definition failing_step (n : string) (bad_year : Z) : SimulationComponent nat :=
  {| name := n;
     initialize := fun _ w => (S w, ok tt);
     step := fun year w =>
               if (year =? bad_year)%Z then (w, raise (RuntimeError "step failed"))
               else (S w, ok tt);
     finalize := fun w => (S w, ok tt) |}.

Lemma X2_step_failure_aborts_run_AB :
  run (fun w => w)
    {| start_year := 2025; end_year := 2027;
       components := [counting "A"] ++ failing_step "B" 2026 :: [] |}
    None (0%nat, []) =
  ((5%nat,
    map Initialize ["A"; "B"]
    ++ flat_map (fun year => map (fun n => Step n year) ["A"; "B"]) (range 2025 2026)
    ++ map (fun n => Step n 2026) (map name [counting "A"]) ++ [Step "B" 2026]),
   raise (RuntimeError "step failed")).
Proof.
  apply (X2_step_failure_aborts_run nat (fun w => w) 2025 2027 2026
           [counting "A"] [] (failing_step "B" 2026) None
           0%nat 2%nat 4%nat 5%nat
           [Initialize "A"; Initialize "B"]
           [Initialize "A"; Initialize "B"; Step "A" 2025; Step "B" 2025]
           [Initialize "A"; Initialize "B"; Step "A" 2025; Step "B" 2025;
            Step "A" 2026]
           (RuntimeError "step failed")); try reflexivity. lia.
Defined.

End EngineFailFast.

Section EngineRegistration.
Import Engine.

Lemma add_components (W : Type) (cs : list (SimulationComponent W)) :
  forall e : SimulationEngine W,
    components (fold_left add_component cs e) = components e ++ cs /\
    start_year (fold_left add_component cs e) = start_year e /\
    end_year (fold_left add_component cs e) = end_year e.
Proof.
  induction cs as [|c cs IH]; intros e; simpl.
  - rewrite app_nil_r. auto.
  - destruct (IH (add_component e c)) as (Hc & Hs & He).
    rewrite Hc, Hs, He. simpl. rewrite <- app_assoc. auto.
Qed.

(** The log and the outcome of a run in which no method raises. *)
Lemma run_well_behaved (W : Type) (analytics : W -> W) (e : SimulationEngine W)
  (progress : option (Z -> W -> W)) (w : W) :
  Forall well_behaved (components e) ->
  exists w' : W,
    run analytics e progress (w, []) = ((w', lifecycle_calls e), ok tt).
Proof.
  intros Hwb.
  destruct (emits_run analytics e progress w []) as (done & Hlog & _ & Hok).
  pose proof (succeeds_run analytics e progress Hwb (w, [])) as Hres.
  destruct (run analytics e progress (w, [])) as [[w' log] r].
  simpl in *. subst r. rewrite (Hok eq_refl) in Hlog. subst log. eauto.
Qed.

(** X3.  The engine obtained by calling [add_component] for [c1], ..., [cn]
    on a new engine holds exactly these components, in this order, and keeps
    its two years; when none of their methods raises, its [run] returns after
    initializing, stepping year by year and finalizing them in the order in
    which they were added. *)
Theorem X3_components_run_in_order_added :
  forall (W : Type) (analytics : W -> W) (cs : list (SimulationComponent W))
         (first_year last_year : Z) (progress : option (Z -> W -> W)) (w : W),
    let eng := fold_left add_component cs (new first_year last_year) in
    components eng = cs /\
    start_year eng = first_year /\
    end_year eng = last_year /\
    (Forall well_behaved cs ->
     exists w' : W,
       run analytics eng progress (w, []) =
       ((w',
         map Initialize (map name cs)
         ++ flat_map (fun year => map (fun n => Step n year) (map name cs))
              (range first_year (last_year + 1))
         ++ map Finalize (map name cs)),
        ok tt)).
Proof.
  intros W analytics cs first_year last_year progress w eng.
  destruct (add_components W cs (new first_year last_year)) as (Hc & Hs & He).
  fold eng in Hc, Hs, He. simpl in Hc, Hs, He.
  repeat split; auto.
  intros Hwb. rewrite <- Hc in Hwb.
  destruct (run_well_behaved W analytics eng progress w Hwb) as [w' Hrun].
  exists w'. rewrite Hrun. unfold lifecycle_calls, registry.
  rewrite Hc, Hs, He. reflexivity.
Qed.

(** X4.  When [end_year] is before [start_year] no year is simulated: the
    calls of a run are a prefix of the [initialize] calls followed by the
    [finalize] calls, and all of them when no method raises; no [step] is ever
    called. *)
Theorem X4_no_year_no_step :
  forall (W : Type) (analytics : W -> W) (e : SimulationEngine W)
         (progress : option (Z -> W -> W)) (w : W),
    (end_year e < start_year e)%Z ->
    let out := run analytics e progress (w, []) in
    snd (fst out) `prefix_of`
      map Initialize (registry e) ++ map Finalize (registry e) /\
    (forall (n : string) (year : Z), Step n year ∉ snd (fst out)) /\
    (Forall well_behaved (components e) ->
     snd out = ok tt /\
     snd (fst out) = map Initialize (registry e) ++ map Finalize (registry e)).
Proof.
  intros W analytics e progress w Hyears out.
  assert (Hcalls : lifecycle_calls e
                   = map Initialize (registry e) ++ map Finalize (registry e)).
  { unfold lifecycle_calls. rewrite range_nil by lia. reflexivity. }
  destruct (emits_run analytics e progress w []) as (done & Hlog & Hpre & Hok).
  fold out in Hlog, Hok. simpl in Hlog. rewrite Hlog. rewrite Hcalls in Hpre, Hok.
  split; [exact Hpre|]. split.
  - intros n year Hin. destruct Hpre as [rest Hrest].
    assert (Hin' : Step n year ∈ map Initialize (registry e) ++ map Finalize (registry e)).
    { rewrite Hrest. apply elem_of_app. left. exact Hin. }
    apply elem_of_app in Hin' as [Hin'|Hin'];
      apply list_elem_of_fmap in Hin' as (x & Hx & _); discriminate.
  - intros Hwb. pose proof (succeeds_run analytics e progress Hwb (w, [])) as Hres.
    fold out in Hres. split; [exact Hres | exact (Hok Hres)].
Qed.

Lemma X4_no_year_no_step_AB :
  (2024 < 2025)%Z /\
  run (fun w => w)
    {| start_year := 2025; end_year := 2024;
       components := [counting "A"; counting "B"] |} None (0%nat, []) =
  ((4%nat, [Initialize "A"; Initialize "B"; Finalize "A"; Finalize "B"]), ok tt).
Proof.
  split; [lia|].
  destruct (X4_no_year_no_step nat (fun w => w)
              {| start_year := 2025; end_year := 2024;
                 components := [counting "A"; counting "B"] |} None 0%nat)
    as (_ & _ & Hok); [simpl; lia|].
  reflexivity.
Defined.

End EngineRegistration.

(** * Further properties of the sibling lookups *)

Section SiblingErrors.

(** X5.  [GridIntegration] and [FinancialModeling] look up the same name.
    When a component of that name is registered both go on with their set-up,
    given the position of the first one.  When none is, neither changes
    anything, [FinancialModeling] raises
    [RuntimeError("Renewable Capacity Expansion module not found.")], and
    [GridIntegration], whose [raise] passes [flush=True] to [RuntimeError],
    raises [TypeError]. *)
Theorem X5_not_found_errors_of_the_two_siblings :
  forall (W : Type) (setup_grid setup_finance : nat -> Engine.method W)
         (registry : list string) (w : W),
    (In GridIntegration.dependency registry ->
     exists i : nat,
       registry !! i = Some GridIntegration.dependency /\
       (forall j : nat, (j < i)%nat ->
                        registry !! j <> Some GridIntegration.dependency) /\
       GridIntegration.initialize setup_grid registry w = setup_grid i w /\
       FinancialModeling.initialize setup_finance registry w = setup_finance i w)
    /\
    (~ In GridIntegration.dependency registry ->
     GridIntegration.initialize setup_grid registry w = (w, raise TypeError) /\
     FinancialModeling.initialize setup_finance registry w
     = (w, raise (RuntimeError "Renewable Capacity Expansion module not found."))).
Proof.
  intros W setup_grid setup_finance registry w. split.
  - intros Hin. destruct (find_dependency_Some _ Hin) as (i & Hfind & Hi & Hfirst).
    exists i. unfold GridIntegration.initialize, FinancialModeling.initialize.
    rewrite Hfind. auto.
  - intros Hnot.
    unfold GridIntegration.initialize, FinancialModeling.initialize.
    rewrite (find_dependency_None _ Hnot). auto.
Qed.

(** X6.  [BESSDeployment.initialize] never fails on the lookup: it raises
    exactly when loading its configuration raises.  Otherwise it binds the
    first registered component whose name starts with "Grid Integration",
    whatever else matches after it, or [None] when no name does. *)
Theorem X6_bess_lookup_is_tolerant :
  forall (W : Type) (load : Engine.method W) (bind_grid : option nat -> W -> W)
         (registry : list string) (w : W),
    snd (BESSDeployment.initialize load bind_grid registry w) = snd (load w) /\
    (forall w1 : W,
        load w = (w1, ok tt) ->
        exists found : option nat,
          BESSDeployment.initialize load bind_grid registry w
          = (bind_grid found w1, ok tt) /\
          match found with
          | Some i =>
              exists n : string,
                registry !! i = Some n /\
                String.prefix "Grid Integration" n = true /\
                forall (j : nat) (n' : string),
                  (j < i)%nat -> registry !! j = Some n' ->
                  String.prefix "Grid Integration" n' = false
          | None =>
              forall n : string,
                n ∈ registry -> String.prefix "Grid Integration" n = false
          end).
Proof.
  intros W load bind_grid registry w. unfold BESSDeployment.initialize. split.
  - destruct (load w) as [w1 [e|[]]]; reflexivity.
  - intros w1 Hload. rewrite Hload.
    exists (option_map fst (BESSDeployment.find_grid registry)).
    split; [reflexivity|].
    unfold BESSDeployment.find_grid.
    destruct (list_find _ registry) as [[i n]|] eqn:Hfind; simpl.
    + apply list_find_Some in Hfind as (Hi & Hn & Hfirst).
      exists n. repeat split; auto.
      intros j n' Hj Hn'. specialize (Hfirst j n' Hn' Hj).
      unfold BESSDeployment.grid_prefix in Hfirst.
      destruct (String.prefix "Grid Integration" n'); [congruence | reflexivity].
    + apply list_find_None in Hfind. rewrite Forall_forall in Hfind.
      intros n Hn. specialize (Hfind n Hn).
      unfold BESSDeployment.grid_prefix in Hfind.
      destruct (String.prefix "Grid Integration" n); [congruence | reflexivity].
Qed.

(** Two names match the prefix: the first one is bound. *)
Lemma X6_bess_lookup_first_match :
  BESSDeployment.initialize (fun w : nat => (S w, ok tt))
    (fun found w => match found with Some i => (100 + i)%nat | None => w end)
    ["BESS Deployment"; "Grid Integration (east)"; "Grid Integration"] 0%nat
  = (101%nat, ok tt).
Proof.
  destruct (X6_bess_lookup_is_tolerant nat (fun w : nat => (S w, ok tt))
              (fun found w => match found with Some i => (100 + i)%nat | None => w end)
              ["BESS Deployment"; "Grid Integration (east)"; "Grid Integration"]
              0%nat) as [_ H].
  destruct (H 1%nat eq_refl) as (found & Hinit & _).
  reflexivity.
Defined.

(** An engine with neither dependency: both siblings fail, differently. *)
Lemma X5_not_found_errors_examples :
  GridIntegration.initialize (fun _ (w : nat) => (S w, ok tt)) ["A"; "B"] 0%nat
  = (0%nat, raise TypeError) /\
  FinancialModeling.initialize (fun _ (w : nat) => (S w, ok tt)) ["A"; "B"] 0%nat
  = (0%nat, raise (RuntimeError "Renewable Capacity Expansion module not found.")).
Proof.
  apply (X5_not_found_errors_of_the_two_siblings nat
           (fun _ w => (S w, ok tt)) (fun _ w => (S w, ok tt)) ["A"; "B"] 0%nat).
  intros [H|[H|[]]]; discriminate.
Defined.

End SiblingErrors.

(** * Further properties of path addressing *)

Section PathAddressingMore.
Import Config.

(** The configuration of [tests/conftest.py], reduced to two sections. *)
Definition renewable_grid_config : value :=
  VDict {[ "renewable" := VDict {[ "solar" := VScalar (SInt 100);
                                    "wind" := VScalar (SInt 50) ]};
           "grid" := VDict {[ "expansion_rate" := VScalar (SInt 20) ]} ]}.

Definition is_mapping (t : value) : bool :=
  match t with
  | VDict _ => true
  | VScalar _ | VList _ => false
  end.

(** X9.  A path that goes on below a scalar or a list is a [TypeError] for
    [get] and for [set] alike, and [set] returns no configuration; the empty
    path is an [IndexError] for [set], while [get] returns the configuration
    itself. *)
Theorem X9_paths_through_leaves_and_empty_path :
  forall (pre : ParameterPath) (config leaf v : value) (key : string)
         (post : ParameterPath),
    get_nested_param config pre = ok leaf ->
    is_mapping leaf = false ->
    get_nested_param config (pre ++ key :: post) = raise TypeError /\
    set_nested_param config (pre ++ key :: post) v = raise TypeError /\
    set_nested_param config [] v = raise IndexError /\
    get_nested_param config [] = ok config.
Proof.
  intros pre config leaf v key post Hpre Hleaf.
  split; [|split; [|split; reflexivity]].
  - rewrite get_nested_param_app, Hpre. simpl.
    destruct leaf; [reflexivity | reflexivity | discriminate].
  - revert config Hpre. induction pre as [|a pre IH]; intros config Hpre.
    + injection Hpre as ->. simpl app.
      destruct post as [|k2 post].
      * destruct leaf; [reflexivity | reflexivity | discriminate].
      * rewrite set_nested_param_cons by discriminate.
        destruct leaf; [reflexivity | reflexivity | discriminate].
    + simpl in Hpre. destruct config as [s|l|m]; try discriminate.
      destruct (m !! a) as [child|] eqn:Ha; [|discriminate].
      change ((a :: pre) ++ key :: post) with (a :: (pre ++ key :: post)).
      rewrite set_nested_param_cons by apply app_cons_not_nil.
      rewrite Ha, (IH child Hpre). reflexivity.
Qed.

Lemma X9_paths_through_leaves_gv :
  get_nested_param gv_config (["g"; "v"] ++ "w" :: []) = raise TypeError /\
  set_nested_param gv_config (["g"; "v"] ++ "w" :: []) (VScalar (SInt 2))
  = raise TypeError /\
  set_nested_param gv_config [] (VScalar (SInt 2)) = raise IndexError /\
  get_nested_param gv_config [] = ok gv_config.
Proof.
  apply (X9_paths_through_leaves_and_empty_path ["g"; "v"] gv_config
           (VScalar (SInt 1)) (VScalar (SInt 2)) "w" []).
  - vm_compute. reflexivity.
  - reflexivity.
Defined.

End PathAddressingMore.

(** * Further properties of the Monte Carlo runner *)

Section RunAborts.
Import MonteCarlo.
Context {G X Stats : Type}.
Context (np : numpy_random G) (describe : list scalar -> result Stats).
Context (write_file : @MonteCarlo.artifact Stats -> SE X unit).

#[local] Abbreviation state := (@MonteCarlo.state G X Stats).
#[local] Abbreviation EngineFactory := (@MonteCarlo.EngineFactory X).

(** An exception that leaves an iteration leaves [run]: the loop stops, the
    progress bar is closed, nothing is analysed or saved. *)
Lemma run_aborts (mc : MonteCarloSimulation) (f : EngineFactory) (s s1 s2 : state)
  (k : nat) (e : exn) :
  (k < Z.to_nat (n_iterations mc))%nat ->
  for_each (seq 0 k) (run_iteration np mc f) (cleared s) = (s1, ok tt) ->
  run_iteration np mc f k s1 = (s2, raise e) ->
  run np describe write_file mc f s = (progress_close s2, raise e).
Proof.
  intros Hk Hloop Hiter. unfold run.
  unfold bind at 1, modify. cbv beta iota. unfold ok at 1. cbv beta iota.
  unfold bind at 1. unfold ok at 1. cbv beta iota. fold (cleared s).
  unfold try_finally, bind at 1.
  replace (Z.to_nat (n_iterations mc))
    with (k + S (Z.to_nat (n_iterations mc) - S k))%nat by lia.
  rewrite seq_app, for_each_app. unfold bind at 1. rewrite Hloop.
  cbn [seq for_each]. unfold bind at 1. simpl plus. rewrite Hiter. reflexivity.
Qed.

(** X10.  Sampling is outside the [try] block: when a distribution cannot
    be sampled in iteration [k], after [k] iterations went through, [run]
    raises that exception.  The progress bar is closed; the results and
    samples of the earlier iterations stay as they are; the factory is not
    called again, and nothing is analysed, logged or saved. *)
Theorem X10_sampling_failure_aborts_run :
  forall (mc : MonteCarloSimulation) (f : EngineFactory) (s s1 : state)
         (k : nat) (g' : G) (e : exn),
    (k < Z.to_nat (n_iterations mc))%nat ->
    for_each (seq 0 k) (run_iteration np mc f) (cleared s) = (s1, ok tt) ->
    _sample_parameters np mc (rng s1) = (g', raise e) ->
    run np describe write_file mc f s = (progress_close (with_rng g' s1), raise e).
Proof.
  intros mc f s s1 k g' e Hk Hloop Hsample.
  apply (run_aborts mc f s s1 (with_rng g' s1) k e Hk Hloop).
  unfold run_iteration, bind at 1, on_rng. rewrite Hsample. reflexivity.
Qed.

(** X11.  So is the update of the configuration: when a sampled value cannot
    be written at its path in iteration [k], [run] raises that exception.  The
    sample set of the iteration is already in [parameter_samples]; the factory
    is not called for it, and nothing is analysed, logged or saved. *)
Theorem X11_configuration_failure_aborts_run :
  forall (mc : MonteCarloSimulation) (f : EngineFactory) (s s1 : state)
         (k : nat) (g' : G) (samples : SampledParams) (e : exn),
    (k < Z.to_nat (n_iterations mc))%nat ->
    for_each (seq 0 k) (run_iteration np mc f) (cleared s) = (s1, ok tt) ->
    _sample_parameters np mc (rng s1) = (g', ok samples) ->
    _apply_samples mc (base_config mc) samples = raise e ->
    run np describe write_file mc f s =
    (progress_close
       (with_parameter_samples (fun l => l ++ [samples]) (with_rng g' s1)),
     raise e).
Proof.
  intros mc f s s1 k g' samples e Hk Hloop Hsample Happly.
  apply (run_aborts mc f s s1 _ k e Hk Hloop).
  unfold run_iteration, bind, on_rng, modify, lift. rewrite Hsample. simpl.
  rewrite Happly. reflexivity.
Qed.

Lemma sample_into_app (pre post : list ParameterDistribution) :
  forall (samples : SampledParams) (g : G),
    sample_into np samples (pre ++ post) g =
    bind (sample_into np samples pre) (fun samples' => sample_into np samples' post) g.
Proof.
  induction pre as [|d pre IH]; intros samples g; simpl.
  - reflexivity.
  - unfold bind. destruct (Distribution.sample np d g) as [g1 [e|v]];
      [reflexivity|].
    rewrite IH. reflexivity.
Qed.

(** X12.  A distribution of an unknown kind is fatal for the whole
    experiment: when the distributions listed before it can be sampled, [run]
    raises [ValueError] in its first iteration.  No engine is built, no result
    or sample set is recorded, nothing is logged or saved. *)
Theorem X12_unknown_kind_aborts_experiment :
  forall (mc : MonteCarloSimulation) (f : EngineFactory) (s : state)
         (pre post : list ParameterDistribution) (d : ParameterDistribution)
         (g1 : G) (samples1 : SampledParams),
    (0 < n_iterations mc)%Z ->
    parameter_distributions mc = pre ++ d :: post ->
    known_kind (distribution d) = false ->
    sample_into np [] pre (rng s) = (g1, ok samples1) ->
    run np describe write_file mc f s =
    (progress_close (with_rng g1 (cleared s)),
     raise (ValueError ("Unknown distribution: " ++ distribution d)%string)) /\
    ext (fst (run np describe write_file mc f s)) = ext s /\
    self_results (fst (run np describe write_file mc f s)) = [] /\
    self_parameter_samples (fst (run np describe write_file mc f s)) = [] /\
    logged (fst (run np describe write_file mc f s)) = logged s /\
    saved (fst (run np describe write_file mc f s)) = saved s.
Proof.
  intros mc f s pre post d g1 samples1 Hn Hdists Hkind Hpre.
  assert (Hrun : run np describe write_file mc f s =
                 (progress_close (with_rng g1 (cleared s)),
                  raise (ValueError ("Unknown distribution: " ++ distribution d)%string))).
  { apply (run_aborts mc f s (cleared s) _ 0%nat _); [lia | reflexivity|].
    unfold run_iteration, bind at 1, on_rng, _sample_parameters.
    rewrite Hdists, sample_into_app. unfold bind at 1.
    change (rng (cleared s)) with (rng s). rewrite Hpre.
    cbn [sample_into]. unfold bind at 1.
    unfold Distribution.sample. unfold known_kind in Hkind.
    destruct (String.eqb (distribution d) "normal"); [discriminate|].
    destruct (String.eqb (distribution d) "uniform"); [discriminate|].
    destruct (String.eqb (distribution d) "triangular"); [discriminate|].
    destruct (String.eqb (distribution d) "discrete"); [discriminate|].
    reflexivity. }
  rewrite Hrun. repeat split; reflexivity.
Qed.

End RunAborts.

(** A generator that gives out two draws and then fails. *)
Definition two_draws : numpy_random nat :=
  {| normal := fun loc _ g =>
       (S g, if (g <? 2)%nat then as_float loc else raise (ValueError "scale < 0"));
     uniform := fun low _ g =>
       (S g, if (g <? 2)%nat then as_float low
             else raise (ValueError "high - low range exceeds valid bounds"));
     triangular := fun _ mode _ g =>
       (S g, if (g <? 2)%nat then as_float mode else raise (ValueError "left > mode"));
     choice := fun values _ g => (S g, first_candidate values) |}.

(** A factory whose engines always report. *)
Definition reporting : MonteCarlo.EngineFactory (X := nat) :=
  fun _ x => (S x, ok reporting_engine).

(** An experiment whose only distribution addresses a section that the base
    configuration does not have. *)
Definition missing_section_experiment : MonteCarlo.MonteCarloSimulation :=
  {| MonteCarlo.base_config := gv_config;
     MonteCarlo.parameter_distributions :=
       [{| param_path := ["missing"; "v"]; distribution := "uniform"; params := ∅ |}];
     MonteCarlo.n_iterations := 3;
     MonteCarlo.save_all_runs := false |}.

(** An experiment whose second distribution is of an unknown kind. *)
Definition lognormal_experiment : MonteCarlo.MonteCarloSimulation :=
  {| MonteCarlo.base_config := gv_config;
     MonteCarlo.parameter_distributions :=
       [gv_uniform] ++
       {| param_path := ["g"; "w"]; distribution := "lognormal"; params := ∅ |} :: [];
     MonteCarlo.n_iterations := 3;
     MonteCarlo.save_all_runs := false |}.

Section RunAbortsExamples.
Import MonteCarlo.

(** The third draw fails: two results are kept, [run] raises. *)
Lemma X10_sampling_failure_aborts_run_third_draw :
  run two_draws count_values written (gv_experiment 5) reporting
    (initial_state 0%nat 0%nat)
  = (progress_close
       (with_rng 3%nat
          (fst (for_each (seq 0 2)
                  (run_iteration two_draws (gv_experiment 5) reporting)
                  (cleared (initial_state 0%nat 0%nat))))),
     raise (ValueError "high - low range exceeds valid bounds")).
Proof.
  apply (X10_sampling_failure_aborts_run two_draws count_values written
           (gv_experiment 5) reporting (initial_state 0%nat 0%nat) _ 2%nat).
  - simpl. lia.
  - vm_compute. reflexivity.
  - vm_compute. reflexivity.
Defined.

Lemma third_draw_fails_two_results_kept :
  let out := run two_draws count_values written (gv_experiment 5) reporting
               (initial_state 0%nat 0%nat) in
  snd out = raise (ValueError "high - low range exceeds valid bounds") /\
  map iteration (self_results (fst out)) = [0; 1]%nat /\
  length (self_parameter_samples (fst out)) = 2%nat /\
  ext (fst out) = 2%nat /\
  saved (fst out) = [] /\ logged (fst out) = [] /\
  progress_closed (fst out) = true.
Proof. vm_compute. repeat split; reflexivity. Qed.

Lemma X11_configuration_failure_aborts_run_missing_section :
  run degenerate count_values written missing_section_experiment reporting
    (initial_state 0%nat 0%nat)
  = (progress_close
       (with_parameter_samples (fun l => l ++ [[("missing.v", SFloat 0)]])
          (with_rng 1%nat (cleared (initial_state 0%nat 0%nat)))),
     raise (KeyError "missing")).
Proof.
  apply (X11_configuration_failure_aborts_run degenerate count_values written
           missing_section_experiment reporting (initial_state 0%nat 0%nat)
           (cleared (initial_state 0%nat 0%nat)) 0%nat).
  - simpl. lia.
  - reflexivity.
  - vm_compute. reflexivity.
  - vm_compute. reflexivity.
Defined.

Lemma X12_unknown_kind_aborts_experiment_lognormal :
  run degenerate count_values written lognormal_experiment reporting
    (initial_state 0%nat 0%nat)
  = (progress_close (with_rng 1%nat (cleared (initial_state 0%nat 0%nat))),
     raise (ValueError "Unknown distribution: lognormal")) /\
  ext (fst (run degenerate count_values written lognormal_experiment reporting
              (initial_state 0%nat 0%nat))) = 0%nat /\
  self_results (fst (run degenerate count_values written lognormal_experiment reporting
                       (initial_state 0%nat 0%nat))) = [] /\
  self_parameter_samples
    (fst (run degenerate count_values written lognormal_experiment reporting
            (initial_state 0%nat 0%nat))) = [] /\
  logged (fst (run degenerate count_values written lognormal_experiment reporting
                 (initial_state 0%nat 0%nat))) = [] /\
  saved (fst (run degenerate count_values written lognormal_experiment reporting
                (initial_state 0%nat 0%nat))) = [].
Proof.
  apply (X12_unknown_kind_aborts_experiment degenerate count_values written
           lognormal_experiment reporting (initial_state 0%nat 0%nat)
           [gv_uniform] []
           {| param_path := ["g"; "w"]; distribution := "lognormal"; params := ∅ |}
           1%nat [("g.v", SFloat 0)]).
  - simpl. lia.
  - reflexivity.
  - reflexivity.
  - reflexivity.
Defined.

End RunAbortsExamples.

Section Persistence.
Import MonteCarlo.
Context {G X Stats : Type}.
Context (np : numpy_random G) (describe : list scalar -> result Stats).

#[local] Abbreviation state := (@MonteCarlo.state G X Stats).
#[local] Abbreviation EngineFactory := (@MonteCarlo.EngineFactory X).
#[local] Abbreviation artifact := (@MonteCarlo.artifact Stats).

Context (write_file : artifact -> SE X unit).

(** [m], started in [s], writes the files [files] one after the other and
    stops at the first write that raises: the files written are a prefix of
    [files], all of them when [m] returns, and the exception [m] raises is
    the one of the write of the next file. *)
Definition writes_at {A : Type} (s : state) (m : SE state A)
  (files : list artifact) : Prop :=
  exists done : list artifact,
    saved (fst (m s)) = saved s ++ done /\
    done `prefix_of` files /\
    (forall v, snd (m s) = ok v -> done = files) /\
    (forall e, snd (m s) = raise e ->
       exists (a : artifact) (x : X),
         (done ++ [a]) `prefix_of` files /\ snd (write_file a x) = raise e).

Lemma writes_write (s : state) (a : artifact) :
  writes_at s (write write_file a) [a].
Proof.
  unfold writes_at, write.
  destruct (write_file a (ext s)) as [x [e|[]]] eqn:Hw; cbn [fst snd].
  - exists []. rewrite app_nil_r. split; [reflexivity|].
    split; [apply prefix_nil|]. split; [discriminate|].
    intros e' [= <-]. exists a, (ext s). rewrite Hw. split; reflexivity.
  - exists [a]. split; [reflexivity|]. split; [reflexivity|].
    split; [reflexivity | discriminate].
Qed.

Lemma writes_nothing {A : Type} (s s' : state) (m : SE state A) (v : A) :
  m s = (s', ok v) -> saved s' = saved s -> writes_at s m [].
Proof.
  intros Hm Hsaved. exists []. rewrite Hm, app_nil_r. cbn [fst snd].
  split; [exact Hsaved|]. split; [reflexivity|]. split; [reflexivity|discriminate].
Qed.

Lemma writes_log (s : state) (rec : log_record) :
  writes_at s (modify (log rec)) [].
Proof. apply (writes_nothing s (log rec s) _ tt); reflexivity. Qed.

Lemma writes_ret {A : Type} (s : state) (v : A) : writes_at s (ret v) [].
Proof. apply (writes_nothing s s _ v); reflexivity. Qed.

Lemma writes_gets {A B : Type} (s : state) (f : state -> A)
  (k : A -> SE state B) (files : list artifact) :
  writes_at s (k (f s)) files -> writes_at s (bind (gets f) k) files.
Proof. intros H. exact H. Qed.

Lemma writes_bind {A B : Type} (s : state) (m : SE state A) (k : A -> SE state B)
  (l1 l2 : list artifact) :
  writes_at s m l1 ->
  (forall s1 v, m s = (s1, ok v) -> writes_at s1 (k v) l2) ->
  writes_at s (bind m k) (l1 ++ l2).
Proof.
  intros (done1 & Hsaved1 & Hpre1 & Hok1 & Hraise1) Hk. unfold writes_at, bind.
  destruct (m s) as [s1 [e|v]] eqn:Hm; cbn [fst snd] in *.
  - exists done1. split; [exact Hsaved1|].
    split; [apply prefix_app_r, Hpre1|]. split; [discriminate|].
    intros e' [= <-]. destruct (Hraise1 e eq_refl) as (a & x & Ha & Hx).
    exists a, x. split; [apply prefix_app_r, Ha | exact Hx].
  - rewrite (Hok1 v eq_refl) in Hsaved1.
    destruct (Hk s1 v eq_refl) as (done2 & Hsaved2 & Hpre2 & Hok2 & Hraise2).
    exists (l1 ++ done2). rewrite Hsaved2, Hsaved1, <- app_assoc.
    split; [reflexivity|]. split; [apply prefix_app, Hpre2|].
    split.
    + intros w Hw. rewrite (Hok2 w Hw). reflexivity.
    + intros e He. destruct (Hraise2 e He) as (a & x & Ha & Hx).
      exists a, x. rewrite <- app_assoc. split; [apply prefix_app, Ha | exact Hx].
Qed.

Lemma writes_for_each {A : Type} (body : A -> SE state unit)
  (files : A -> list artifact) (xs : list A) :
  (forall x s, writes_at s (body x) (files x)) ->
  forall s, writes_at s (for_each xs body) (flat_map files xs).
Proof.
  intros Hbody. induction xs as [|x xs IH]; intros s; cbn [for_each flat_map].
  - apply writes_ret.
  - apply writes_bind; [apply Hbody | intros s1 _ _; apply IH].
Qed.

(** The files of one recorded run: its directory, its parameters, then one
    table per component whose table exists and is not empty. *)
Definition module_files (i : nat) (entry : string * option DataFrame)
  : list artifact :=
  match snd entry with
  | Some df => if df_empty df then [] else [run_module_csv i (fst entry) df]
  | None => []
  end.

Definition run_files (entry : nat * SimulationResult) : list artifact :=
  run_directory (fst entry)
  :: run_parameters_csv (fst entry) (parameters (snd entry))
  :: flat_map (module_files (fst entry)) (results (snd entry)).

(** The files [_save_results] sets out to write, in its order. *)
Definition save_plan (mc : MonteCarloSimulation)
  (summary_df : list (string * Stats)) (samples : list (list (string * scalar)))
  (runs : list SimulationResult) : list artifact :=
  summary_statistics_csv summary_df
  :: parameter_samples_csv samples
  :: (if save_all_runs mc
      then all_runs_directory :: flat_map run_files (enumerate runs)
      else []).

Lemma write_keeps (a : artifact) (s s1 : state) (v : unit) :
  write write_file a s = (s1, ok v) ->
  self_results s1 = self_results s /\
  self_parameter_samples s1 = self_parameter_samples s.
Proof.
  intros Hw. destruct (persists_write write_file a s) as ((Hr & Hp & _) & _).
  rewrite Hw in Hr, Hp. auto.
Qed.

Lemma save_runs_loop (runs : list (nat * SimulationResult)) (s : state) :
  writes_at s
    (for_each runs
       (fun '(i, run) =>
          run! write write_file (run_directory i);
          run! write write_file (run_parameters_csv i (parameters run));
          for_each (results run)
            (fun '(module_name, df) =>
               match df with
               | Some df =>
                   if df_empty df then ret tt
                   else write write_file (run_module_csv i module_name df)
               | None => ret tt
               end)))
    (flat_map run_files runs).
Proof.
  apply writes_for_each. clear s. intros [i run] s.
  apply (writes_bind s _ _ [run_directory i] _ (writes_write s _)).
  intros s1 _ _.
  apply (writes_bind s1 _ _ [run_parameters_csv i (parameters run)] _
           (writes_write s1 _)).
  intros s2 _ _. cbn [fst snd].
  apply (writes_for_each _ (module_files i)). clear.
  intros [module_name [df|]] s; unfold module_files; cbn [fst snd].
  - destruct (df_empty df);
      [apply writes_ret | apply writes_write].
  - apply writes_ret.
Qed.

Lemma save_results_files (mc : MonteCarloSimulation)
  (summary_df : list (string * Stats)) (s : state) :
  writes_at s (_save_results write_file mc summary_df)
    (save_plan mc summary_df (self_parameter_samples s) (self_results s)).
Proof.
  unfold _save_results, save_plan.
  apply (writes_bind s _ _ [summary_statistics_csv summary_df] _
           (writes_write s _)).
  intros s1 [] H1. apply write_keeps in H1 as [Hr1 Hp1].
  apply (writes_bind s1 _ _ [] _ (writes_log s1 _)).
  intros s2 [] [= <-]. apply writes_gets.
  cbn [log self_parameter_samples]. rewrite Hp1.
  match goal with |- writes_at ?s2 _ _ =>
    apply (writes_bind s2 _ _
             [parameter_samples_csv (self_parameter_samples s)] _
             (writes_write s2 _))
  end.
  intros s3 [] H3. apply write_keeps in H3 as [Hr3 Hp3].
  cbn [log self_results] in Hr3.
  apply (writes_bind s3 _ _ [] _ (writes_log s3 _)).
  intros s4 [] [= <-].
  destruct (save_all_runs mc); [|apply writes_ret].
  match goal with |- writes_at ?s4 _ _ =>
    apply (writes_bind s4 _ _ [all_runs_directory] _ (writes_write s4 _))
  end.
  intros s5 [] H5. apply write_keeps in H5 as [Hr5 Hp5].
  cbn [log self_results] in Hr5.
  apply writes_gets. rewrite Hr5, Hr3, Hr1.
  rewrite <- (app_nil_r (flat_map run_files (enumerate (self_results s)))).
  apply writes_bind; [apply save_runs_loop|].
  intros s6 [] _. apply writes_log.
Qed.

Lemma enumerate_lookup {A : Type} (xs : list A) (k : nat) (x : A) :
  In (k, x) (enumerate xs) <-> xs !! k = Some x.
Proof.
  unfold enumerate.
  assert (H : forall a, In (k, x) (combine (seq a (length xs)) xs)
                        <-> (a <= k)%nat /\ xs !! (k - a)%nat = Some x).
  { induction xs as [|y xs IH]; intros a; simpl.
    - split; [tauto | intros [_ H]; discriminate].
    - rewrite IH. split.
      + intros [[= <- <-]|[Hle Hk]].
        * rewrite Nat.sub_diag. split; [lia | reflexivity].
        * split; [lia|]. replace (k - a)%nat with (S (k - S a)) by lia. exact Hk.
      + intros [Hle Hk]. destruct (decide (k = a)) as [->|Hne].
        * rewrite Nat.sub_diag in Hk. injection Hk as ->. auto.
        * right. split; [lia|].
          replace (k - a)%nat with (S (k - S a)) in Hk by lia. exact Hk. }
  rewrite H, Nat.sub_0_r. split; [tauto | intros; split; [lia | assumption]].
Qed.

Lemma in_run_files (runs : list SimulationResult) (a : artifact) :
  In a (flat_map run_files (enumerate runs)) <->
  exists (k : nat) (r : SimulationResult),
    runs !! k = Some r /\
    (a = run_directory k \/
     a = run_parameters_csv k (parameters r) \/
     exists module_name df,
       In (module_name, Some df) (results r) /\ df_empty df = false /\
       a = run_module_csv k module_name df).
Proof.
  rewrite in_flat_map. split.
  - intros ([k r] & Hin & Ha). apply enumerate_lookup in Hin.
    exists k, r. split; [exact Hin|].
    destruct Ha as [<-|[<-|Ha]]; [auto | auto |]. right. right.
    apply in_flat_map in Ha as ([module_name [df|]] & Hm & Hfile);
      unfold module_files in Hfile; simpl in Hfile; [|contradiction].
    destruct (df_empty df) eqn:Hempty; [contradiction|].
    destruct Hfile as [<-|[]]. eauto.
  - intros (k & r & Hk & Ha). exists (k, r).
    split; [apply enumerate_lookup, Hk|].
    destruct Ha as [->|[->|(module_name & df & Hm & Hempty & ->)]];
      [left; reflexivity | right; left; reflexivity |].
    right. right. apply in_flat_map. exists (module_name, Some df).
    split; [exact Hm|]. unfold module_files. simpl. rewrite Hempty. left. reflexivity.
Qed.

(** X13.  In a well configured experiment, what [run] writes is fixed by the
    runs it recorded.  With no recorded run it writes nothing and returns
    the empty table.  Otherwise it first computes the statistics of the
    metrics collected from the recorded runs: when numpy raises there, [run]
    raises that exception and nothing is written; when it returns the
    table, [run] sets out to write, in this order, that table, then the
    sample sets of all iterations, those that failed included, then, when
    [save_all_runs] is set and only then, the directory and the files of
    the recorded runs in the order of the runs.  The files written are a
    prefix of that list: all of it, and then [run] returns the table, or
    the files before a write that raised, and then [run] raises the
    exception of that write.  When no write raises, [run] returns the
    table. *)
Theorem X13_files_written_by_run :
  forall (mc : MonteCarloSimulation) (f : EngineFactory) (s : state),
    samplable np mc ->
    let n := Z.to_nat (n_iterations mc) in
    let trace := outcomes np mc f (seq 0 n) (rng s) (ext s) in
    let out := run np describe write_file mc f s in
    self_parameter_samples (fst out) = map (fun o => snd (fst o)) trace /\
    length (self_parameter_samples (fst out)) = n /\
    self_results (fst out) = recorded trace /\
    match recorded trace with
    | [] => snd out = ok [] /\ saved (fst out) = saved s
    | _ :: _ =>
        match stats_data describe (collect_metrics (recorded trace)) with
        | inl e => snd out = raise e /\ saved (fst out) = saved s
        | inr table =>
            let plan :=
              save_plan mc table (map (fun o => snd (fst o)) trace)
                (recorded trace) in
            exists done : list artifact,
              saved (fst out) = saved s ++ done /\
              done `prefix_of` plan /\
              (snd out = ok table /\ done = plan \/
               exists (e : exn) (a : artifact) (x : X),
                 snd out = raise e /\ (done ++ [a]) `prefix_of` plan /\
                 snd (write_file a x) = raise e) /\
              (writable write_file -> snd out = ok table)
        end
    end.
Proof.
  intros mc f s Hmc n trace out.
  destruct (loop_outcomes np mc f Hmc (seq 0 n) (cleared s))
    as (s1 & Hloop & Hidx & Hsamples & Hres & _).
  destruct (loop_spec np mc f Hmc n 0%nat (cleared s) eq_refl)
    as (s1' & nr & nl & Hloop' & _ & _ & _ & _ & Hsaved & _).
  fold n in Hloop'. rewrite Hloop in Hloop'. injection Hloop' as <-.
  cbn [cleared rng ext with_parameter_samples with_results self_results
       self_parameter_samples saved app] in Hidx, Hsamples, Hres, Hsaved.
  fold trace in Hidx, Hsamples, Hres.
  set (s2 := log (Info_completed (length (self_results s1))) s1).
  assert (Hout : out = (progress_close
                          (fst (_analyze_results describe write_file mc s2)),
                        snd (_analyze_results describe write_file mc s2))).
  { apply run_after_loop, Hloop. }
  destruct (analyze_results_spec describe write_file mc s2)
    as ((Hr & Hp & _) & _).
  assert (Hr2 : self_results s2 = recorded trace) by exact Hres.
  assert (Hp2 : self_parameter_samples s2 = map (fun o => snd (fst o)) trace)
    by exact Hsamples.
  assert (Hs2 : saved s2 = saved s) by exact Hsaved.
  rewrite Hout. cbn [fst snd progress_close self_parameter_samples self_results
                     saved].
  rewrite Hr, Hp, Hr2, Hp2.
  split; [reflexivity|].
  split. { rewrite length_map, <- (length_map (fun o => fst (fst o))), Hidx.
           apply length_seq. }
  split; [reflexivity|].
  rewrite analyze_results_eq, Hr2.
  destruct (recorded trace) as [|r runs] eqn:Hrec.
  - cbn [fst snd log saved]. auto.
  - destruct (stats_data describe (collect_metrics (r :: runs))) as [e|table].
    + cbn [fst snd]. auto.
    + cbv zeta. cbn [fst snd].
      destruct (save_results_files mc table s2)
        as (done & Hdone & Hpre & Hok & Hraise).
      rewrite Hr2, Hp2, Hs2 in *.
      destruct (persists_save_results write_file mc table s2) as (_ & _ & Hret).
      exists done. split; [exact Hdone|]. split; [exact Hpre|].
      destruct (snd (_save_results write_file mc table s2)) as [e|[]].
      * split.
        -- right. destruct (Hraise e eq_refl) as (a & x & Ha & Hx).
           exists e, a, x. auto.
        -- intros Hw. destruct (Hret Hw) as [v Hv]. discriminate.
      * split; [left; split; [reflexivity | apply (Hok tt eq_refl)]|].
        reflexivity.
Qed.

(** [parameters.csv] of some run directory *)
Definition is_parameters_file (a : artifact) : bool :=
  match a with
  | run_parameters_csv _ _ => true
  | _ => false
  end.

Lemma parameters_files (runs : list (nat * SimulationResult)) :
  List.filter is_parameters_file (flat_map run_files runs) =
  map (fun entry => run_parameters_csv (fst entry) (parameters (snd entry))) runs.
Proof.
  induction runs as [|[i r] runs IH]; [reflexivity|].
  cbn [flat_map map]. rewrite List.filter_app, IH.
  unfold run_files at 1. cbn [List.filter is_parameters_file fst snd].
  assert (Hnone : forall l,
             List.filter is_parameters_file (flat_map (module_files i) l) = []).
  { induction l as [|[m [df|]] l IHl]; cbn [flat_map]; [reflexivity| |];
      unfold module_files at 1; simpl; [destruct (df_empty df)|]; exact IHl. }
  rewrite Hnone. reflexivity.
Qed.

(** X14.  With [save_all_runs], the directory of a run is numbered by the
    position of the run in [self.results], not by its iteration.  After the
    summary, the samples and the directory of all runs, [_save_results]
    sets out to write, for each recorded run in turn, its directory, its
    parameter file and one file per table of the run that is present and
    not empty, all under the position of the run: exactly one parameter
    file per recorded run, in the order of the runs.  The files written are
    a prefix of that list: all of it when [_save_results] returns, the files
    before the write that raised otherwise; it returns when no write
    raises. *)
Theorem X14_run_directories_follow_positions :
  forall (mc : MonteCarloSimulation) (summary_df : list (string * Stats))
         (s : state),
    save_all_runs mc = true ->
    let out := _save_results write_file mc summary_df s in
    exists (done files : list artifact),
      let plan :=
        summary_statistics_csv summary_df
        :: parameter_samples_csv (self_parameter_samples s)
        :: all_runs_directory :: files in
      saved (fst out) = saved s ++ done /\
      done `prefix_of` plan /\
      (snd out = ok tt -> done = plan) /\
      (forall e, snd out = raise e ->
         exists (a : artifact) (x : X),
           (done ++ [a]) `prefix_of` plan /\ snd (write_file a x) = raise e) /\
      (writable write_file -> snd out = ok tt) /\
      (forall a, In a files <->
         exists (k : nat) (r : SimulationResult),
           self_results s !! k = Some r /\
           (a = run_directory k \/
            a = run_parameters_csv k (parameters r) \/
            exists module_name df,
              In (module_name, Some df) (results r) /\ df_empty df = false /\
              a = run_module_csv k module_name df)) /\
      List.filter is_parameters_file files =
        map (fun entry => run_parameters_csv (fst entry) (parameters (snd entry)))
          (enumerate (self_results s)).
Proof.
  intros mc summary_df s Hflag out.
  destruct (save_results_files mc summary_df s)
    as (done & Hdone & Hpre & Hok & Hraise).
  destruct (persists_save_results write_file mc summary_df s) as (_ & _ & Hret).
  unfold save_plan in *. rewrite Hflag in *.
  exists done, (flat_map run_files (enumerate (self_results s))). cbv zeta.
  split; [exact Hdone|]. split; [exact Hpre|].
  split; [apply Hok|]. split; [exact Hraise|].
  split. { intros Hw. destruct (Hret Hw) as [[] Hv]. exact Hv. }
  split; [intros a; apply in_run_files | apply parameters_files].
Qed.

End Persistence.

(** The experiment on [gv_config] with [save_all_runs]. *)
Definition gv_experiment_all_runs (n : Z) : MonteCarlo.MonteCarloSimulation :=
  {| MonteCarlo.base_config := gv_config;
     MonteCarlo.parameter_distributions := [gv_uniform];
     MonteCarlo.n_iterations := n;
     MonteCarlo.save_all_runs := true |}.

(** The runner after four iterations of which the third failed. *)
Definition three_recorded : @MonteCarlo.state nat nat nat :=
  fst (MonteCarlo.run degenerate count_values written (gv_experiment 4) failing_third
         (initial_state 0%nat 0%nat)).

(** A disk on which the file of a component table cannot be created; the
    external world counts the write attempts. *)
Definition no_module_files (a : @MonteCarlo.artifact nat) : SE nat unit :=
  fun x =>
    match a with
    | MonteCarlo.run_module_csv _ module_name _ =>
        (S x, raise (OtherError ("cannot write " ++ module_name)))
    | _ => (S x, ok tt)
    end.

Section PersistenceExamples.
Import MonteCarlo.

Lemma gv_all_runs_samplable (n : Z) :
  samplable degenerate (gv_experiment_all_runs n).
Proof.
  intros g. exists (S g), [("g.v", SFloat 0)],
    (VDict {[ "g" := VDict {[ "v" := VScalar (SFloat 0) ]} ]}).
  split; [reflexivity | vm_compute; reflexivity].
Qed.

(** Four iterations, the third fails: the run of iteration 3 is saved as run
    number 2. *)
Lemma fourth_iteration_saved_as_third_run :
  let out := run degenerate count_values written (gv_experiment_all_runs 4)
               failing_third (initial_state 0%nat 0%nat) in
  map iteration (self_results (fst out)) = [0; 1; 3]%nat /\
  List.filter is_parameters_file (saved (fst out)) =
    [run_parameters_csv 0 [("g.v", SFloat 0)];
     run_parameters_csv 1 [("g.v", SFloat 0)];
     run_parameters_csv 2 [("g.v", SFloat 0)]] /\
  In (run_module_csv 2 "Capacity" capacity_table) (saved (fst out)).
Proof. vm_compute. repeat split; auto 20. Qed.

(** On a disk that refuses the table of a component, [run] stops at the
    first such file: the summary, the samples and the first run directory
    with its parameters are written, the other runs are not. *)
Lemma run_stops_at_the_first_refused_file :
  let out := run degenerate count_values no_module_files
               (gv_experiment_all_runs 4) failing_third
               (initial_state 0%nat 0%nat) in
  snd out = raise (OtherError "cannot write Capacity") /\
  List.filter is_parameters_file (saved (fst out)) =
    [run_parameters_csv 0 [("g.v", SFloat 0)]] /\
  length (saved (fst out)) = 5%nat.
Proof. vm_compute. repeat split. Qed.

(** The theorem on a disk that refuses the tables of the components. *)
Lemma X13_files_written_by_run_four :
  let mc := gv_experiment_all_runs 4 in
  let n := Z.to_nat (n_iterations mc) in
  let trace := outcomes degenerate mc failing_third (seq 0 n) 0%nat 0%nat in
  let out := run degenerate count_values no_module_files mc failing_third
               (initial_state 0%nat 0%nat) in
  self_parameter_samples (fst out) = map (fun o => snd (fst o)) trace /\
  length (self_parameter_samples (fst out)) = n /\
  self_results (fst out) = recorded trace /\
  match recorded trace with
  | [] => snd out = ok [] /\ saved (fst out) = []
  | _ :: _ =>
      match stats_data count_values (collect_metrics (recorded trace)) with
      | inl e => snd out = raise e /\ saved (fst out) = []
      | inr table =>
          let plan :=
            save_plan mc table (map (fun o => snd (fst o)) trace)
              (recorded trace) in
          exists done : list artifact,
            saved (fst out) = [] ++ done /\
            done `prefix_of` plan /\
            (snd out = ok table /\ done = plan \/
             exists (e : exn) (a : artifact) (x : nat),
               snd out = raise e /\ (done ++ [a]) `prefix_of` plan /\
               snd (no_module_files a x) = raise e) /\
            (writable no_module_files -> snd out = ok table)
      end
  end.
Proof.
  exact (X13_files_written_by_run degenerate count_values no_module_files
           (gv_experiment_all_runs 4) failing_third (initial_state 0%nat 0%nat)
           (gv_all_runs_samplable 4)).
Defined.

Lemma X14_run_directories_follow_positions_three :
  let out := _save_results written (gv_experiment_all_runs 4) [] three_recorded in
  exists (done files : list artifact),
    let plan :=
      summary_statistics_csv []
      :: parameter_samples_csv (self_parameter_samples three_recorded)
      :: all_runs_directory :: files in
    saved (fst out) = saved three_recorded ++ done /\
    done `prefix_of` plan /\
    (snd out = ok tt -> done = plan) /\
    (forall e, snd out = raise e ->
       exists (a : artifact) (x : nat),
         (done ++ [a]) `prefix_of` plan /\ snd (@written nat nat a x) = raise e) /\
    (writable (@written nat nat) -> snd out = ok tt) /\
    (forall a, In a files <->
       exists (k : nat) (r : SimulationResult),
         self_results three_recorded !! k = Some r /\
         (a = run_directory k \/
          a = run_parameters_csv k (parameters r) \/
          exists module_name df,
            In (module_name, Some df) (results r) /\ df_empty df = false /\
            a = run_module_csv k module_name df)) /\
    List.filter is_parameters_file files =
      map (fun entry => run_parameters_csv (fst entry) (parameters (snd entry)))
        (enumerate (self_results three_recorded)).
Proof.
  apply (X14_run_directories_follow_positions written
           (gv_experiment_all_runs 4) [] three_recorded).
  reflexivity.
Defined.

End PersistenceExamples.

(** ** The metrics collected from the recorded runs *)

(** The numeric entries of the last rows of the tables of one run, with
    their keys, in the order in which [_analyze_results] meets them. *)
Definition observations (run_results : ResultsDict) : list (string * scalar) :=
  flat_map
    (fun '(module_name, df) =>
       match df with
       | None => []
       | Some df =>
           if df_empty df then []
           else
             flat_map
               (fun '(metric_name, v) =>
                  if is_numeric v
                  then [(MonteCarlo.metric_key module_name metric_name, v)]
                  else [])
               (final_values df)
       end)
    run_results.

(** The values observed for one key. *)
Definition observed (key : string) (obs : list (string * scalar)) : list scalar :=
  map snd (List.filter (fun kv => String.eqb key (fst kv)) obs).

Section Metrics.
Import MonteCarlo.

Lemma collect_run_observations {A : Type} (record : A -> string -> scalar -> A)
  (run_results : ResultsDict) (acc : A) :
  collect_run record run_results acc
  = fold_left (fun acc kv => record acc (fst kv) (snd kv))
      (observations run_results) acc.
Proof.
  unfold collect_run, observations. revert acc.
  induction run_results as [|[module_name [df|]] rest IH]; intros acc;
    cbn [fold_left flat_map]; [reflexivity | |apply IH].
  rewrite fold_left_app, IH. f_equal.
  destruct (df_empty df); [reflexivity|].
  generalize (final_values df). intros fv. revert acc.
  induction fv as [|[metric_name v] fv IHfv]; intros acc;
    cbn [fold_left flat_map]; [reflexivity|].
  rewrite fold_left_app, IHfv. destruct (is_numeric v); reflexivity.
Qed.

Lemma collect_metrics_observations (runs : list SimulationResult)
  (acc : PyDict.t string (list scalar)) :
  fold_left (fun metrics run => collect_run append_metric (results run) metrics)
    runs acc
  = fold_left (fun acc kv => append_metric acc (fst kv) (snd kv))
      (flat_map (fun run => observations (results run)) runs) acc.
Proof.
  revert acc. induction runs as [|run runs IH]; intros acc;
    cbn [fold_left flat_map]; [reflexivity|].
  rewrite fold_left_app, IH, collect_run_observations. reflexivity.
Qed.

Lemma pydict_get_set {V : Type} (d : PyDict.t string V) (key k : string) (v : V) :
  PyDict.get (PyDict.set d key v) k
  = if String.eqb k key then Some v else PyDict.get d k.
Proof.
  induction d as [|[k0 v0] d IH]; simpl.
  - destruct (decide (key = k)) as [->|Hne].
    + rewrite String.eqb_refl. reflexivity.
    + destruct (String.eqb_spec k key); congruence.
  - destruct (decide (k0 = key)) as [->|Hne]; simpl.
    + destruct (decide (key = k)) as [->|Hne'].
      * rewrite String.eqb_refl. reflexivity.
      * destruct (String.eqb_spec k key); congruence.
    + destruct (decide (k0 = k)) as [->|Hne'].
      * destruct (String.eqb_spec k key); congruence.
      * exact IH.
Qed.

Lemma append_metric_get (obs : list (string * scalar)) (key : string) :
  forall acc : PyDict.t string (list scalar),
    PyDict.get
      (fold_left (fun acc kv => append_metric acc (fst kv) (snd kv)) obs acc) key
    = match PyDict.get acc key, observed key obs with
      | None, [] => None
      | None, vs => Some vs
      | Some collected, vs => Some (collected ++ vs)
      end.
Proof.
  induction obs as [|[k v] obs IH]; intros acc; cbn [fold_left].
  - unfold observed. simpl. destruct (PyDict.get acc key) as [c|];
      [rewrite app_nil_r|]; reflexivity.
  - rewrite IH. unfold observed. cbn [List.filter fst snd]. unfold append_metric.
    destruct (String.eqb_spec key k) as [->|Hne].
    + destruct (PyDict.get acc k) as [c|] eqn:Hc; rewrite pydict_get_set,
        String.eqb_refl; cbn [map snd]; [rewrite <- app_assoc|]; reflexivity.
    + destruct (PyDict.get acc k) as [c|] eqn:Hc; rewrite pydict_get_set;
        destruct (String.eqb_spec key k); try congruence; reflexivity.
Qed.

(** X15.  The summary has one row per metric key for which some recorded run
    gave a numeric final value, and no other row; the values of a row are
    the values observed for its key, run after run in the order of the runs,
    so that a run without the metric contributes nothing to it. *)
Theorem X15_metrics_are_grouped_by_key :
  forall (runs : list SimulationResult) (key : string),
    NoDup (PyDict.keys (collect_metrics runs)) /\
    PyDict.get (collect_metrics runs) key
    = match observed key (flat_map (fun run => observations (results run)) runs) with
      | [] => None
      | vs => Some vs
      end /\
    observed key (flat_map (fun run => observations (results run)) runs)
    = flat_map (fun run => observed key (observations (results run))) runs.
Proof.
  intros runs key. split; [|split].
  - unfold collect_metrics. apply fold_left_invariant; [|constructor].
    intros metrics run Hm. apply collect_run_invariant; [|exact Hm].
    intros acc k v Hacc. unfold append_metric.
    destruct (PyDict.get acc k); apply pydict_keys_set_NoDup, Hacc.
  - unfold collect_metrics. rewrite collect_metrics_observations, append_metric_get.
    reflexivity.
  - unfold observed. induction runs as [|run runs IH]; [reflexivity|].
    cbn [flat_map]. rewrite List.filter_app, List.map_app, IH. reflexivity.
Qed.

End Metrics.

(** ** Outcomes of the sensitivity analysis *)

Section SensitivityOutcomes.
Import MonteCarlo.
Context {G X Stats : Type}.
Context (pearsonr : list (option scalar) -> list scalar -> result (Q * Q)).

#[local] Abbreviation state := (@MonteCarlo.state G X Stats).
#[local] Abbreviation artifact := (@MonteCarlo.artifact Stats).

Context (write_file : artifact -> SE X unit).

(** The loop that writes the tables stops at the first write that raises:
    the exception is the one of the write of the next table. *)
Lemma save_tables_next (tables : PyDict.t string sensitivity_table) :
  forall (s s' : state) (e : exn),
    for_each tables
      (fun '(metric_name, corr_df) =>
         write write_file (sensitivity_csv (safe_name metric_name) corr_df)) s
    = (s', raise e) ->
    exists (done : PyDict.t string sensitivity_table)
           (next : string * sensitivity_table) (x : X),
      saved s' = saved s ++ map table_file done /\
      (done ++ [next]) `prefix_of` tables /\
      snd (write_file (table_file next) x) = raise e.
Proof.
  induction tables as [|[name t] tables IH]; intros s s' e; cbn [for_each].
  - discriminate.
  - unfold bind at 1. unfold write at 1.
    destruct (write_file (sensitivity_csv (safe_name name) t) (ext s))
      as [x [e'|[]]] eqn:Hw.
    + intros [= <- <-]. exists [], (name, t), (ext s). simpl.
      rewrite app_nil_r. split; [reflexivity|].
      split; [apply prefix_cons, prefix_nil|].
      unfold table_file. simpl. rewrite Hw. reflexivity.
    + intros Hrest. destruct (IH _ _ _ Hrest) as (done & next & x' & Hs & Hp & Hx).
      exists ((name, t) :: done), next, x'. rewrite Hs. cbn.
      rewrite <- app_assoc. split; [reflexivity|].
      split; [apply prefix_cons, Hp | exact Hx].
Qed.

(** X16.  The outcomes of the analysis.  Without a recorded run or without
    a sample set it returns no table, logs a warning and writes nothing.
    Otherwise all correlations are computed before any file is written:
    when one of them raises, the exception leaves the analysis and the
    runner is as it was.  When they return, the files of the tables are
    written in the order of the tables, and nothing else: all of them, and
    then the analysis logs once that it did and returns the tables, or the
    files before the first write that raises, and then that exception
    leaves the analysis and nothing is logged.  In no case are the recorded
    runs or the sample sets touched, and the analysis returns the tables
    when no write raises. *)
Theorem X16_sensitivity_files_follow_the_tables :
  forall s : state,
    let out := generate_sensitivity_analysis pearsonr write_file s in
    ((self_results s = [] \/ self_parameter_samples s = []) ->
     out = (log Warning_no_sensitivity_data s, ok [])) /\
    (self_results s <> [] -> self_parameter_samples s <> [] ->
     match analyse_metrics pearsonr (self_parameter_samples s)
             (columns_of (self_parameter_samples s))
             (collect_metrics_data (self_results s)) [] with
     | inl e => out = (s, raise e)
     | inr tables =>
         exists done : PyDict.t string sensitivity_table,
           saved (fst out) = saved s ++ map table_file done /\
           self_results (fst out) = self_results s /\
           self_parameter_samples (fst out) = self_parameter_samples s /\
           (snd out = ok tables /\ done = tables /\
            logged (fst out) = logged s ++ [Info_saved_sensitivity]
            \/
            exists (e : exn) (next : string * sensitivity_table) (x : X),
              snd out = raise e /\ (done ++ [next]) `prefix_of` tables /\
              snd (write_file (table_file next) x) = raise e /\
              logged (fst out) = logged s) /\
           ((forall (a : artifact) (x : X), snd (write_file a x) = ok tt) ->
            snd out = ok tables)
     end).
Proof.
  intros s out. subst out. rewrite generate_sensitivity_analysis_eq.
  split.
  - intros [-> | ->]; [reflexivity|]. rewrite Bool.orb_true_r. reflexivity.
  - intros Hruns Hrows.
    destruct (self_results s) as [|r runs] eqn:Hr; [congruence|].
    destruct (self_parameter_samples s) as [|row rows] eqn:Hp; [congruence|].
    cbn [length Nat.eqb orb].
    destruct (analyse_metrics _ _ _ _ _) as [e'|tables]; [reflexivity|].
    destruct (for_each tables _ s) as [s1 r1] eqn:Hloop.
    destruct (save_tables_spec write_file tables s s1 r1 Hloop)
      as (done & Hsaved & Hpre & Hok & _ & Hret & Hres & Hsamples & Hlog).
    destruct r1 as [e|[]].
    + destruct (save_tables_next tables s s1 e Hloop)
        as (done' & next & x & Hsaved' & Hpre' & Hx).
      exists done'. cbn [fst snd]. rewrite Hres, Hsamples, Hr, Hp.
      split; [exact Hsaved'|]. split; [reflexivity|]. split; [reflexivity|].
      split.
      * right. exists e, next, x. auto.
      * intros Hw. specialize (Hret Hw). discriminate.
    + exists tables. cbn [fst snd log saved self_results self_parameter_samples
                          logged].
      rewrite (Hok eq_refl) in Hsaved. rewrite Hsaved, Hres, Hsamples, Hlog, Hr, Hp.
      split; [reflexivity|]. split; [reflexivity|]. split; [reflexivity|].
      split; [left; auto | reflexivity].
Qed.

(** X17.  When the analysis returns and the sample sets have at least one
    parameter, the metrics that get a table are those with at least 10
    collected values, all of them and no other, in the order in which the
    metrics were first met; when no sample set has a parameter, no metric
    gets a table. *)
Theorem X17_metrics_with_ten_values_get_a_table :
  forall (s s' : state) (tables : PyDict.t string sensitivity_table),
    generate_sensitivity_analysis pearsonr write_file s = (s', ok tables) ->
    self_results s <> [] ->
    self_parameter_samples s <> [] ->
    PyDict.keys tables =
      match columns_of (self_parameter_samples s) with
      | [] => []
      | _ :: _ => analysed (collect_metrics_data (self_results s))
      end.
Proof.
  intros s s' tables Hrun Hruns Hrows.
  rewrite generate_sensitivity_analysis_eq in Hrun.
  destruct (self_results s) as [|r runs] eqn:Hr; [congruence|].
  destruct (self_parameter_samples s) as [|row rows] eqn:Hp; [congruence|].
  cbn [length Nat.eqb orb] in Hrun.
  destruct (analyse_metrics _ _ _ _ _) as [e'|out] eqn:Han; [discriminate|].
  destruct (for_each out _ s) as [s1 [e|[]]]; [discriminate|].
  injection Hrun as _ <-.
  destruct (columns_of (row :: rows)) as [|c columns] eqn:Hcols.
  - apply analyse_metrics_no_columns in Han. subst out. reflexivity.
  - apply analyse_metrics_keys in Han; [exact Han | discriminate|].
    simpl. apply collect_metrics_data_NoDup.
Qed.

End SensitivityOutcomes.

(** A [pearsonr] that rejects its input. *)
Definition rejecting (xs : list (option scalar)) (ys : list scalar)
  : result (Q * Q) :=
  raise (ValueError "array must not contain infs or NaNs").

(** A disk on which no table of the analysis can be created. *)
Definition no_sensitivity_files (a : @MonteCarlo.artifact nat) : SE nat unit :=
  fun x =>
    match a with
    | MonteCarlo.sensitivity_csv name _ =>
        (S x, raise (OtherError ("cannot write sensitivity_" ++ name)))
    | _ => (S x, ok tt)
    end.

Section SensitivityOutcomesExamples.
Import MonteCarlo.

(** A correlation that raises: the exception leaves the analysis, no file is
    written and nothing is logged. *)
Lemma ten_runs_rejected :
  generate_sensitivity_analysis rejecting written ten_runs
  = (ten_runs, raise (ValueError "array must not contain infs or NaNs")).
Proof. vm_compute. reflexivity. Qed.

(** A write that raises: the exception leaves the analysis, the file is not
    among the saved ones and the final record is not logged. *)
Lemma ten_runs_not_written :
  let out := generate_sensitivity_analysis scaled_covariance
               no_sensitivity_files ten_runs in
  snd out = raise (OtherError "cannot write sensitivity_Capacity_capacity") /\
  saved (fst out) = saved ten_runs /\
  logged (fst out) = logged ten_runs.
Proof. vm_compute. repeat split. Qed.

Lemma X17_metrics_with_ten_values_get_a_table_ten_runs :
  PyDict.keys [("Capacity.capacity", ten_runs_ranking)] =
    match columns_of (self_parameter_samples ten_runs) with
    | [] => []
    | _ :: _ => analysed (collect_metrics_data (self_results ten_runs))
    end.
Proof.
  apply (X17_metrics_with_ten_values_get_a_table scaled_covariance written
           ten_runs
           (fst (generate_sensitivity_analysis scaled_covariance written ten_runs))
           [("Capacity.capacity", ten_runs_ranking)]).
  - vm_compute. reflexivity.
  - vm_compute. discriminate.
  - vm_compute. discriminate.
Defined.

End SensitivityOutcomesExamples.

(** ** What an iteration samples and writes *)

Section IterationFacts.
Import MonteCarlo.
Context {G : Type} (np : numpy_random G).

Lemma sample_into_keys (dists : list ParameterDistribution) :
  forall (samples out : SampledParams) (g g' : G),
    sample_into np samples dists g = (g', ok out) ->
    NoDup (PyDict.keys samples) ->
    NoDup (PyDict.keys out) /\
    (forall k, k ∈ PyDict.keys out <->
               k ∈ PyDict.keys samples \/
               k ∈ map (fun d => join_path (param_path d)) dists) /\
    (NoDup (PyDict.keys samples ++ map (fun d => join_path (param_path d)) dists) ->
     PyDict.keys out
     = PyDict.keys samples ++ map (fun d => join_path (param_path d)) dists).
Proof.
  induction dists as [|d dists IH]; intros samples out g g' Hrun Hnd.
  - injection Hrun as _ <-. split; [exact Hnd|]. split.
    + intros k. split; [auto | intros [H|H]; [exact H | inversion H]].
    + intros _. simpl. rewrite app_nil_r. reflexivity.
  - cbn [sample_into] in Hrun. unfold bind in Hrun.
    destruct (Distribution.sample np d g) as [g1 [e|v]]; [discriminate|].
    destruct (IH _ _ _ _ Hrun (pydict_keys_set_NoDup _ _ _ Hnd))
      as (Hout & Hmem & Horder).
    split; [exact Hout|]. split.
    + intros k. rewrite Hmem, pydict_keys_set. cbn [map].
      destruct (decide (join_path (param_path d) ∈ PyDict.keys samples))
        as [Hin|Hnin].
      * split; [intros [H|H]; [auto | right; right; exact H]|].
        intros [H|H]; [auto|]. apply elem_of_cons in H as [->|H]; auto.
      * rewrite elem_of_app, list_elem_of_singleton. split.
        -- intros [[H| ->]|H]; [auto | right; left | right; right; exact H].
        -- intros [H|H]; [auto|]. apply elem_of_cons in H as [->|H]; auto.
    + intros Hall. cbn [map] in Hall |- *.
      assert (Hfresh : join_path (param_path d) ∉ PyDict.keys samples).
      { apply NoDup_app in Hall as (_ & Hdisj & _). intros Hin.
        apply (Hdisj _ Hin). left. }
      rewrite pydict_keys_set in Horder.
      destruct (decide (join_path (param_path d) ∈ PyDict.keys samples));
        [contradiction|].
      rewrite Horder; [rewrite <- app_assoc; reflexivity|].
      rewrite <- app_assoc. exact Hall.
Qed.

(** X18.  A sample set has one entry per distinct joined path of the
    distributions, and no other: distributions whose paths join to the same
    name share one entry.  When the joined paths are distinct, the entries
    are in the order of the distributions. *)
Theorem X18_one_sample_per_joined_path :
  forall (mc : MonteCarloSimulation) (g g' : G) (samples : SampledParams),
    _sample_parameters np mc g = (g', ok samples) ->
    NoDup (PyDict.keys samples) /\
    (forall k, k ∈ PyDict.keys samples <->
               k ∈ map (fun d => join_path (param_path d))
                     (parameter_distributions mc)) /\
    (NoDup (map (fun d => join_path (param_path d)) (parameter_distributions mc)) ->
     PyDict.keys samples
     = map (fun d => join_path (param_path d)) (parameter_distributions mc)).
Proof.
  intros mc g g' samples Hrun. unfold _sample_parameters in Hrun.
  destruct (sample_into_keys _ _ _ _ _ Hrun) as (Hnd & Hmem & Horder);
    [constructor|].
  split; [exact Hnd|]. split; [|exact Horder].
  intros k. rewrite Hmem. split; [intros [H|H]; [inversion H | exact H] | auto].
Qed.

End IterationFacts.

Section ApplySamples.
Import Store.

(** X19.  The configuration [_apply_samples] returns is the deep copy of the
    base configuration with the samples assigned to entries, not to paths.
    The entries assigned are those that the paths of the distributions with
    a sample lead to in the copy.  A read of the returned configuration
    whose walk reads no assigned entry returns what the same read returns in
    the base configuration: the same exception, the same scalar, or the
    copy of the same object.  A read that ends at an assigned entry, along
    a walk that reads no assigned entry before, returns the sample last
    assigned to the entry. *)
Theorem X19_samples_reach_their_entries :
  forall (fuel : nat) (dists : list ParameterDistribution) (config c : val)
         (samples : SampledParams) (h h' : heap),
    closed h -> valid h config ->
    _apply_samples fuel dists config samples h = (h', ok c) ->
    exists (m : memo) (h1 : heap),
      copy_deepcopy fuel config h = (h1, ok c) /\
      (forall entry v,
          (entry, v) ∈ assignments h1 c dists samples <->
          exists param, param ∈ dists /\
            PyDict.get samples (join_path (param_path param)) = Some v /\
            entry_of h1 c (param_path param) = Some entry) /\
      (forall param,
          param ∈ dists ->
          PyDict.get samples (join_path (param_path param)) <> None ->
          entry_of h1 c (param_path param) <> None) /\
      (forall path,
          (forall entry, entry ∈ trail h' c path ->
                         assigned_value (assignments h1 c dists samples) entry
                         = None) ->
          similar m (get_nested_param h config path)
            (get_nested_param h' c path)) /\
      (forall pre l key v,
          get_nested_param h1 c pre = ok (Ref l) ->
          (forall entry, entry ∈ trail h1 c pre ->
                         assigned_value (assignments h1 c dists samples) entry
                         = None) ->
          assigned_value (assignments h1 c dists samples) (l, key) = Some v ->
          get_nested_param h' c (pre ++ [key]) = ok (Scalar v)).
Proof.
  intros fuel dists config c samples h h' Hclosed Hvalid Hrun.
  destruct (apply_samples_content fuel dists config c samples h h'
              Hclosed Hvalid Hrun)
    as (m & h1 & Hcopy & Hinv & Hc & Hafter & Hdom & Hentries).
  exists m, h1. split; [exact Hcopy|].
  split; [intros entry v; apply in_assignments|].
  split; [intros param; apply (proj1 (Forall_forall _ _) Hentries)|].
  split.
  - intros path Hoff.
    destruct (get_nested_param_on_trail h' h1 path c) as [Hsame _].
    { intros l key Hin. rewrite Hafter. unfold getitem_after.
      rewrite (Hoff (l, key) Hin). reflexivity. }
    rewrite <- Hsame. apply (similar_reads h h1 m Hinv), Hc.
  - intros pre l key v Hpre Hoff Hassigned.
    destruct (get_nested_param_on_trail h1 h' pre c) as [Hsame _].
    { intros l0 k0 Hin. rewrite Hafter. unfold getitem_after.
      rewrite (Hoff (l0, k0) Hin). reflexivity. }
    assert (Hitem : getitem h' (Ref l) key = ok (Scalar v)).
    { rewrite Hafter. unfold getitem_after. rewrite Hassigned. reflexivity. }
    rewrite heap_get_nested_param_snoc, Hsame, Hpre. exact Hitem.
Qed.

End ApplySamples.

(** An experiment on the solar and wind capacities of
    [renewable_grid_config]. *)
Definition solar_wind_experiment : MonteCarlo.MonteCarloSimulation :=
  {| MonteCarlo.base_config := renewable_grid_config;
     MonteCarlo.parameter_distributions :=
       [{| param_path := ["renewable"; "solar"];
           distribution := "uniform";
           params := {[ "low" := VScalar (SInt 90); "high" := VScalar (SInt 110) ]} |};
        {| param_path := ["renewable"; "wind"];
           distribution := "uniform";
           params := {[ "low" := VScalar (SInt 40); "high" := VScalar (SInt 60) ]} |}];
     MonteCarlo.n_iterations := 2;
     MonteCarlo.save_all_runs := false |}.

Definition solar_wind_samples : SampledParams :=
  [("renewable.solar", SFloat 90); ("renewable.wind", SFloat 40)].

Section IterationExamples.
Import MonteCarlo.

Lemma X18_one_sample_per_joined_path_solar_wind :
  NoDup (PyDict.keys solar_wind_samples) /\
  (forall k, k ∈ PyDict.keys solar_wind_samples <->
             k ∈ map (fun d => join_path (param_path d))
                   (parameter_distributions solar_wind_experiment)) /\
  (NoDup (map (fun d => join_path (param_path d))
            (parameter_distributions solar_wind_experiment)) ->
   PyDict.keys solar_wind_samples
   = map (fun d => join_path (param_path d))
       (parameter_distributions solar_wind_experiment)).
Proof.
  apply (X18_one_sample_per_joined_path degenerate solar_wind_experiment
           0%nat 2%nat solar_wind_samples).
  vm_compute. reflexivity.
Defined.

End IterationExamples.

(** A distribution on [["a"; "v"]]. *)
Definition av_uniform : ParameterDistribution :=
  {| param_path := ["a"; "v"];
     distribution := "uniform";
     params := {[ "low" := VScalar (SInt 0); "high" := VScalar (SInt 1) ]} |}.

Section ApplySamplesExamples.
Import Store.

Lemma shared_heap_closed : closed shared_heap.
Proof.
  intros l o v Hl Hv. unfold shared_heap in Hl.
  apply lookup_insert_Some in Hl as [[<- <-]|[_ Hl]].
  - destruct Hv as [key Hkey].
    apply lookup_insert_Some in Hkey as [[_ <-]|[_ Hkey]].
    + apply elem_of_dom. eexists. reflexivity.
    + apply lookup_singleton_Some in Hkey as [_ <-].
      apply elem_of_dom. eexists. reflexivity.
  - apply lookup_singleton_Some in Hl as [<- <-].
    destruct Hv as [key Hkey]. apply lookup_singleton_Some in Hkey as [_ <-].
    exact I.
Qed.

(** The deep copy keeps the sharing: in the copy of
    [{"a": d, "b": d}] one dictionary is under both keys, so the sample
    assigned at [["a"; "v"]] is also what [["b"; "v"]] reads, while the base
    configuration still reads 1. *)
Lemma shared_dictionary_stays_shared :
  let out := _apply_samples 10 [av_uniform] (Ref 0%nat)
               [("a.v", SFloat (1 # 4))] shared_heap in
  snd out = ok (Ref 2%nat) /\
  get_nested_param (fst out) (Ref 2%nat) ["a"; "v"] = ok (Scalar (SFloat (1 # 4))) /\
  get_nested_param (fst out) (Ref 2%nat) ["b"; "v"] = ok (Scalar (SFloat (1 # 4))) /\
  get_nested_param (fst out) (Ref 2%nat) ["a"] = ok (Ref 3%nat) /\
  get_nested_param (fst out) (Ref 2%nat) ["b"] = ok (Ref 3%nat) /\
  get_nested_param (fst out) (Ref 0%nat) ["b"; "v"] = ok (Scalar (SInt 1)).
Proof. vm_compute. repeat split; reflexivity. Qed.

Lemma X19_samples_reach_their_entries_shared :
  let samples := [("a.v", SFloat (1 # 4))] in
  let h' := fst (_apply_samples 10 [av_uniform] (Ref 0%nat) samples shared_heap) in
  exists (m : memo) (h1 : heap),
    copy_deepcopy 10 (Ref 0%nat) shared_heap = (h1, ok (Ref 2%nat)) /\
    (forall entry v,
        (entry, v) ∈ assignments h1 (Ref 2%nat) [av_uniform] samples <->
        exists param, param ∈ [av_uniform] /\
          PyDict.get samples (join_path (param_path param)) = Some v /\
          entry_of h1 (Ref 2%nat) (param_path param) = Some entry) /\
    (forall param,
        param ∈ [av_uniform] ->
        PyDict.get samples (join_path (param_path param)) <> None ->
        entry_of h1 (Ref 2%nat) (param_path param) <> None) /\
    (forall path,
        (forall entry,
            entry ∈ trail h' (Ref 2%nat) path ->
            assigned_value (assignments h1 (Ref 2%nat) [av_uniform] samples) entry
            = None) ->
        similar m (get_nested_param shared_heap (Ref 0%nat) path)
          (get_nested_param h' (Ref 2%nat) path)) /\
    (forall pre l key v,
        get_nested_param h1 (Ref 2%nat) pre = ok (Ref l) ->
        (forall entry,
            entry ∈ trail h1 (Ref 2%nat) pre ->
            assigned_value (assignments h1 (Ref 2%nat) [av_uniform] samples) entry
            = None) ->
        assigned_value (assignments h1 (Ref 2%nat) [av_uniform] samples) (l, key)
        = Some v ->
        get_nested_param h' (Ref 2%nat) (pre ++ [key]) = ok (Scalar v)).
Proof.
  intros samples h'.
  apply (X19_samples_reach_their_entries 10 [av_uniform] (Ref 0%nat) (Ref 2%nat)
           samples shared_heap h').
  - apply shared_heap_closed.
  - apply elem_of_dom. eexists. reflexivity.
  - vm_compute. reflexivity.
Defined.

End ApplySamplesExamples.

(** ** The components of the plant *)

(** The curtailment rate [GridIntegration.step] records for a total capacity
    and a transmission capacity, when it records one. *)
Definition curtailment (total grid_capacity : Q) : Q :=
  if Qle_bool total grid_capacity then 0%Q
  else ((total - grid_capacity) / total * 100)%Q.

Section GridStep.
Import Plant.

Lemma curtailment_bounds (total grid_capacity : Q) :
  (0 <= grid_capacity)%Q ->
  (0 <= curtailment total grid_capacity)%Q /\
  (curtailment total grid_capacity <= 100)%Q /\
  (curtailment total grid_capacity == 0 <-> total <= grid_capacity)%Q.
Proof.
  intros Hcap. unfold curtailment.
  destruct (Qle_bool total grid_capacity) eqn:Hle.
  - apply Qle_bool_iff in Hle. repeat split; auto; try discriminate.
  - assert (Hlt : (grid_capacity < total)%Q).
    { apply Qnot_le_lt. intros H. apply Qle_bool_iff in H. congruence. }
    assert (Hpos : (0 < total)%Q) by (eapply Qle_lt_trans; eauto).
    assert (Hshare : (0 < (total - grid_capacity) / total)%Q).
    { apply Qlt_shift_div_l; [exact Hpos|]. rewrite Qmult_0_l.
      unfold Qminus. rewrite <- (Qplus_opp_r grid_capacity).
      apply Qplus_lt_l. exact Hlt. }
    assert (Hone : ((total - grid_capacity) / total <= 1)%Q).
    { apply Qle_shift_div_r; [exact Hpos|]. rewrite Qmult_1_l.
      unfold Qminus. rewrite <- (Qplus_0_r total) at 2.
      apply Qplus_le_r. apply (Qopp_le_compat 0 grid_capacity) in Hcap.
      exact Hcap. }
    split; [|split; [|split]].
    + apply Qmult_le_0_compat; [apply Qlt_le_weak, Hshare | discriminate].
    + apply Qle_trans with (1 * 100)%Q; [|discriminate].
      apply Qmult_le_compat_r; [exact Hone | discriminate].
    + intros Hzero. exfalso.
      assert (H : (0 * 100 < (total - grid_capacity) / total * 100)%Q).
      { apply Qmult_lt_compat_r; [reflexivity | exact Hshare]. }
      rewrite Hzero in H. apply (Qlt_irrefl 0), H.
    + intros H. exfalso. apply (Qlt_irrefl total).
      eapply Qle_lt_trans; eauto.
Qed.

(** X20.  One step of an initialised grid component whose transmission
    capacity is not negative returns normally and appends one row: the
    year, the transmission capacity before this year's expansion, and a
    curtailment rate between 0 and 100 that is 0 exactly when the total of
    the capacities it reads does not exceed the transmission capacity.  The
    transmission capacity is then expanded by the configured rate, and the
    capacity object is not touched. *)
Theorem X20_grid_step_records_a_bounded_rate :
  forall (time_step : Z) (w : World) (module : RenewableCapacityExpansion)
         (self : GridAttributes),
    renewable_capacity_module (grid w) = true ->
    renewable w = Some module ->
    grid_attributes (grid w) = Some self ->
    (0 <= grid_transmission_capacity self)%Q ->
    exists (w' : World) (self' : GridAttributes) (rate : Q),
      grid_step time_step w = (w', ok tt) /\
      grid_attributes (grid w') = Some self' /\
      grid_history self' =
        grid_history self
        ++ [{| grid_year := time_step;
               grid_capacity_gw := grid_transmission_capacity self;
               curtailment_rate := rate |}] /\
      (0 <= rate)%Q /\ (rate <= 100)%Q /\
      (rate == 0 <->
       sum_values (capacity module) <= grid_transmission_capacity self)%Q /\
      grid_transmission_capacity self' =
        (grid_transmission_capacity self * (1 + expansion_rate self))%Q /\
      expansion_rate self' = expansion_rate self /\
      renewable w' = renewable w /\ bess w' = bess w.
Proof.
  intros time_step w module self Hmod Hren Hattr Hcap.
  destruct (curtailment_bounds (sum_values (capacity module))
              (grid_transmission_capacity self) Hcap) as (H0 & H100 & Hzero).
  unfold grid_step. rewrite Hmod, Hren, Hattr.
  unfold curtailment in H0, H100, Hzero.
  destruct (Qle_bool (sum_values (capacity module))
              (grid_transmission_capacity self)) eqn:Hle.
  - eexists _, _, _. split; [reflexivity|]. cbn. repeat split; auto; apply Hzero.
  - assert (Hne : Qeq_bool (sum_values (capacity module)) 0 = false).
    { destruct (Qeq_bool (sum_values (capacity module)) 0) eqn:Heq; [|reflexivity].
      apply Qeq_bool_iff in Heq. exfalso.
      assert (H : Qle_bool (sum_values (capacity module))
                    (grid_transmission_capacity self) = true).
      { apply Qle_bool_iff. rewrite Heq. exact Hcap. }
      congruence. }
    unfold divide. rewrite Hne. cbn.
    eexists _, _, _. split; [reflexivity|]. cbn. repeat split; auto; apply Hzero.
Qed.

End GridStep.

(** [d[key]] of a key that is there. *)
Definition item (d : PyDict.t string Q) (key : string) : Q :=
  match PyDict.get d key with
  | Some v => v
  | None => 0%Q
  end.

(** The capacities after one more year, without innovation boost. *)
Definition expand (rates cap : PyDict.t string Q) : PyDict.t string Q :=
  let solar := item cap "solar" in
  let wind := item cap "wind" in
  PyDict.set
    (PyDict.set cap "solar" (solar + solar * item rates "solar" * 1)%Q)
    "wind" (wind + wind * item rates "wind" * 1)%Q.

Section PlantRuns.
Import Plant.
Context (cfg : Settings) (first_year : Z).

(** The capacities, the transmission capacity and the storage power after
    [k] years. *)
Definition capacities (k : nat) : PyDict.t string Q :=
  Nat.iter k (expand (renewable_capacity_growth_rates cfg))
    (renewable_capacity_initial cfg).

Definition transmission (k : nat) : Q :=
  Nat.iter k (fun c => (c * (1 + grid_annual_expansion_rate cfg))%Q)
    (grid_initial_transmission_gw cfg).

Definition power (k : nat) : Q :=
  Nat.iter k (fun p => (p + bess_annual_addition_gw cfg)%Q)
    (bess_initial_power_gw cfg).

Definition energy (k : nat) : Q :=
  match k with
  | O => bess_initial_energy_gwh cfg
  | S _ => (power k * bess_energy_power_ratio cfg)%Q
  end.

(** The rows of year [first_year + k].  The grid row is computed from the
    capacities after [lag + k] years. *)
Definition capacity_row (k : nat) : CapacityRow :=
  {| capacity_year := first_year + Z.of_nat k;
     solar_gw := item (capacities (S k)) "solar";
     wind_gw := item (capacities (S k)) "wind" |}.

Definition grid_row (lag k : nat) : GridRow :=
  {| grid_year := first_year + Z.of_nat k;
     grid_capacity_gw := transmission k;
     curtailment_rate :=
       curtailment (sum_values (capacities (lag + k))) (transmission k) |}.

Definition bess_row (lag k : nat) : BESSRow :=
  {| bess_year := first_year + Z.of_nat k;
     bess_power_gw := power (S k);
     bess_energy_gwh := (power (S k) * bess_energy_power_ratio cfg)%Q;
     bess_curtailment_rate := Some (curtailment_rate (grid_row lag k)) |}.

(** The world in which the capacity component has made [kc] steps, the grid
    component [kg] and, when there is one, the storage component [kb]. *)
Definition stepped (lag : nat) (storage : bool) (kc kg kb : nat) : World :=
  {| bri_innovation_boost := None;
     renewable :=
       Some {| capacity_history := map capacity_row (seq 0 kc);
               capacity := capacities kc;
               growth_rates := renewable_capacity_growth_rates cfg |};
     grid :=
       {| renewable_capacity_module := true;
          grid_attributes :=
            Some {| grid_history := map (grid_row lag) (seq 0 kg);
                    grid_transmission_capacity := transmission kg;
                    expansion_rate := grid_annual_expansion_rate cfg |} |};
     bess :=
       if storage
       then Some {| power_gw := power kb;
                    energy_gwh := energy kb;
                    annual_addition_gw := bess_annual_addition_gw cfg;
                    energy_power_ratio := bess_energy_power_ratio cfg;
                    bess_history := map (bess_row lag) (seq 0 kb);
                    _grid_mod := true |}
       else None |}.

(** The configuration has the two capacities and their growth rates, the
    transmission capacity is not negative and does not change sign. *)
Definition sound : Prop :=
  is_Some (PyDict.get (renewable_capacity_initial cfg) "solar") /\
  is_Some (PyDict.get (renewable_capacity_initial cfg) "wind") /\
  is_Some (PyDict.get (renewable_capacity_growth_rates cfg) "solar") /\
  is_Some (PyDict.get (renewable_capacity_growth_rates cfg) "wind") /\
  (0 <= grid_initial_transmission_gw cfg)%Q /\
  (0 <= 1 + grid_annual_expansion_rate cfg)%Q.

Hypothesis Hsound : sound.

Lemma expand_get (rates cap : PyDict.t string Q) :
  PyDict.get (expand rates cap) "solar"
  = Some (item cap "solar" + item cap "solar" * item rates "solar" * 1)%Q /\
  PyDict.get (expand rates cap) "wind"
  = Some (item cap "wind" + item cap "wind" * item rates "wind" * 1)%Q.
Proof.
  unfold expand. cbv zeta. rewrite !pydict_get_set. split; reflexivity.
Qed.

Lemma capacities_S (k : nat) :
  capacities (S k) = expand (renewable_capacity_growth_rates cfg) (capacities k).
Proof. reflexivity. Qed.

Lemma transmission_S (k : nat) :
  transmission (S k)
  = (transmission k * (1 + grid_annual_expansion_rate cfg))%Q.
Proof. reflexivity. Qed.

Lemma power_S (k : nat) :
  power (S k) = (power k + bess_annual_addition_gw cfg)%Q.
Proof. reflexivity. Qed.

Lemma capacities_present (k : nat) :
  is_Some (PyDict.get (capacities k) "solar") /\
  is_Some (PyDict.get (capacities k) "wind").
Proof.
  destruct k as [|k].
  - destruct Hsound as (H1 & H2 & _). split; assumption.
  - rewrite capacities_S.
    destruct (expand_get (renewable_capacity_growth_rates cfg) (capacities k))
      as [-> ->].
    split; eauto.
Qed.

Lemma transmission_nonnegative (k : nat) : (0 <= transmission k)%Q.
Proof.
  destruct Hsound as (_ & _ & _ & _ & H0 & Hr).
  induction k as [|k IH]; [exact H0|].
  rewrite transmission_S. apply Qmult_le_0_compat; assumption.
Qed.

Lemma capacity_step_stepped (lag : nat) (storage : bool) (kc kg kb : nat) :
  capacity_step (first_year + Z.of_nat kc) (stepped lag storage kc kg kb)
  = (stepped lag storage (S kc) kg kb, ok tt).
Proof.
  destruct (capacities_present kc) as [[solar Hs] [wind Hw]].
  destruct Hsound as (_ & _ & [rs Hrs] & [rw Hrw] & _).
  unfold capacity_step, stepped.
  cbn [bri_innovation_boost renewable capacity growth_rates capacity_history].
  unfold getitem. rewrite Hs, Hw, Hrs, Hrw. unfold rbind, ok.
  unfold with_renewable.
  cbn [bri_innovation_boost renewable capacity growth_rates capacity_history
       grid bess].
  rewrite seq_S, List.map_app. cbn [List.map plus].
  unfold capacity_row at 3. rewrite !capacities_S.
  destruct (expand_get (renewable_capacity_growth_rates cfg) (capacities kc))
    as [Hes Hew].
  unfold item at 1 2. rewrite Hes, Hew.
  unfold expand, item. rewrite Hs, Hw, Hrs, Hrw. reflexivity.
Qed.

Lemma grid_step_stepped (lag : nat) (storage : bool) (kc kg kb : nat) :
  (lag + kg)%nat = kc ->
  grid_step (first_year + Z.of_nat kg) (stepped lag storage kc kg kb)
  = (stepped lag storage kc (S kg) kb, ok tt).
Proof.
  intros <-. pose proof (transmission_nonnegative kg) as Hcap.
  unfold grid_step, stepped.
  cbn [renewable grid renewable_capacity_module grid_attributes capacity
       grid_history grid_transmission_capacity expansion_rate].
  rewrite seq_S, List.map_app. cbn [List.map plus].
  change (grid_row lag kg)
    with {| grid_year := first_year + Z.of_nat kg;
            grid_capacity_gw := transmission kg;
            curtailment_rate :=
              curtailment (sum_values (capacities (lag + kg))) (transmission kg) |}.
  unfold curtailment.
  destruct (Qle_bool (sum_values (capacities (lag + kg))) (transmission kg))
    eqn:Hle; [reflexivity|].
  assert (Hne : Qeq_bool (sum_values (capacities (lag + kg))) 0 = false).
  { destruct (Qeq_bool (sum_values (capacities (lag + kg))) 0) eqn:Heq;
      [|reflexivity].
    apply Qeq_bool_iff in Heq. exfalso.
    assert (H : Qle_bool (sum_values (capacities (lag + kg))) (transmission kg)
                = true) by (apply Qle_bool_iff; rewrite Heq; exact Hcap).
    congruence. }
  unfold divide. rewrite Hne. reflexivity.
Qed.

Lemma bess_step_stepped (lag : nat) (kc kb : nat) :
  bess_step (first_year + Z.of_nat kb) (stepped lag true kc (S kb) kb)
  = (stepped lag true kc (S kb) (S kb), ok tt).
Proof.
  unfold bess_step, stepped.
  cbn [bess power_gw energy_gwh annual_addition_gw energy_power_ratio
       bess_history _grid_mod].
  unfold last_curtailment_rate.
  cbn [grid grid_attributes grid_history].
  rewrite (seq_S kb 0), !List.map_app. cbn [List.map plus].
  rewrite last_snoc. unfold rbind, ok.
  unfold with_bess. cbn [bri_innovation_boost renewable grid]. reflexivity.
Qed.

(** A year loop that takes the world from [after k] to [after (S k)] in
    year [first_year + k]. *)
Lemma years_loop (e : Engine.SimulationEngine World) (after : nat -> World)
  (n : nat) :
  Engine.start_year e = first_year ->
  Z.to_nat (Engine.end_year e + 1 - first_year) = n ->
  (forall k log, (k < n)%nat ->
     exists log',
       for_each (Engine.components e)
         (fun c =>
            Engine.invoke (Step (Engine.name c) (first_year + Z.of_nat k))
              (Engine.step c (first_year + Z.of_nat k)))
         (after k, log)
       = ((after (S k), log'), ok tt)) ->
  forall log, exists log',
    Engine._run_simulation_loop e None (after 0%nat, log)
    = ((after n, log'), ok tt).
Proof.
  intros Hstart Hn Hyear log. unfold Engine._run_simulation_loop, range.
  rewrite Hstart, Hn.
  assert (H : forall m a log, (a + m <= n)%nat ->
            exists log',
              for_each (map (fun i => first_year + Z.of_nat i) (seq a m))
                (fun year =>
                   bind
                     (for_each (Engine.components e)
                        (fun c =>
                           Engine.invoke (Step (Engine.name c) year)
                             (Engine.step c year)))
                     (fun _ => ret tt))
                (after a, log)
              = ((after (a + m)%nat, log'), ok tt)).
  { induction m as [|m IH]; intros a log0 Ham.
    - exists log0. rewrite Nat.add_0_r. reflexivity.
    - cbn [seq List.map for_each]. unfold bind at 1. unfold bind at 1.
      destruct (Hyear a log0 ltac:(lia)) as [log1 ->].
      destruct (IH (S a) log1 ltac:(lia)) as [log2 Hrest].
      exists log2. replace (a + S m)%nat with (S a + m)%nat by lia.
      exact Hrest. }
  exact (H n 0%nat log ltac:(lia)).
Qed.

Lemma capacity_finalize_stepped (lag : nat) (storage : bool) (kc kg kb : nat) :
  capacity_finalize (stepped lag storage kc kg kb)
  = (stepped lag storage kc kg kb, ok tt).
Proof.
  destruct (capacities_present kc) as [[solar Hs] [wind Hw]].
  unfold capacity_finalize, stepped. cbn [renewable capacity]. unfold getitem.
  rewrite Hs, Hw. reflexivity.
Qed.

Lemma grid_finalize_stepped (lag : nat) (storage : bool) (kc kg kb : nat) :
  grid_finalize (stepped lag storage kc kg kb)
  = (stepped lag storage kc kg kb, ok tt).
Proof. reflexivity. Qed.

(** The run of the capacity component followed by the grid component, and
    of the two in the other order, with or without a storage component at
    the end. *)
Lemma run_capacity_grid (analytics : World -> World) (end_year : Z)
  (capacity_first storage : bool) :
  let kinds :=
    (if capacity_first then [Capacity; Grid] else [Grid; Capacity])
    ++ (if storage then [Storage] else []) in
  let lag := if capacity_first then 1%nat else 0%nat in
  let n := Z.to_nat (end_year + 1 - first_year) in
  Engine.run analytics (engine cfg first_year end_year kinds) None (created, [])
  = ((analytics (stepped lag storage n n n),
      Engine.lifecycle_calls (engine cfg first_year end_year kinds)),
     ok tt).
Proof.
  intros kinds lag n.
  set (e := engine cfg first_year end_year kinds).
  assert (Hinit : Engine._initialize_components e (created, [])
                  = ((stepped lag storage 0 0 0,
                      map Initialize (Engine.registry e)), ok tt)).
  { unfold e, kinds, lag. destruct capacity_first, storage; reflexivity. }
  assert (Hloop : exists log,
             Engine._run_simulation_loop e None
               (stepped lag storage 0 0 0, map Initialize (Engine.registry e))
             = ((stepped lag storage n n n, log), ok tt)).
  { apply (years_loop e (fun k => stepped lag storage k k k) n);
      [unfold e, kinds; destruct capacity_first, storage; reflexivity
      |unfold e, kinds; destruct capacity_first, storage; reflexivity|].
    intros k log _. unfold e, kinds, lag.
    destruct capacity_first, storage;
      cbn [engine List.map fold_left Engine.add_component Engine.new
           Engine.components app component GridIntegration.component
           Engine.name Engine.step for_each];
      unfold bind, Engine.invoke;
      repeat first
        [ rewrite capacity_step_stepped
        | rewrite grid_step_stepped by reflexivity
        | rewrite bess_step_stepped ];
      eexists; reflexivity. }
  destruct Hloop as [log1 Hloop].
  assert (Hfin : exists log,
             Engine._finalize_components analytics e (stepped lag storage n n n, log1)
             = ((analytics (stepped lag storage n n n), log), ok tt)).
  { unfold Engine._finalize_components, e, kinds, lag.
    destruct capacity_first, storage;
      cbn [engine List.map fold_left Engine.add_component Engine.new
           Engine.components app component GridIntegration.component
           Engine.name Engine.finalize for_each];
      unfold bind, Engine.invoke;
      repeat first
        [ rewrite capacity_finalize_stepped
        | rewrite grid_finalize_stepped ];
      eexists; reflexivity. }
  destruct Hfin as [log2 Hfin].
  assert (Hrun : Engine.run analytics e None (created, [])
                 = ((analytics (stepped lag storage n n n), log2), ok tt)).
  { unfold Engine.run. unfold bind at 1. rewrite Hinit.
    unfold bind at 1. rewrite Hloop. exact Hfin. }
  rewrite Hrun. f_equal. f_equal.
  exact (emits_ok _ _ _ _ _ _ (emits_run analytics e None) Hrun).
Qed.

End PlantRuns.

Section ComponentSteps.
Import Plant.

(** X21.  A step of the grid component that raises leaves every object as
    it was and records nothing.  It raises an [AttributeError] when the
    component or the capacity object was not initialised, and a
    [ZeroDivisionError] when the capacities it reads add up to zero while
    the transmission capacity is negative; there is no other failure. *)
Theorem X21_grid_step_failures :
  forall (time_step : Z) (w w' : World) (e : exn),
    grid_step time_step w = (w', raise e) ->
    w' = w /\
    ((e = AttributeError "capacity" /\
      (renewable_capacity_module (grid w) = false \/ renewable w = None)) \/
     (e = AttributeError "grid_transmission_capacity" /\
      grid_attributes (grid w) = None) \/
     (e = OtherError "ZeroDivisionError" /\
      exists (module : RenewableCapacityExpansion) (self : GridAttributes),
        renewable w = Some module /\
        grid_attributes (grid w) = Some self /\
        (sum_values (capacity module) == 0)%Q /\
        (grid_transmission_capacity self < 0)%Q)).
Proof.
  intros time_step w w' e. unfold grid_step, raise.
  destruct (renewable_capacity_module (grid w)) eqn:Hmod.
  2: { intros [= <- <-]. split; [reflexivity|]. left. auto. }
  destruct (renewable w) as [module|] eqn:Hren.
  2: { intros [= <- <-]. split; [reflexivity|]. left. auto. }
  destruct (grid_attributes (grid w)) as [self|] eqn:Hattr.
  2: { intros [= <- <-]. split; [reflexivity|]. right. left. auto. }
  destruct (Qle_bool (sum_values (capacity module)) (grid_transmission_capacity self))
    eqn:Hle; [discriminate|].
  unfold divide.
  destruct (Qeq_bool (sum_values (capacity module)) 0) eqn:Heq; [|discriminate].
  cbn. intros [= <- <-]. split; [reflexivity|]. right. right.
  split; [reflexivity|]. exists module, self.
  apply Qeq_bool_iff in Heq. repeat split; auto.
  apply Qnot_le_lt. intros H. rewrite <- Heq in H.
  apply Qle_bool_iff in H. congruence.
Qed.

(** A step of the storage component deploys the yearly addition
    before it reads the grid: the power grows by the addition and the
    energy is the new power times the ratio, whatever happens next.  Without
    a grid component the row of the year has no curtailment rate; with one
    it has the rate of the last row of the grid component; and when the grid
    component has no row yet the step raises [IndexError] and appends no
    row, the deployment staying made. *)
Lemma storage_step_reads_last_grid_row :
  forall (time_step : Z) (w : World) (self : BESSDeployment),
    bess w = Some self ->
    let power' := (power_gw self + annual_addition_gw self)%Q in
    let energy' := (power' * energy_power_ratio self)%Q in
    let row (rate : option Q) :=
      {| bess_year := time_step;
         bess_power_gw := power';
         bess_energy_gwh := energy';
         bess_curtailment_rate := rate |} in
    exists self' : BESSDeployment,
      bess (fst (bess_step time_step w)) = Some self' /\
      power_gw self' = power' /\
      energy_gwh self' = energy' /\
      renewable (fst (bess_step time_step w)) = renewable w /\
      grid (fst (bess_step time_step w)) = grid w /\
      match _grid_mod self, option_map grid_history (grid_attributes (grid w)) with
      | false, _ =>
          snd (bess_step time_step w) = ok tt /\
          bess_history self' = bess_history self ++ [row None]
      | true, None =>
          snd (bess_step time_step w) = raise (AttributeError "history") /\
          bess_history self' = bess_history self
      | true, Some rows =>
          match last rows with
          | Some grid_row =>
              snd (bess_step time_step w) = ok tt /\
              bess_history self' =
                bess_history self ++ [row (Some (curtailment_rate grid_row))]
          | None =>
              snd (bess_step time_step w) = raise IndexError /\
              bess_history self' = bess_history self
          end
      end.
Proof.
  intros time_step w self Hself power' energy' row.
  unfold bess_step. rewrite Hself. unfold last_curtailment_rate.
  destruct (_grid_mod self) eqn:Hmod.
  - destruct (grid_attributes (grid w)) as [attributes|]; cbn [option_map].
    + destruct (last (grid_history attributes)) as [grid_row|];
        cbn; eexists; repeat split; reflexivity.
    + cbn. eexists. repeat split; reflexivity.
  - cbn. eexists. repeat split; reflexivity.
Qed.

(** X22.  A step of the capacity component reads the two capacities and
    their growth rates before it writes: when an entry is missing it raises
    the [KeyError] of that entry and changes nothing.  Otherwise solar and
    wind each grow by capacity times rate times boost, the boost being 1
    unless the engine state has one, every other entry of [capacity] stays
    as it is, and one row with the year and the two new capacities is
    appended. *)
Theorem X22_capacity_step_grows_solar_and_wind :
  forall (time_step : Z) (w : World) (self : RenewableCapacityExpansion),
    renewable w = Some self ->
    let boost := match bri_innovation_boost w with Some b => b | None => 1%Q end in
    match PyDict.get (capacity self) "solar", PyDict.get (growth_rates self) "solar",
          PyDict.get (capacity self) "wind", PyDict.get (growth_rates self) "wind"
    with
    | Some solar, Some solar_rate, Some wind, Some wind_rate =>
        exists self' : RenewableCapacityExpansion,
          capacity_step time_step w = (with_renewable self' w, ok tt) /\
          PyDict.get (capacity self') "solar"
          = Some (solar + solar * solar_rate * boost)%Q /\
          PyDict.get (capacity self') "wind"
          = Some (wind + wind * wind_rate * boost)%Q /\
          (forall key, key <> "solar" -> key <> "wind" ->
                       PyDict.get (capacity self') key
                       = PyDict.get (capacity self) key) /\
          PyDict.keys (capacity self') = PyDict.keys (capacity self) /\
          growth_rates self' = growth_rates self /\
          capacity_history self' =
            capacity_history self
            ++ [{| capacity_year := time_step;
                   solar_gw := (solar + solar * solar_rate * boost)%Q;
                   wind_gw := (wind + wind * wind_rate * boost)%Q |}]
    | None, _, _, _ | Some _, None, _, _ =>
        capacity_step time_step w = (w, raise (KeyError "solar"))
    | Some _, Some _, None, _ | Some _, Some _, Some _, None =>
        capacity_step time_step w = (w, raise (KeyError "wind"))
    end.
Proof.
  intros time_step w self Hself boost. unfold capacity_step. rewrite Hself.
  unfold getitem. fold boost.
  destruct (PyDict.get (capacity self) "solar") as [solar|] eqn:Hs; [|reflexivity].
  destruct (PyDict.get (growth_rates self) "solar") as [rs|]; [|reflexivity].
  destruct (PyDict.get (capacity self) "wind") as [wind|] eqn:Hw; [|reflexivity].
  destruct (PyDict.get (growth_rates self) "wind") as [rw|]; [|reflexivity].
  cbn [rbind ok]. unfold rbind, ok. eexists. split; [reflexivity|].
  cbn [capacity growth_rates capacity_history].
  rewrite !pydict_get_set. cbn [String.eqb Ascii.eqb].
  split; [reflexivity|]. split; [reflexivity|]. split; [|split; [|auto]].
  - intros key Hks Hkw. rewrite !pydict_get_set.
    destruct (String.eqb_spec key "wind"); [congruence|].
    destruct (String.eqb_spec key "solar"); [congruence|]. reflexivity.
  - rewrite !pydict_keys_set.
    assert (Hin : forall (d : PyDict.t string Q) k v,
               PyDict.get d k = Some v -> k ∈ PyDict.keys d).
    { intros d k v Hget. apply pydict_get_Some in Hget.
      apply (list_elem_of_fmap_2 fst _ _ Hget). }
    destruct (decide ("solar" ∈ PyDict.keys (capacity self))) as [_|Hn];
      [|exfalso; apply Hn; eapply Hin; eauto].
    destruct (decide ("wind" ∈ PyDict.keys (capacity self))) as [_|Hn];
      [reflexivity | exfalso; apply Hn; eapply Hin; eauto].
Qed.

End ComponentSteps.

Section PlantOrders.
Import Plant.

(** X23.  The grid component reads the capacities when it is stepped, so
    what it reads depends on the order of registration.  Registered after
    the capacity component, it computes the curtailment of a year from the
    capacities after that year's expansion; registered before it, from the
    capacities before that year's expansion.  In both orders the run of a
    sound configuration returns, with one row per year and component, the
    transmission capacity of year [k] being the initial one expanded [k]
    times. *)
Theorem X23_grid_reads_capacity_by_registration_order :
  forall (cfg : Settings) (first_year end_year : Z) (analytics : World -> World),
    sound cfg ->
    let n := Z.to_nat (end_year + 1 - first_year) in
    Engine.run analytics (engine cfg first_year end_year [Capacity; Grid]) None
      (created, [])
    = ((analytics (stepped cfg first_year 1 false n n n),
        Engine.lifecycle_calls (engine cfg first_year end_year [Capacity; Grid])),
       ok tt) /\
    Engine.run analytics (engine cfg first_year end_year [Grid; Capacity]) None
      (created, [])
    = ((analytics (stepped cfg first_year 0 false n n n),
        Engine.lifecycle_calls (engine cfg first_year end_year [Grid; Capacity])),
       ok tt).
Proof.
  intros cfg first_year end_year analytics Hsound n. split.
  - exact (run_capacity_grid cfg first_year Hsound analytics end_year true false).
  - exact (run_capacity_grid cfg first_year Hsound analytics end_year false false).
Qed.

(** X24.  The storage component reads the last row of the grid component
    when it is stepped.  Registered after the capacity and grid components,
    its row of a year carries the curtailment rate the grid component
    recorded for that year, and the run of a sound configuration returns.
    Registered between them, it is stepped in the first year while the grid
    component has no row: the run raises [IndexError] there, after the
    deployment of that year was made, and neither the grid component is
    stepped nor any component finalized. *)
Theorem X24_storage_after_grid_or_index_error :
  forall (cfg : Settings) (first_year end_year : Z) (analytics : World -> World),
    sound cfg ->
    let n := Z.to_nat (end_year + 1 - first_year) in
    Engine.run analytics (engine cfg first_year end_year [Capacity; Grid; Storage])
      None (created, [])
    = ((analytics (stepped cfg first_year 1 true n n n),
        Engine.lifecycle_calls
          (engine cfg first_year end_year [Capacity; Grid; Storage])),
       ok tt) /\
    ((first_year <= end_year)%Z ->
     exists w : World,
       Engine.run analytics (engine cfg first_year end_year [Capacity; Storage; Grid])
         None (created, [])
       = ((w, [Initialize capacity_name; Initialize bess_name;
               Initialize GridIntegration.default_name;
               Step capacity_name first_year; Step bess_name first_year]),
          raise IndexError) /\
       option_map grid_history (grid_attributes (grid w)) = Some [] /\
       option_map bess_history (bess w) = Some [] /\
       option_map power_gw (bess w)
       = Some (bess_initial_power_gw cfg + bess_annual_addition_gw cfg)%Q).
Proof.
  intros cfg first_year end_year analytics Hsound n. split.
  - exact (run_capacity_grid cfg first_year Hsound analytics end_year true true).
  - intros Hyears.
    pose proof (capacity_step_stepped cfg first_year Hsound 1 true 0 0 0) as Hcap.
    cbn [Z.of_nat] in Hcap. rewrite Z.add_0_r in Hcap.
    eexists. split.
    + unfold Engine.run. unfold bind at 1.
      change (Engine._initialize_components
                (engine cfg first_year end_year [Capacity; Storage; Grid])
                (created, []))
        with ((stepped cfg first_year 1 true 0 0 0,
               [Initialize capacity_name; Initialize bess_name;
                Initialize GridIntegration.default_name]), ok tt).
      cbv beta iota. unfold bind at 1. unfold Engine._run_simulation_loop.
      change (Engine.start_year
                (engine cfg first_year end_year [Capacity; Storage; Grid]))
        with first_year.
      change (Engine.end_year
                (engine cfg first_year end_year [Capacity; Storage; Grid]))
        with end_year.
      rewrite (range_split first_year first_year (end_year + 1)) by lia.
      rewrite (range_nil first_year first_year) by lia.
      cbn [app for_each]. unfold bind at 1. unfold bind at 1.
      cbn [engine List.map fold_left Engine.add_component Engine.new
           Engine.components app component GridIntegration.component
           Engine.name Engine.step for_each].
      unfold bind at 1. unfold Engine.invoke at 1. rewrite Hcap.
      reflexivity.
    + cbn. auto.
Qed.

End PlantOrders.

(** A configuration of the three components. *)
Definition plant_settings : Plant.Settings :=
  {| Plant.renewable_capacity_initial := [("solar", 100%Q); ("wind", 50%Q)];
     Plant.renewable_capacity_growth_rates := [("solar", 1 # 10); ("wind", 1 # 20)];
     Plant.grid_initial_transmission_gw := 120%Q;
     Plant.grid_annual_expansion_rate := 1 # 20;
     Plant.bess_initial_power_gw := 10%Q;
     Plant.bess_initial_energy_gwh := 20%Q;
     Plant.bess_annual_addition_gw := 5%Q;
     Plant.bess_energy_power_ratio := 2%Q |}.

(** An initialised grid component with a negative transmission capacity
    beside a capacity object without any capacity. *)
Definition nothing_to_transmit : Plant.World :=
  {| Plant.bri_innovation_boost := None;
     Plant.renewable :=
       Some {| Plant.capacity_history := [];
               Plant.capacity := [];
               Plant.growth_rates := [] |};
     Plant.grid :=
       {| Plant.renewable_capacity_module := true;
          Plant.grid_attributes :=
            Some {| Plant.grid_history := [];
                    Plant.grid_transmission_capacity := (-1)%Q;
                    Plant.expansion_rate := 0%Q |} |};
     Plant.bess := None |}.

Section PlantExamples.
Import Plant.

Lemma plant_settings_sound : sound plant_settings.
Proof.
  unfold sound. repeat split; try (eexists; reflexivity); discriminate.
Qed.

(** Registered after the capacity component the grid component records a
    curtailment of 340/13 percent for the first year, registered before it
    20 percent. *)
Lemma registration_order_changes_the_rates :
  Qeq_bool (curtailment_rate (grid_row plant_settings 2025 1 0)) (340 # 13) = true /\
  Qeq_bool (curtailment_rate (grid_row plant_settings 2025 0 0)) 20 = true.
Proof. vm_compute. split; reflexivity. Qed.

Lemma X20_grid_step_records_a_bounded_rate_2025 :
  exists (w' : World) (self' : GridAttributes) (rate : Q),
    grid_step 2025 (stepped plant_settings 2025 1 false 1 0 0) = (w', ok tt) /\
    grid_attributes (grid w') = Some self' /\
    grid_history self' =
      [] ++ [{| grid_year := 2025;
                grid_capacity_gw := 120;
                curtailment_rate := rate |}] /\
    (0 <= rate)%Q /\ (rate <= 100)%Q /\
    (rate == 0 <-> sum_values (capacities plant_settings 1) <= 120)%Q /\
    grid_transmission_capacity self' = (120 * (1 + (1 # 20)))%Q /\
    expansion_rate self' = 1 # 20 /\
    renewable w' = renewable (stepped plant_settings 2025 1 false 1 0 0) /\
    bess w' = None.
Proof.
  apply (X20_grid_step_records_a_bounded_rate 2025
           (stepped plant_settings 2025 1 false 1 0 0)
           {| capacity_history := map (capacity_row plant_settings 2025) (seq 0 1);
              capacity := capacities plant_settings 1;
              growth_rates := renewable_capacity_growth_rates plant_settings |}
           {| grid_history := [];
              grid_transmission_capacity := 120;
              expansion_rate := 1 # 20 |}).
  - reflexivity.
  - reflexivity.
  - reflexivity.
  - discriminate.
Defined.

Lemma X21_grid_step_failures_nothing_to_transmit :
  nothing_to_transmit = nothing_to_transmit /\
  ((OtherError "ZeroDivisionError" = AttributeError "capacity" /\
    (renewable_capacity_module (grid nothing_to_transmit) = false \/
     renewable nothing_to_transmit = None)) \/
   (OtherError "ZeroDivisionError" = AttributeError "grid_transmission_capacity" /\
    grid_attributes (grid nothing_to_transmit) = None) \/
   (OtherError "ZeroDivisionError" = OtherError "ZeroDivisionError" /\
    exists (module : RenewableCapacityExpansion) (self : GridAttributes),
      renewable nothing_to_transmit = Some module /\
      grid_attributes (grid nothing_to_transmit) = Some self /\
      (sum_values (capacity module) == 0)%Q /\
      (grid_transmission_capacity self < 0)%Q)).
Proof.
  apply (X21_grid_step_failures 2025 nothing_to_transmit nothing_to_transmit
           (OtherError "ZeroDivisionError")).
  reflexivity.
Defined.

Lemma X22_capacity_step_grows_solar_and_wind_2025 :
  exists self' : RenewableCapacityExpansion,
    capacity_step 2025 (stepped plant_settings 2025 1 false 0 0 0)
    = (with_renewable self' (stepped plant_settings 2025 1 false 0 0 0), ok tt) /\
    PyDict.get (capacity self') "solar" = Some (100 + 100 * (1 # 10) * 1)%Q /\
    PyDict.get (capacity self') "wind" = Some (50 + 50 * (1 # 20) * 1)%Q /\
    (forall key, key <> "solar" -> key <> "wind" ->
                 PyDict.get (capacity self') key
                 = PyDict.get (renewable_capacity_initial plant_settings) key) /\
    PyDict.keys (capacity self') = ["solar"; "wind"] /\
    growth_rates self' = renewable_capacity_growth_rates plant_settings /\
    capacity_history self' =
      [] ++ [{| capacity_year := 2025;
                solar_gw := (100 + 100 * (1 # 10) * 1)%Q;
                wind_gw := (50 + 50 * (1 # 20) * 1)%Q |}].
Proof.
  apply (X22_capacity_step_grows_solar_and_wind 2025
           (stepped plant_settings 2025 1 false 0 0 0)
           {| capacity_history := [];
              capacity := renewable_capacity_initial plant_settings;
              growth_rates := renewable_capacity_growth_rates plant_settings |}).
  reflexivity.
Defined.

Lemma X23_grid_reads_capacity_by_registration_order_three_years :
  Engine.run (fun w => w) (engine plant_settings 2025 2027 [Capacity; Grid]) None
    (created, [])
  = ((stepped plant_settings 2025 1 false 3 3 3,
      Engine.lifecycle_calls (engine plant_settings 2025 2027 [Capacity; Grid])),
     ok tt) /\
  Engine.run (fun w => w) (engine plant_settings 2025 2027 [Grid; Capacity]) None
    (created, [])
  = ((stepped plant_settings 2025 0 false 3 3 3,
      Engine.lifecycle_calls (engine plant_settings 2025 2027 [Grid; Capacity])),
     ok tt).
Proof.
  apply (X23_grid_reads_capacity_by_registration_order plant_settings 2025 2027
           (fun w => w)).
  apply plant_settings_sound.
Defined.

Lemma X24_storage_after_grid_or_index_error_three_years :
  Engine.run (fun w => w)
    (engine plant_settings 2025 2027 [Capacity; Grid; Storage]) None (created, [])
  = ((stepped plant_settings 2025 1 true 3 3 3,
      Engine.lifecycle_calls
        (engine plant_settings 2025 2027 [Capacity; Grid; Storage])),
     ok tt) /\
  ((2025 <= 2027)%Z ->
   exists w : World,
     Engine.run (fun w => w)
       (engine plant_settings 2025 2027 [Capacity; Storage; Grid]) None (created, [])
     = ((w, [Initialize capacity_name; Initialize bess_name;
             Initialize GridIntegration.default_name;
             Step capacity_name 2025; Step bess_name 2025]),
        raise IndexError) /\
     option_map grid_history (grid_attributes (grid w)) = Some [] /\
     option_map bess_history (bess w) = Some [] /\
     option_map power_gw (bess w) = Some (10 + 5)%Q).
Proof.
  apply (X24_storage_after_grid_or_index_error plant_settings 2025 2027
           (fun w => w)).
  apply plant_settings_sound.
Defined.

End PlantExamples.

(** ** Iteration counts and the progress bar *)

Section RunAccounting.
Import MonteCarlo.
Context {G X Stats : Type}.
Context (np : numpy_random G) (describe : list scalar -> result Stats).

#[local] Abbreviation state := (@MonteCarlo.state G X Stats).
#[local] Abbreviation EngineFactory := (@MonteCarlo.EngineFactory X).
#[local] Abbreviation artifact := (@MonteCarlo.artifact Stats).

Context (write_file : artifact -> SE X unit).

(** X25.  With an iteration count of zero or less [run] makes no iteration:
    whatever the distributions and the factory are, nothing is sampled, no
    engine is built and nothing is saved; results and samples of an earlier
    run are dropped, zero successful runs and the warning are logged, the
    progress bar is closed and the empty table is returned. *)
Theorem X25_no_iteration_without_a_positive_count :
  forall (mc : MonteCarloSimulation) (f : EngineFactory) (s : state),
    (n_iterations mc <= 0)%Z ->
    run np describe write_file mc f s
    = (progress_close
         (log Warning_no_results (log (Info_completed 0) (cleared s))),
       ok []) /\
    rng (fst (run np describe write_file mc f s)) = rng s /\
    ext (fst (run np describe write_file mc f s)) = ext s /\
    saved (fst (run np describe write_file mc f s)) = saved s /\
    self_results (fst (run np describe write_file mc f s)) = [] /\
    self_parameter_samples (fst (run np describe write_file mc f s)) = [].
Proof.
  intros mc f s Hn.
  assert (Hrun : run np describe write_file mc f s
                 = (progress_close
                      (log Warning_no_results (log (Info_completed 0) (cleared s))),
                    ok [])).
  { unfold run. replace (Z.to_nat (n_iterations mc)) with 0%nat by lia.
    reflexivity. }
  rewrite Hrun. repeat split; reflexivity.
Qed.

(** X26.  The progress bar is closed when [run] is left, whether it returns
    or raises.  In a well configured experiment it is advanced once per
    iteration, the iterations whose engine failed included, and by nothing
    else. *)
Theorem X26_progress_is_advanced_once_per_iteration :
  forall (mc : MonteCarloSimulation) (f : EngineFactory) (s : state),
    progress_closed (fst (run np describe write_file mc f s)) = true /\
    (samplable np mc ->
     progress_updates (fst (run np describe write_file mc f s))
     = (progress_updates s + Z.to_nat (n_iterations mc))%nat).
Proof.
  intros mc f s. split.
  - unfold run. unfold bind at 1, modify. cbv beta iota.
    unfold bind at 1. cbv beta iota. unfold try_finally.
    match goal with |- context [let '(s', r) := ?body ?s0 in _] =>
      destruct (body s0) as [s' r]
    end.
    reflexivity.
  - intros Hmc.
    destruct (loop_spec np mc f Hmc (Z.to_nat (n_iterations mc)) 0%nat
                (cleared s) eq_refl)
      as (s1 & nr & nl & Hloop & _ & _ & _ & _ & _ & _ & Hupd & _).
    destruct (analyze_results_spec describe write_file mc
                (log (Info_completed (length (self_results s1))) s1))
      as ((_ & _ & _ & _ & Hupd2 & _) & _).
    rewrite (run_after_loop np describe write_file mc f s s1 Hloop).
    cbn [fst progress_close progress_updates].
    rewrite Hupd2. cbn [log progress_updates]. rewrite Hupd. reflexivity.
Qed.

End RunAccounting.

Section RunAccountingExamples.
Import MonteCarlo.

(** A count of -3 on an experiment whose only distribution has an unknown
    kind: nothing is sampled, so nothing is raised. *)
Lemma X25_no_iteration_without_a_positive_count_negative :
  run degenerate count_values written
    {| base_config := gv_config;
       parameter_distributions :=
         [{| param_path := ["g"; "v"]; distribution := "lognormal"; params := ∅ |}];
       n_iterations := -3;
       save_all_runs := true |}
    failing_always (initial_state 0%nat 0%nat)
  = (progress_close
       (log Warning_no_results
          (log (Info_completed 0) (cleared (initial_state 0%nat 0%nat)))),
     ok []) /\
  rng (fst (run degenerate count_values written
              {| base_config := gv_config;
                 parameter_distributions :=
                   [{| param_path := ["g"; "v"]; distribution := "lognormal";
                       params := ∅ |}];
                 n_iterations := -3;
                 save_all_runs := true |}
              failing_always (initial_state 0%nat 0%nat))) = 0%nat /\
  ext (fst (run degenerate count_values written
              {| base_config := gv_config;
                 parameter_distributions :=
                   [{| param_path := ["g"; "v"]; distribution := "lognormal";
                       params := ∅ |}];
                 n_iterations := -3;
                 save_all_runs := true |}
              failing_always (initial_state 0%nat 0%nat))) = 0%nat /\
  saved (fst (run degenerate count_values written
                {| base_config := gv_config;
                   parameter_distributions :=
                     [{| param_path := ["g"; "v"]; distribution := "lognormal";
                         params := ∅ |}];
                   n_iterations := -3;
                   save_all_runs := true |}
                failing_always (initial_state 0%nat 0%nat))) = [] /\
  self_results
    (fst (run degenerate count_values written
            {| base_config := gv_config;
               parameter_distributions :=
                 [{| param_path := ["g"; "v"]; distribution := "lognormal";
                     params := ∅ |}];
               n_iterations := -3;
               save_all_runs := true |}
            failing_always (initial_state 0%nat 0%nat))) = [] /\
  self_parameter_samples
    (fst (run degenerate count_values written
            {| base_config := gv_config;
               parameter_distributions :=
                 [{| param_path := ["g"; "v"]; distribution := "lognormal";
                     params := ∅ |}];
               n_iterations := -3;
               save_all_runs := true |}
            failing_always (initial_state 0%nat 0%nat))) = [].
Proof.
  apply (X25_no_iteration_without_a_positive_count degenerate count_values written
           {| base_config := gv_config;
              parameter_distributions :=
                [{| param_path := ["g"; "v"]; distribution := "lognormal";
                    params := ∅ |}];
              n_iterations := -3;
              save_all_runs := true |}
           failing_always (initial_state 0%nat 0%nat)).
  simpl. lia.
Defined.

End RunAccountingExamples.

(** ** The deep copy returns *)

(** A path error: what a walk along a path or the final assignment can
    raise. *)
Definition is_path_error (e : exn) : bool :=
  match e with
  | TypeError | KeyError _ | IndexError => true
  | _ => false
  end.

Section DeepCopyReturns.
Import Store.

Lemma size_after_memo (D M M' : gset loc) (l : loc) :
  l ∈ D -> l ∉ M -> l ∈ M' -> M ⊆ M' ->
  (S (size (D ∖ M')) <= size (D ∖ M))%nat.
Proof.
  intros HD HM HM' Hsub.
  assert (H1 : D ∖ M' ⊆ (D ∖ M) ∖ {[l]}) by set_solver.
  apply subseteq_size in H1.
  assert (H2 : {[l]} ⊆ D ∖ M) by set_solver.
  rewrite (size_difference (D ∖ M) {[l]} H2) in H1.
  rewrite size_singleton in H1.
  apply subseteq_size in H2. rewrite size_singleton in H2. lia.
Qed.

Lemma for_each_returns {S A : Type} (Q : S -> Prop) (body : A -> SE S unit)
  (xs : list A) :
  (forall x s, x ∈ xs -> Q s -> exists s', body x s = (s', ok tt) /\ Q s') ->
  forall s, Q s -> exists s', for_each xs body s = (s', ok tt) /\ Q s'.
Proof.
  induction xs as [|x xs IH]; intros Hbody s Hs; simpl.
  - exists s. auto.
  - destruct (Hbody x s ltac:(left) Hs) as (s1 & Hx & Hs1).
    unfold bind. rewrite Hx. apply IH; [|exact Hs1].
    intros x' s' Hin. apply Hbody. right. exact Hin.
Qed.

(** With one unit of fuel per object that is not yet in the memo, a copy
    returns, and the memo only grows. *)
Lemma deepcopy_returns (h0 : heap) :
  closed h0 ->
  forall (fuel : nat) (x : val) (st : memo * heap),
    copying h0 st -> valid h0 x ->
    (size (dom h0 ∖ dom (fst st)) <= fuel)%nat ->
    exists (st' : memo * heap) (v : val),
      deepcopy fuel x st = (st', ok v) /\
      dom (fst st) ⊆ dom (fst st') /\
      copying h0 st'.
Proof.
  intros Hclosed. induction fuel as [|fuel IH]; intros x st Hst Hx Hfuel.
  - destruct x as [s|l]; simpl.
    + exists st, (Scalar s). auto.
    + destruct (fst st !! l) as [y|] eqn:Hmemo.
      * exists st, (Ref y). auto.
      * exfalso. simpl in Hx.
        assert (Hsub : {[l]} ⊆ dom h0 ∖ dom (fst st)).
        { apply singleton_subseteq_l, elem_of_difference. split; [exact Hx|].
          apply not_elem_of_dom. exact Hmemo. }
        apply subseteq_size in Hsub. rewrite size_singleton in Hsub. lia.
  - destruct x as [s|l]; cbn [deepcopy].
    + exists st, (Scalar s). auto.
    + destruct (fst st !! l) as [y|] eqn:Hmemo.
      { exists st, (Ref y). auto. }
      simpl in Hx.
      assert (Hold : snd st !! l = h0 !! l) by (apply (proj1 (proj1 Hst)), Hx).
      apply elem_of_dom in Hx as Hobj. destruct Hobj as [o Ho].
      rewrite Hold, Ho.
      set (y := fresh (dom (snd st))).
      assert (Hy0 : y ∉ dom h0).
      { intros Hin. apply (is_fresh (dom (snd st))).
        eapply separated_dom; [apply Hst | exact Hin]. }
      assert (Hstep : forall st' : memo * heap,
                 dom (<[l := y]> (fst st)) ⊆ dom (fst st') ->
                 (size (dom h0 ∖ dom (fst st')) <= fuel)%nat).
      { intros st' Hsub.
        assert (Hl : l ∈ dom (fst st')).
        { apply Hsub, elem_of_dom. rewrite lookup_insert_eq. eauto. }
        assert (Hm : dom (fst st) ⊆ dom (fst st')).
        { etrans; [|exact Hsub]. apply dom_insert_subseteq. }
        assert (Hnl : l ∉ dom (fst st)) by (apply not_elem_of_dom; exact Hmemo).
        pose proof (size_after_memo (dom h0) (dom (fst st)) (dom (fst st')) l
                      Hx Hnl Hl Hm).
        lia. }
      assert (Hchild : forall (v : val) (st' : memo * heap),
                 refers o v ->
                 copying h0 st' /\ dom (<[l := y]> (fst st)) ⊆ dom (fst st') ->
                 exists (st'' : memo * heap) (v' : val),
                   deepcopy fuel v st' = (st'', ok v') /\
                   dom (<[l := y]> (fst st)) ⊆ dom (fst st'') /\
                   copying h0 st'' /\ is_new h0 (snd st'') v').
      { intros v st' Hv [Hc Hsub].
        destruct (IH v st' Hc (Hclosed l o v Ho Hv) (Hstep st' Hsub))
          as (st'' & v' & Hrun & Hgrow & Hc').
        exists st'', v'. split; [exact Hrun|]. split; [etrans; eassumption|].
        split; [exact Hc'|].
        destruct (deepcopy_copying h0 fuel v st' Hc) as (_ & _ & Hnew).
        rewrite Hrun in Hnew. apply Hnew. reflexivity. }
      assert (Halloc : forall o', (forall v, ~ refers o' v) ->
                 copying h0 (<[l := y]> (fst st), <[y := o']> (snd st))).
      { intros o' Ho'. split; cbn [fst snd].
        - apply separated_insert; [apply Hst | exact Hy0|].
          intros v Hv. destruct (Ho' v Hv).
        - intros l0 y0 Hl0. destruct (decide (l = l0)) as [->|Hne].
          + rewrite lookup_insert_eq in Hl0. injection Hl0 as <-.
            split; [exact Hy0|]. apply elem_of_dom. rewrite lookup_insert_eq. eauto.
          + rewrite lookup_insert_ne in Hl0 by exact Hne.
            destruct (proj2 Hst l0 y0 Hl0) as [Hy0' Hyin'].
            split; [exact Hy0' | apply dom_insert_subseteq, Hyin']. }
      clear IH Hstep.
      destruct o as [d|xs].
      * set (st1 := (<[l := y]> (fst st), <[y := Dict ∅]> (snd st))).
        destruct (for_each_returns
                    (fun st' : memo * heap =>
                       copying h0 st' /\ dom (<[l := y]> (fst st)) ⊆ dom (fst st'))
                    (fun '((key, v) : string * val) =>
                       do! v' <- deepcopy fuel v; modify (fill_key y key v'))
                    (map_to_list d)) with (s := st1) as (st2 & Hloop & Hc2 & Hsub2).
        { intros [key v] st' Hin HQ.
          apply elem_of_map_to_list in Hin.
          destruct (Hchild v st' ltac:(exists key; exact Hin) HQ)
            as (st'' & v' & Hrun & Hsub & Hc & Hnew).
          unfold bind, modify. rewrite Hrun. eexists. split; [reflexivity|].
          destruct (fill_key_copying h0 y key v' st'' Hy0 Hc Hnew) as [Hc' _].
          split; [exact Hc'|].
          unfold fill_key. destruct (snd st'' !! y) as [[?|?]|]; exact Hsub. }
        { split; [|reflexivity]. apply Halloc.
          intros v [k Hk]. rewrite lookup_empty in Hk. discriminate. }
        unfold bind at 1. fold st1. rewrite Hloop. exists st2, (Ref y).
        split; [reflexivity|]. split; [|exact Hc2].
        etrans; [apply dom_insert_subseteq | exact Hsub2].
      * set (st1 := (<[l := y]> (fst st), <[y := List []]> (snd st))).
        destruct (for_each_returns
                    (fun st' : memo * heap =>
                       copying h0 st' /\ dom (<[l := y]> (fst st)) ⊆ dom (fst st'))
                    (fun v : val =>
                       do! v' <- deepcopy fuel v; modify (fill_append y v'))
                    xs) with (s := st1) as (st2 & Hloop & Hc2 & Hsub2).
        { intros v st' Hin HQ.
          destruct (Hchild v st' Hin HQ) as (st'' & v' & Hrun & Hsub & Hc & Hnew).
          unfold bind, modify. rewrite Hrun. eexists. split; [reflexivity|].
          destruct (fill_append_copying h0 y v' st'' Hy0 Hc Hnew) as [Hc' _].
          split; [exact Hc'|].
          unfold fill_append. destruct (snd st'' !! y) as [[?|?]|]; exact Hsub. }
        { split; [|reflexivity]. apply Halloc.
          intros v Hin. simpl in Hin. inversion Hin. }
        unfold bind at 1. fold st1. rewrite Hloop. exists st2, (Ref y).
        split; [reflexivity|]. split; [|exact Hc2].
        etrans; [apply dom_insert_subseteq | exact Hsub2].
Qed.

Lemma get_nested_param_path_error (h : heap) (path : ParameterPath) :
  forall (root : val) (e : exn),
    get_nested_param h root path = raise e -> is_path_error e = true.
Proof.
  induction path as [|key rest IH]; intros root e; simpl; [discriminate|].
  destruct root as [s|l]; simpl; [intros [= <-]; reflexivity|].
  destruct (h !! l) as [[d|xs]|]; simpl; try (intros [= <-]; reflexivity).
  destruct (d !! key) as [v|]; simpl; [apply IH | intros [= <-]; reflexivity].
Qed.

Lemma set_nested_param_path_error (h : heap) (root : val) (path : ParameterPath)
  (v : val) (e : exn) :
  set_nested_param h root path v = raise e -> is_path_error e = true.
Proof.
  unfold set_nested_param.
  destruct (get_nested_param h root (removelast path)) as [e'|target] eqn:Hget.
  - intros [= <-]. exact (get_nested_param_path_error _ _ _ _ Hget).
  - simpl. destruct (last path) as [key|]; [|intros [= <-]; reflexivity].
    destruct target as [s|l]; simpl; [intros [= <-]; reflexivity|].
    destruct (h !! l) as [[d|xs]|]; simpl;
      try (intros [= <-]; reflexivity); discriminate.
Qed.

(** X27.  When every reference of the heap has its object and the
    recursion budget is at least the number of objects, the deep copy of the
    base configuration returns, also for a configuration that shares
    dictionaries or contains itself.  [_apply_samples] can then only fail
    with the error of a path: a [TypeError], a [KeyError] or an
    [IndexError]. *)
Theorem X27_deep_copy_returns :
  forall (fuel : nat) (dists : list ParameterDistribution) (config : val)
         (samples : SampledParams) (h : heap),
    closed h -> valid h config -> (size (dom h) <= fuel)%nat ->
    (exists (h' : heap) (config_copy : val),
        copy_deepcopy fuel config h = (h', ok config_copy)) /\
    (forall (h' : heap) (e : exn),
        _apply_samples fuel dists config samples h = (h', raise e) ->
        is_path_error e = true).
Proof.
  intros fuel dists config samples h Hclosed Hvalid Hfuel.
  assert (Hstart : copying h (∅, h)).
  { split; [apply separated_refl|]. intros l y Hl. cbn [fst] in Hl.
    rewrite lookup_empty in Hl. discriminate. }
  destruct (deepcopy_returns h Hclosed fuel config (∅, h) Hstart Hvalid)
    as ([m1 h1] & c & Hcopy & _ & _).
  { cbn [fst]. rewrite dom_empty_L, difference_empty_L. exact Hfuel. }
  assert (Hcd : copy_deepcopy fuel config h = (h1, ok c)).
  { unfold copy_deepcopy. rewrite Hcopy. reflexivity. }
  split; [eauto|].
  intros h' e. unfold _apply_samples. unfold bind at 1. rewrite Hcd.
  unfold ok at 1. cbv beta iota. unfold bind at 1.
  assert (Hloop : forall (ds : list ParameterDistribution) (h2 h3 : heap) (e : exn),
             for_each ds
               (fun param =>
                  match PyDict.get samples (join_path (param_path param)) with
                  | Some sample_value =>
                      update (fun h => set_nested_param h c (param_path param)
                                         (Scalar sample_value))
                  | None => ret tt
                  end) h2 = (h3, raise e) ->
             is_path_error e = true).
  { induction ds as [|d ds IHds]; intros h2 h3 e0; simpl; [discriminate|].
    unfold bind.
    destruct (PyDict.get samples (join_path (param_path d))) as [v|].
    - unfold update.
      destruct (set_nested_param h2 c (param_path d) (Scalar v)) as [e1|h4] eqn:Hset.
      + intros [= _ <-]. exact (set_nested_param_path_error _ _ _ _ _ Hset).
      + apply IHds.
    - apply IHds. }
  match goal with |- context [for_each dists ?body h1] =>
    destruct (for_each dists body h1) as [h2 [e0|u]] eqn:Hrun
  end.
  - intros [= _ <-]. exact (Hloop _ _ _ _ Hrun).
  - discriminate.
Qed.

End DeepCopyReturns.

Section DeepCopyReturnsExample.
Import Store.

Lemma self_heap_closed : closed self_heap.
Proof.
  intros l o v Hl Hv. unfold self_heap in Hl.
  apply lookup_singleton_Some in Hl as [<- <-].
  destruct Hv as [key Hkey].
  apply lookup_insert_Some in Hkey as [[_ <-]|[_ Hkey]].
  - apply elem_of_dom. exists (Dict {[ "self" := Ref 0%nat; "v" := Scalar (SInt 1) ]}).
    reflexivity.
  - apply lookup_singleton_Some in Hkey as [_ <-]. exact I.
Qed.

(** The copy of the configuration that contains itself contains itself. *)
Lemma self_heap_copy :
  copy_deepcopy 1 (Ref 0%nat) self_heap
  = (<[1%nat := Dict {[ "self" := Ref 1%nat; "v" := Scalar (SInt 1) ]}]> self_heap,
     ok (Ref 1%nat)).
Proof. vm_compute. reflexivity. Qed.

Lemma X27_deep_copy_returns_self :
  (exists (h' : heap) (config_copy : val),
      copy_deepcopy 1 (Ref 0%nat) self_heap = (h', ok config_copy)) /\
  (forall (h' : heap) (e : exn),
      _apply_samples 1 [gv_uniform] (Ref 0%nat) [("g.v", SFloat (1 # 4))] self_heap
      = (h', raise e) ->
      is_path_error e = true).
Proof.
  apply (X27_deep_copy_returns 1 [gv_uniform] (Ref 0%nat)
           [("g.v", SFloat (1 # 4))] self_heap).
  - apply self_heap_closed.
  - apply elem_of_dom. eexists. reflexivity.
  - vm_compute. lia.
Defined.

End DeepCopyReturnsExample.
